(** * networkst: CDP/LLDP neighbour discovery on Cisco switches

    A shallow embedding of [networkst/models.py], [networkst/errors.py],
    [networkst/connection.py] and [networkst/switch.py].

    Text is modelled as [string] (code points below 256), Python dicts as
    [gmap string value], Python sets as [gset], exceptions as an error
    result, and the facade object as a record threaded through a small
    state-and-exception monad.  The remote session (netmiko's
    [BaseConnection]) is an interface: a type class whose operations
    return a reply together with the next session state. *)

From Stdlib Require Import Ascii NArith.
From stdpp Require Import gmap strings list fin_maps sorting.

Local Open Scope N_scope.

(** ** Python [str] primitives *)

Module Py.

Definition LF : string := String "010" EmptyString.
Definition CR : string := String "013" EmptyString.
Definition CRLF : string := String "013" (String "010" EmptyString).

(** [str.isspace] on one character, which is also what [\s] tests in a
    [str] pattern: TAB..CR, FS..US, space, NEL and NBSP below 256. *)
Definition isspace (c : ascii) : bool :=
  let n := N_of_ascii c in
  ((9 <=? n) && (n <=? 13)) || ((28 <=? n) && (n <=? 32))
  || (n =? 133) || (n =? 160).

(** [\d] / ASCII [str.isdigit]: the ten decimal digits. *)
Definition isdigit (c : ascii) : bool :=
  let n := N_of_ascii c in (48 <=? n) && (n <=? 57).

Definition notspace (c : ascii) : bool := negb (isspace c).

(** [.] without DOTALL: anything but a line feed. *)
Definition dot (c : ascii) : bool := negb (N_of_ascii c =? 10).

(** [s[n:]] *)
Fixpoint drop (n : nat) (s : string) : string :=
  match n, s with
  | O, _ => s
  | S _, EmptyString => EmptyString
  | S n', String _ s' => drop n' s'
  end.

(** [s[:n]] *)
Fixpoint take (n : nat) (s : string) : string :=
  match n, s with
  | O, _ => EmptyString
  | S _, EmptyString => EmptyString
  | S n', String c s' => String c (take n' s')
  end.

(** [s[:-1]] *)
Definition drop_last (s : string) : string :=
  take (String.length s - 1) s.

(** [needle in s] *)
Fixpoint contains (needle s : string) : bool :=
  String.prefix needle s ||
  match s with
  | EmptyString => false
  | String _ s' => contains needle s'
  end.

(** [s.split(sep)] for a non-empty [sep]: [skip] counts the characters
    of a separator still to be passed over, [cur] is the piece being
    collected. *)
Fixpoint split_go (sep : string) (skip : nat) (cur : string) (s : string)
  : list string :=
  match s with
  | EmptyString => [cur]
  | String c s' =>
      match skip with
      | S k => split_go sep k cur s'
      | O =>
          if String.prefix sep s
          then cur :: split_go sep (String.length sep - 1) EmptyString s'
          else split_go sep O (cur +:+ String c EmptyString) s'
      end
  end.

Definition split (sep s : string) : list string :=
  split_go sep O EmptyString s.

(** [sep.join(parts)] *)
Definition join (sep : string) (parts : list string) : string :=
  String.concat sep parts.

Fixpoint lstrip (s : string) : string :=
  match s with
  | EmptyString => EmptyString
  | String c s' => if isspace c then lstrip s' else s
  end.

Fixpoint rstrip (s : string) : string :=
  match s with
  | EmptyString => EmptyString
  | String c s' =>
      match rstrip s' with
      | EmptyString => if isspace c then EmptyString else String c EmptyString
      | r => String c r
      end
  end.

(** [s.strip()] *)
Definition strip (s : string) : string := rstrip (lstrip s).

(** [all(p(c) for c in s)] *)
Fixpoint all_chars (p : ascii -> bool) (s : string) : bool :=
  match s with
  | EmptyString => true
  | String c s' => p c && all_chars p s'
  end.

(** Truth value of a [str]: empty is false. *)
Definition nonempty (s : string) : bool :=
  match s with EmptyString => false | _ => true end.

End Py.

(** ** The fragment of Python's [re] used by the parsers

    Backtracking matcher in continuation-passing style.  Quantifiers
    only ever apply to a character class in the source patterns, so the
    two quantifier forms take a class. *)

Module Re.

Inductive regex :=
| Lit (s : string)                  (* literal text *)
| Plus (cls : ascii -> bool)        (* [c+], greedy *)
| LazyStar (cls : ascii -> bool)    (* [c*?] *)
| Seq (r1 r2 : regex)
| Group (name : string) (r : regex). (* [(?P<name>r)], or [(r)] named by index *)

(** A match object: the captured groups in closing order. *)
Definition captures := list (string * string).

Section Quantifiers.
Context {R : Type}.

Fixpoint plus_greedy (cls : ascii -> bool) (s : string)
         (k : string -> option R) : option R :=
  match s with
  | EmptyString => None
  | String c s' =>
      if cls c then
        match plus_greedy cls s' k with
        | Some x => Some x
        | None => k s'
        end
      else None
  end.

Fixpoint star_lazy (cls : ascii -> bool) (s : string)
         (k : string -> option R) : option R :=
  match k s with
  | Some x => Some x
  | None =>
      match s with
      | EmptyString => None
      | String c s' => if cls c then star_lazy cls s' k else None
      end
  end.
End Quantifiers.

(** The text between the start [s] of a group and what is left, [rest]. *)
Definition consumed (s rest : string) : string :=
  Py.take (String.length s - String.length rest) s.

Fixpoint match_here (r : regex) (s : string) (caps : captures)
         (k : string -> captures -> option captures) : option captures :=
  match r with
  | Lit p =>
      if String.prefix p s then k (Py.drop (String.length p) s) caps else None
  | Plus cls => plus_greedy cls s (fun rest => k rest caps)
  | LazyStar cls => star_lazy cls s (fun rest => k rest caps)
  | Seq r1 r2 =>
      match_here r1 s caps (fun rest caps' => match_here r2 rest caps' k)
  | Group name r1 =>
      match_here r1 s caps
        (fun rest caps' => k rest (caps' ++ [(name, consumed s rest)]))
  end.

Definition match_at (r : regex) (s : string) : option captures :=
  match_here r s [] (fun _ caps => Some caps).

(** [pattern.search(s)]: the match at the leftmost position that has one. *)
Fixpoint search (r : regex) (s : string) : option captures :=
  match match_at r s with
  | Some m => Some m
  | None =>
      match s with
      | EmptyString => None
      | String _ s' => search r s'
      end
  end.

(** [match.group(name)] *)
Fixpoint group (m : captures) (name : string) : option string :=
  match m with
  | [] => None
  | (n, g) :: m' => if String.eqb n name then Some g else group m' name
  end.

(** [match.groups()] *)
Definition groups (m : captures) : list string := m.*2.

(** What a pattern may match, declaratively: [matches r w gs] says
    that [r] matches exactly the text [w], capturing [gs].  The
    matcher above is proved sound and complete for it below. *)
Inductive matches : regex → string → captures → Prop :=
| matches_lit p : matches (Lit p) p []
| matches_plus cls c w :
    cls c = true → Py.all_chars cls w = true →
    matches (Plus cls) (String c w) []
| matches_lazy cls w :
    Py.all_chars cls w = true → matches (LazyStar cls) w []
| matches_seq r1 r2 w1 w2 g1 g2 :
    matches r1 w1 g1 → matches r2 w2 g2 →
    matches (Seq r1 r2) (w1 +:+ w2) (g1 ++ g2)
| matches_group name r w g :
    matches r w g → matches (Group name r) w (g ++ [(name, w)]).

End Re.

Import Re.

(** ** Exceptions and results *)

Inductive exn :=
| NotConnectedError
| ConnectionFailedError
| CDPNotEnabledError
| LLDPNotEnabledError
| AttributeError        (* a method looked up on [None] *)
| AssertionError        (* a failed [assert] *)
| TypeError             (* [None] subscripted *)
| AddressValueError     (* [ipaddress.AddressValueError], a [ValueError] *)
| ValidationError.      (* [pydantic.ValidationError] *)

Inductive result (A : Type) :=
| Ok (a : A)
| Raise (e : exn).
Arguments Ok {A} a.
Arguments Raise {A} e.

Global Instance exn_eq_dec : EqDecision exn.
Proof. solve_decision. Defined.

Global Instance result_ret : MRet result := @Ok.
Global Instance result_bind : MBind result := fun A B f m =>
  match m with
  | Ok a => f a
  | Raise e => Raise e
  end.

Global Instance result_fmap : FMap result := fun A B f m =>
  match m with
  | Ok a => Ok (f a)
  | Raise e => Raise e
  end.

(** ** [ipaddress.IPv4Address] built from a [str]

    The constructor of Python's standard library as of Python 3.10, the
    oldest version that runs the source (its annotations use [X | None]):
    four dot-separated octets, each one to three ASCII digits, no
    leading zero, at most 255. *)

Record IPv4Address := mkIPv4 { ip_int : N }.

Global Instance IPv4Address_eq_dec : EqDecision IPv4Address.
Proof. solve_decision. Defined.
Global Instance IPv4Address_countable : Countable IPv4Address :=
  inj_countable' ip_int mkIPv4 (fun a => match a with mkIPv4 _ => eq_refl end).

Module Ipaddress.

(** [int(s, 10)] on a string of ASCII digits. *)
Fixpoint int_digits (acc : N) (s : string) : N :=
  match s with
  | EmptyString => acc
  | String c s' => int_digits (10 * acc + (N_of_ascii c - 48)) s'
  end.

Definition starts_with_zero (s : string) : bool :=
  match s with
  | String c _ => N_of_ascii c =? 48
  | EmptyString => false
  end.

(** [IPv4Address._parse_octet] *)
Definition _parse_octet (octet_str : string) : result N :=
  if negb (Py.nonempty octet_str) then Raise AddressValueError
  else if negb (Py.all_chars Py.isdigit octet_str) then Raise AddressValueError
  else if (3 <? String.length octet_str)%nat then Raise AddressValueError
  else if negb (String.eqb octet_str "0") && starts_with_zero octet_str
       then Raise AddressValueError
  else
    let octet_int := int_digits 0 octet_str in
    if 255 <? octet_int then Raise AddressValueError else Ok octet_int.

(** [IPv4Address._ip_int_from_string] *)
Definition _ip_int_from_string (ip_str : string) : result N :=
  if negb (Py.nonempty ip_str) then Raise AddressValueError
  else
    match Py.split "." ip_str with
    | [o1; o2; o3; o4] =>
        a ← _parse_octet o1;
        b ← _parse_octet o2;
        c ← _parse_octet o3;
        d ← _parse_octet o4;
        mret (((a * 256 + b) * 256 + c) * 256 + d)
    | _ => Raise AddressValueError
    end.

(** [IPv4Address(address)] for a [str] argument. *)
Definition IPv4Address_new (address : string) : result IPv4Address :=
  if Py.contains "/" address then Raise AddressValueError
  else mkIPv4 <$> _ip_int_from_string address.

End Ipaddress.


(** ** models.py *)

Record Neighbor := mkNeighbor {
  nb_hostname : string;
  nb_ip : option IPv4Address
}.

Record CiscoCDP := mkCiscoCDP {
  cdp_device_id : string;
  cdp_entry_ip : option IPv4Address;
  cdp_platform : string;
  cdp_interface : string;
  cdp_outgoing_port : string;
  cdp_duplex : string;
  cdp_management_ip : option IPv4Address
}.

Record CiscoLLDP := mkCiscoLLDP {
  lldp_chassis_id : string;
  lldp_port_id : string;
  lldp_interface : string;
  lldp_system_name : string;
  lldp_management_ip : option IPv4Address
}.

Global Instance Neighbor_eq_dec : EqDecision Neighbor.
Proof. solve_decision. Defined.
Global Instance CiscoCDP_eq_dec : EqDecision CiscoCDP.
Proof. solve_decision. Defined.
Global Instance CiscoLLDP_eq_dec : EqDecision CiscoLLDP.
Proof. solve_decision. Defined.

(** [Neighbor.__hash__] hashes the pair [(hostname, ip)]; the inherited
    [__eq__] compares the same two fields.  The encoding below is that
    pair, so a [gset Neighbor] identifies exactly what a Python [set] of
    [Neighbor] objects identifies. *)
Definition Neighbor_key (n : Neighbor) : string * option IPv4Address :=
  (nb_hostname n, nb_ip n).

Global Instance Neighbor_countable : Countable Neighbor :=
  inj_countable' Neighbor_key (fun p => mkNeighbor p.1 p.2)
    (fun n => match n with mkNeighbor _ _ => eq_refl end).

(** The right operand of [==]: what [isinstance] can tell apart. *)
Inductive pyobj :=
| ObjCDP (c : CiscoCDP)
| ObjLLDP (l : CiscoLLDP)
| ObjOther.

(** [CiscoCDP.__eq__] *)
Definition CiscoCDP_eq (self : CiscoCDP) (other : pyobj) : bool :=
  match other with
  | ObjCDP o => bool_decide (self = o)
  | ObjLLDP o =>
      bool_decide (cdp_device_id self = lldp_system_name o)
      && bool_decide (cdp_management_ip self = lldp_management_ip o)
  | ObjOther => false
  end.

(** [CiscoLLDP.__eq__] *)
Definition CiscoLLDP_eq (self : CiscoLLDP) (other : pyobj) : bool :=
  match other with
  | ObjLLDP o => bool_decide (self = o)
  | ObjCDP o =>
      bool_decide (lldp_system_name self = cdp_device_id o)
      && bool_decide (lldp_management_ip self = cdp_management_ip o)
  | ObjOther => false
  end.

(** ** Values held by the [matched] dicts, and model construction *)

Inductive value :=
| VNone
| VStr (s : string)
| VIp (a : IPv4Address).

Global Instance value_eq_dec : EqDecision value.
Proof. solve_decision. Defined.

(** Truth value, as [if x] and [x or y] test it. *)
Definition truthy (v : value) : bool :=
  match v with
  | VNone => false
  | VStr s => Py.nonempty s
  | VIp _ => true
  end.

(** [d.get(key)] *)
Definition dict_get (d : gmap string value) (key : string) : value :=
  default VNone (d !! key).

(** [x or y] *)
Definition py_or (x y : value) : value := if truthy x then x else y.

(** [IPv4Address(v)]: the argument is turned into a [str] first. *)
Definition IPv4Address_of (v : value) : result IPv4Address :=
  match v with
  | VStr s => Ipaddress.IPv4Address_new s
  | VIp a => Ok a
  | VNone => Raise AddressValueError
  end.

(** Field validation of a [pydantic.BaseModel] whose fields have no
    defaults, as the three models of models.py are declared. *)
Module Pydantic.

(** A field annotated [str], no default: required, must be a [str]. *)
Definition str_field (d : gmap string value) (key : string) : result string :=
  match d !! key with
  | Some (VStr s) => Ok s
  | _ => Raise ValidationError
  end.

(** A field annotated [IPv4Address | None], no default: required,
    [None] or an address (a [str] is coerced, failing validation when
    it is not an address). *)
Definition ip_field (d : gmap string value) (key : string)
  : result (option IPv4Address) :=
  match d !! key with
  | Some VNone => Ok None
  | Some (VIp a) => Ok (Some a)
  | Some (VStr s) =>
      match Ipaddress.IPv4Address_new s with
      | Ok a => Ok (Some a)
      | Raise _ => Raise ValidationError
      end
  | None => Raise ValidationError
  end.

End Pydantic.

(** [CiscoCDP] built from the unpacked [matched] dict. *)
Definition CiscoCDP_new (d : gmap string value) : result CiscoCDP :=
  device_id ← Pydantic.str_field d "device_id";
  entry_ip ← Pydantic.ip_field d "entry_ip";
  platform ← Pydantic.str_field d "platform";
  interface ← Pydantic.str_field d "interface";
  outgoing_port ← Pydantic.str_field d "outgoing_port";
  duplex ← Pydantic.str_field d "duplex";
  management_ip ← Pydantic.ip_field d "management_ip";
  mret (mkCiscoCDP device_id entry_ip platform interface outgoing_port
          duplex management_ip).

(** [CiscoLLDP] built from an unpacked record dict. *)
Definition CiscoLLDP_new (d : gmap string value) : result CiscoLLDP :=
  chassis_id ← Pydantic.str_field d "chassis_id";
  port_id ← Pydantic.str_field d "port_id";
  interface ← Pydantic.str_field d "interface";
  system_name ← Pydantic.str_field d "system_name";
  management_ip ← Pydantic.ip_field d "management_ip";
  mret (mkCiscoLLDP chassis_id port_id interface system_name management_ip).

(** ** connection.py *)

(** [CustomCiscoIosBase.set_base_prompt], given what the inherited
    method returned. *)
Definition set_base_prompt (super_set_base_prompt : string) : string :=
  Py.take 16 super_set_base_prompt.

(** ** switch.py: the record parsers *)

(** The sub-pattern "\d+\.\d+\.\d+\.\d+". *)
Definition ipv4_text : regex :=
  Seq (Plus Py.isdigit) (Seq (Lit ".")
  (Seq (Plus Py.isdigit) (Seq (Lit ".")
  (Seq (Plus Py.isdigit) (Seq (Lit ".") (Plus Py.isdigit)))))).

(** The [patterns] dict of [get_cdp], in insertion order.  The source
    patterns are
    - device_id: "Device ID: (?P<device_id>\S+)"
    - entry_ip: "IP address: (?P<entry_ip>\d+\.\d+\.\d+\.\d+)"
    - platform: "Platform: (?P<platform>.*?),"
    - interface: "Interface: (?P<interface>\S+),"
    - outgoing_port: "Port ID \(outgoing port\): (?P<outgoing_port>\S+)"
    - duplex: "Duplex: (?P<duplex>\S+)"
    - management_ip: "Management address\(es\): \r\n  IP address: (?P<management_ip>\d+\.\d+\.\d+\.\d+)" *)
Definition cdp_patterns : list (string * regex) :=
  [ ("device_id", Seq (Lit "Device ID: ") (Group "device_id" (Plus Py.notspace)));
    ("entry_ip", Seq (Lit "IP address: ") (Group "entry_ip" ipv4_text));
    ("platform",
      Seq (Lit "Platform: ") (Seq (Group "platform" (LazyStar Py.dot)) (Lit ",")));
    ("interface",
      Seq (Lit "Interface: ") (Seq (Group "interface" (Plus Py.notspace)) (Lit ",")));
    ("outgoing_port",
      Seq (Lit "Port ID (outgoing port): ")
          (Group "outgoing_port" (Plus Py.notspace)));
    ("duplex", Seq (Lit "Duplex: ") (Group "duplex" (Plus Py.notspace)));
    ("management_ip",
      Seq (Lit "Management address(es): ") (Seq (Lit Py.CRLF)
      (Seq (Lit "  IP address: ") (Group "management_ip" ipv4_text)))) ].

(** The [patterns] dict of [get_lldp].  The source patterns are
    - chassis_id: "Chassis id: (?P<chassis_id>\S+)"
    - port_id: "Port id: (?P<port_id>\S+)"
    - system_name: "System Name: (?P<system_name>\S+)"
    - management_ip: "IP: (?P<management_ip>\d+\.\d+\.\d+\.\d+)" *)
Definition lldp_patterns : list (string * regex) :=
  [ ("chassis_id", Seq (Lit "Chassis id: ") (Group "chassis_id" (Plus Py.notspace)));
    ("port_id", Seq (Lit "Port id: ") (Group "port_id" (Plus Py.notspace)));
    ("system_name",
      Seq (Lit "System Name: ") (Group "system_name" (Plus Py.notspace)));
    ("management_ip", Seq (Lit "IP: ") (Group "management_ip" ipv4_text)) ].

(** The pattern "(\S+)\s+(\S+)" searched in each line of the brief
    listing; its two groups are named by their index. *)
Definition brief_pattern : regex :=
  Seq (Group "1" (Plus Py.notspace))
      (Seq (Plus Py.isspace) (Group "2" (Plus Py.notspace))).

(** One pass of [for key, pattern in patterns.items()]. *)
Definition match_step (block : string) (matched : gmap string value)
           (kp : string * regex) : gmap string value :=
  match search kp.2 block with
  | Some m => <[kp.1 := from_option VStr VNone (group m kp.1)]> matched
  | None => matched
  end.

(** The [matched] dict of one block. *)
Definition match_fields (patterns : list (string * regex)) (block : string)
  : gmap string value :=
  foldl (match_step block) ∅ patterns.

(** [value if cond else None] around an [IPv4Address(...)] call. *)
Definition ip_if (cond v : value) : result value :=
  if truthy cond then VIp <$> IPv4Address_of v else Ok VNone.

(** The body of the [for block in blocks] loop of [get_cdp]: [None] is
    [continue], [Some e] the entry appended to [result]. *)
Definition cdp_block (block : string) : result (option CiscoCDP) :=
  let matched := match_fields cdp_patterns block in
  if (size matched <=? 2)%nat then Ok None
  else
    let entry_ip := dict_get matched "entry_ip" in
    let management_ip := py_or (dict_get matched "management_ip") entry_ip in
    e ← ip_if entry_ip entry_ip;
    m ← ip_if entry_ip management_ip;
    let matched := <["management_ip" := m]> (<["entry_ip" := e]> matched) in
    Some <$> CiscoCDP_new matched.

Fixpoint cdp_loop (blocks : list string) (acc : list CiscoCDP)
  : result (list CiscoCDP) :=
  match blocks with
  | [] => Ok acc
  | block :: rest =>
      r ← cdp_block block;
      match r with
      | None => cdp_loop rest acc
      | Some e => cdp_loop rest (acc ++ [e])
      end
  end.

Definition cdp_blocks (rows : list string) : list string :=
  Py.split ("-------------------------" +:+ Py.CRLF)
           (Py.strip (Py.join Py.CRLF rows)).

(** The body of the [for block in blocks] loop of [get_lldp]. *)
Definition lldp_block (block : string) : result (option (gmap string value)) :=
  let matched := match_fields lldp_patterns block in
  if (size matched <? 4)%nat then Ok None
  else
    let management_ip := dict_get matched "management_ip" in
    m ← ip_if management_ip management_ip;
    Ok (Some (<["management_ip" := m]> matched)).

Fixpoint lldp_loop (blocks : list string) (acc : list (gmap string value))
  : result (list (gmap string value)) :=
  match blocks with
  | [] => Ok acc
  | block :: rest =>
      r ← lldp_block block;
      match r with
      | None => lldp_loop rest acc
      | Some d => lldp_loop rest (acc ++ [d])
      end
  end.

Definition lldp_blocks (rows : list string) : list string :=
  Py.split ("---------------------------------------------" +:+ Py.CRLF)
           (Py.strip (Py.join Py.CRLF rows)).

(** One pass of [for line in rows] building [local_intf_mapping]. *)
Definition mapping_step (m : gmap string string) (line : string)
  : gmap string string :=
  match search brief_pattern line with
  | Some g =>
      match groups g with
      | [device_id; local_intf] => <[device_id := local_intf]> m
      | _ => m
      end
  | None => m
  end.

Definition local_intf_mapping (rows : list string) : gmap string string :=
  foldl mapping_step ∅ rows.

(** [local_intf_mapping.get(device_id)] where [device_id] came out of
    [item.get("system_name")]. *)
Definition mapping_get (m : gmap string string) (device_id : value) : value :=
  match device_id with
  | VStr k => from_option VStr VNone (m !! k)
  | _ => VNone
  end.

(** One pass of [for item in detail_result]. *)
Definition enrich (mapping : gmap string string) (item : gmap string value)
  : gmap string value :=
  let device_id := dict_get item "system_name" in
  let local_intf := mapping_get mapping device_id in
  if truthy local_intf then <["interface" := local_intf]> item else item.

(** The list comprehension building a [CiscoLLDP] from each record. *)
Fixpoint build_lldp (items : list (gmap string value)) : result (list CiscoLLDP) :=
  match items with
  | [] => Ok []
  | each :: rest =>
      e ← CiscoLLDP_new each;
      es ← build_lldp rest;
      mret (e :: es)
  end.

(** ** switch.py: the facade *)

(** Keyword arguments of [ConnectHandler]; [host] is passed as the
    address whose text form the source sends. *)
Record connect_args := mkConnectArgs {
  device_type : string;
  host : IPv4Address;
  username : string;
  password : string;
  port : N;
  secret : string
}.

(** The remote session, netmiko's [BaseConnection], as far as the facade
    uses it.  Each method returns its reply and the session afterwards;
    [ConnectHandler] gives [None] when the underlying constructor raises.
    Exceptions that the transport itself may raise inside the other
    methods are outside the model. *)
Class RemoteSession (S : Type) := {
  ConnectHandler : connect_args → option S;
  find_prompt : S → option string * S;
  enable : bool → S → string * S;
  send_config_set : list string → S → string * S;
  send_multiline : list string → S → string * S;
  conn_disconnect : S → S
}.

Record CiscoSwitch (S : Type) := mkCiscoSwitch {
  sw_ip : IPv4Address;
  sw_cdp : list CiscoCDP;
  sw_lldp : list CiscoLLDP;
  sw_conn : option S;
  sw_hostname : option string
}.
Arguments mkCiscoSwitch {S}.
Arguments sw_ip {S}.
Arguments sw_cdp {S}.
Arguments sw_lldp {S}.
Arguments sw_conn {S}.
Arguments sw_hostname {S}.

(** Computations on the facade: a result or an exception, and the object
    as the call left it. *)
Definition M (S A : Type) : Type := CiscoSwitch S → result A * CiscoSwitch S.

Global Instance M_ret {S} : MRet (M S) := fun A a sw => (Ok a, sw).
Global Instance M_bind {S} : MBind (M S) := fun A B f m sw =>
  match m sw with
  | (Ok a, sw') => f a sw'
  | (Raise e, sw') => (Raise e, sw')
  end.

Section Facade.
Context {S : Type} `{!RemoteSession S}.

Definition raise {A} (e : exn) : M S A := fun sw => (Raise e, sw).

Definition lift {A} (r : result A) : M S A := fun sw => (r, sw).

Definition gets {A} (f : CiscoSwitch S → A) : M S A := fun sw => (Ok (f sw), sw).

(** Attribute assignment on the facade object. *)
Definition upd_conn (c : option S) (sw : CiscoSwitch S) : CiscoSwitch S :=
  mkCiscoSwitch (sw_ip sw) (sw_cdp sw) (sw_lldp sw) c (sw_hostname sw).

Definition upd_cdp (l : list CiscoCDP) (sw : CiscoSwitch S) : CiscoSwitch S :=
  mkCiscoSwitch (sw_ip sw) l (sw_lldp sw) (sw_conn sw) (sw_hostname sw).

Definition upd_lldp (l : list CiscoLLDP) (sw : CiscoSwitch S) : CiscoSwitch S :=
  mkCiscoSwitch (sw_ip sw) (sw_cdp sw) l (sw_conn sw) (sw_hostname sw).

Definition upd_hostname (h : option string) (sw : CiscoSwitch S) : CiscoSwitch S :=
  mkCiscoSwitch (sw_ip sw) (sw_cdp sw) (sw_lldp sw) (sw_conn sw) h.

Definition set_conn (c : option S) : M S unit := fun sw => (Ok (), upd_conn c sw).
Definition set_cdp (l : list CiscoCDP) : M S unit := fun sw => (Ok (), upd_cdp l sw).
Definition set_lldp (l : list CiscoLLDP) : M S unit := fun sw => (Ok (), upd_lldp l sw).
Definition set_hostname (h : option string) : M S unit :=
  fun sw => (Ok (), upd_hostname h sw).

(** [self.conn.method(...)]: an attribute looked up on [None] raises. *)
Definition call_conn {A} (method : S → A * S) : M S A :=
  c ← gets sw_conn;
  match c with
  | None => raise AttributeError
  | Some s => let '(a, s') := method s in set_conn (Some s');; mret a
  end.

(** [CiscoSwitch(ip)] *)
Definition CiscoSwitch_init (ip : IPv4Address) : CiscoSwitch S :=
  mkCiscoSwitch ip [] [] None None.

Definition _check_connection : M S unit :=
  p ← call_conn find_prompt;
  match p with
  | None => raise NotConnectedError
  | Some _ => mret ()
  end.

(** [if self._hostname]: set and not the empty string. *)
Definition cached_hostname (sw : CiscoSwitch S) : option string :=
  match sw_hostname sw with
  | Some h => if Py.nonempty h then Some h else None
  | None => None
  end.

Definition hostname : M S string :=
  h ← gets cached_hostname;
  match h with
  | Some cached => mret cached
  | None =>
      _check_connection;;
      p ← call_conn find_prompt;
      match p with
      | None => raise TypeError
      | Some prompt =>
          set_hostname (Some (Py.drop_last prompt));;
          mret (Py.drop_last prompt)
      end
  end.

Definition cdp_results (cdp : list CiscoCDP) : list Neighbor :=
  (fun data => mkNeighbor (cdp_device_id data) (cdp_management_ip data)) <$> cdp.

Definition lldp_results (lldp : list CiscoLLDP) : list Neighbor :=
  (fun data => mkNeighbor (lldp_system_name data) (lldp_management_ip data)) <$> lldp.

(** [list(set(cdp_results + lldp_results))]: the order of the list is
    the iteration order of the set, which Python leaves unspecified;
    [elements] picks one. *)
Definition neighbors : M S (list Neighbor) :=
  _check_connection;;
  cdp ← gets sw_cdp;
  lldp ← gets sw_lldp;
  mret (elements (list_to_set (cdp_results cdp ++ lldp_results lldp) : gset Neighbor)).

Definition connect (id_ pw secret : string) : M S unit :=
  ip ← gets sw_ip;
  match ConnectHandler
          (mkConnectArgs "custom_cisco_ios" ip id_ pw 22
             (if Py.nonempty secret then secret else pw)) with
  | Some s => set_conn (Some s)
  | None => raise ConnectionFailedError
  end.

Definition disconnect : M S unit :=
  _check_connection;;
  call_conn (fun s => ((), conn_disconnect s)).

Definition go_enable_mode : M S string :=
  _check_connection;;
  call_conn (enable false).

(** The shared shape of the four (de)activation methods and of
    [show_running_config]. *)
Definition config_command (send : list string → S → string * S)
           (line : string) : M S (list string) :=
  _check_connection;;
  call_conn (enable false);;
  out ← call_conn (send [line]);
  mret (Py.split Py.LF out).

Definition activate_cdp : M S (list string) := config_command send_config_set "cdp run".
Definition activate_lldp : M S (list string) := config_command send_config_set "lldp run".
Definition deactivate_cdp : M S (list string) := config_command send_config_set "no cdp run".
Definition deactivate_lldp : M S (list string) := config_command send_config_set "no lldp run".
Definition show_running_config : M S (list string) :=
  config_command send_multiline "show running-config".

(** [if not result: print(f"... {self.hostname} ...")]: the message
    itself is not modelled, reading [self.hostname] is. *)
Definition report_if_empty {A} (l : list A) : M S unit :=
  match l with
  | [] => hostname;; mret ()
  | _ => mret ()
  end.

Definition get_cdp : M S (list CiscoCDP) :=
  _check_connection;;
  out ← call_conn (send_multiline ["show cdp neighbors detail"]);
  let rows := Py.split Py.LF out in
  if existsb (Py.contains "CDP is not enabled") rows
  then raise CDPNotEnabledError
  else
    result ← lift (cdp_loop (cdp_blocks rows) []);
    report_if_empty result;;
    set_cdp result;;
    mret result.

Definition get_lldp : M S (list CiscoLLDP) :=
  c ← gets sw_conn;
  match c with
  | None => raise AssertionError
  | Some _ =>
      out ← call_conn (send_multiline ["show lldp neighbors detail"]);
      detail_result ← lift (lldp_loop (lldp_blocks (Py.split Py.LF out)) []);
      report_if_empty detail_result;;
      brief ← call_conn (send_multiline ["show lldp neighbors"]);
      let mapping := local_intf_mapping (Py.split Py.LF brief) in
      result ← lift (build_lldp (enrich mapping <$> detail_result));
      set_lldp result;;
      mret result
  end.

End Facade.

(** A session that answers from a fixed script and logs every call;
    used to run the facade on concrete text. *)
Inductive call :=
| CallFindPrompt
| CallEnable
| CallConfig (lines : list string)
| CallMultiline (lines : list string)
| CallDisconnect.

Record scripted := mkScripted {
  s_prompt : option string;
  s_reply : list string → string;
  s_log : list call
}.

Definition s_logged (c : call) (s : scripted) : scripted :=
  mkScripted (s_prompt s) (s_reply s) (s_log s ++ [c]).

Global Instance scripted_session : RemoteSession scripted := {|
  ConnectHandler := fun args =>
    if String.eqb (device_type args) "custom_cisco_ios"
    then Some (mkScripted (Some "Switch#") (fun _ => EmptyString) [])
    else None;
  find_prompt := fun s => (s_prompt s, s_logged CallFindPrompt s);
  enable := fun _ s => (EmptyString, s_logged CallEnable s);
  send_config_set := fun l s => (s_reply s l, s_logged (CallConfig l) s);
  send_multiline := fun l s => (s_reply s l, s_logged (CallMultiline l) s);
  conn_disconnect := fun s => s_logged CallDisconnect s
|}.

(** ** Normal forms of the two loop bodies

    What [cdp_block] and [lldp_block] come to once the dict plumbing is
    resolved; [cdp_block_eq] and [lldp_block_eq] below prove them equal
    to the loop bodies on every block. *)

(** The two address fields of a CDP entry, from the [matched] dict. *)
Definition cdp_addresses (matched : gmap string value)
  : result (option IPv4Address * option IPv4Address) :=
  match matched !! "entry_ip" with
  | Some (VStr entry) =>
      e ← Ipaddress.IPv4Address_new entry;
      m ← match matched !! "management_ip" with
          | Some (VStr management) => Ipaddress.IPv4Address_new management
          | _ => Ok e
          end;
      mret (Some e, Some m)
  | _ => Ok (None, None)
  end.

(** The five text fields of a CDP entry, as the model validates them. *)
Definition cdp_entry_with (matched : gmap string value)
           (addresses : option IPv4Address * option IPv4Address)
  : result CiscoCDP :=
  device_id ← Pydantic.str_field matched "device_id";
  platform ← Pydantic.str_field matched "platform";
  interface ← Pydantic.str_field matched "interface";
  outgoing_port ← Pydantic.str_field matched "outgoing_port";
  duplex ← Pydantic.str_field matched "duplex";
  mret (mkCiscoCDP device_id addresses.1 platform interface outgoing_port
          duplex addresses.2).

Definition cdp_block_nf (block : string) : result (option CiscoCDP) :=
  let matched := match_fields cdp_patterns block in
  if (size matched <=? 2)%nat then Ok None
  else addresses ← cdp_addresses matched;
       Some <$> cdp_entry_with matched addresses.

Definition lldp_block_nf (block : string) : result (option (gmap string value)) :=
  let matched := match_fields lldp_patterns block in
  if (size matched <? 4)%nat then Ok None
  else
    match matched !! "management_ip" with
    | Some (VStr management) =>
        a ← Ipaddress.IPv4Address_new management;
        mret (Some (<["management_ip" := VIp a]> matched))
    | _ => Ok (Some (<["management_ip" := VNone]> matched))
    end.

(** ** Sample device output

    Blocks as [get_cdp] and [get_lldp] see them, that is after the rows
    have been joined with CR LF. *)

Definition sample_cdp_texts : list string :=
  [ "Device ID: R1";
    "Platform: cisco WS-C3750,  Capabilities: Switch IGMP";
    "Interface: GigabitEthernet0/1,  Port ID (outgoing port): GigabitEthernet0/2";
    "Duplex: full" ].

(** All seven fields. *)
Definition sample_cdp_block : string :=
  Py.join Py.CRLF
    (sample_cdp_texts ++
     [ "Entry address(es): "; "  IP address: 10.0.0.1";
       "Management address(es): "; "  IP address: 10.0.0.9" ]).

(** The five text fields and an entry address, no management address. *)
Definition sample_cdp_block_entry_only : string :=
  Py.join Py.CRLF
    (sample_cdp_texts ++ [ "Entry address(es): "; "  IP address: 10.0.0.1" ]).

(** The five text fields and a management address, no entry address line. *)
Definition sample_cdp_block_management_only : string :=
  Py.join Py.CRLF
    (sample_cdp_texts ++ [ "Management address(es): "; "  IP address: 10.0.0.9" ]).

(** The five text fields, no address anywhere. *)
Definition sample_cdp_block_no_ip : string :=
  Py.join Py.CRLF sample_cdp_texts.

(** Three fields: device id, platform, interface. *)
Definition sample_cdp_block_partial : string :=
  Py.join Py.CRLF
    [ "Device ID: R1"; "Platform: cisco WS-C3750,  Capabilities: Switch";
      "Interface: GigabitEthernet0/1," ].

(** Two fields. *)
Definition sample_cdp_block_noise : string :=
  Py.join Py.CRLF [ "Device ID: R1"; "Duplex: full" ].

(** The five text fields and an entry address with an octet above 255. *)
Definition sample_cdp_block_bad_ip : string :=
  Py.join Py.CRLF
    (sample_cdp_texts ++ [ "Entry address(es): "; "  IP address: 999.1.1.1" ]).

Definition sample_lldp_lines (name ip : string) : list string :=
  [ "Local Intf: Gi1/0/1";
    "Chassis id: 0011.2233.4455";
    "Port id: Gi0/2";
    "Port Description: GigabitEthernet0/2";
    "System Name: " +:+ name;
    "Management Addresses:";
    "    IP: " +:+ ip ].

Definition sample_lldp_block : string :=
  Py.join Py.CRLF (sample_lldp_lines "R1" "10.0.0.1").

(** A management address with an octet above 255. *)
Definition sample_lldp_block_bad_ip : string :=
  Py.join Py.CRLF (sample_lldp_lines "R1" "256.0.0.1").

(** No management address: three fields. *)
Definition sample_lldp_block_no_ip : string :=
  Py.join Py.CRLF
    [ "Chassis id: 0011.2233.4455"; "Port id: Gi0/2"; "System Name: R1" ].

(** What the device prints for [show cdp neighbors detail]. *)
Definition sample_cdp_output : string :=
  Py.join Py.LF
    ([ "-------------------------" ] ++ sample_cdp_texts ++
     [ "Entry address(es): "; "  IP address: 10.0.0.1";
       "Management address(es): "; "  IP address: 10.0.0.9"; "" ]).

Definition sample_cdp_disabled_output : string :=
  Py.join Py.LF [ "% CDP is not enabled"; "" ].

(** What the device prints for [show lldp neighbors detail], one
    neighbour named [name]. *)
Definition sample_lldp_output (name : string) : string :=
  Py.join Py.LF
    ([ "---------------------------------------------" ] ++
     sample_lldp_lines name "10.0.0.1" ++ [ ""; "Total entries displayed: 1"; "" ]).

(** What the device prints for [show lldp neighbors]. *)
Definition sample_lldp_brief : string :=
  Py.join Py.LF
    [ "Device ID           Local Intf     Hold-time  Capability      Port ID";
      "R1    Gi0/1"; "" ].

(** A scripted session with the given prompt and replies. *)
Definition sample_session (prompt : option string)
           (cdp_detail lldp_detail lldp_brief : string) : scripted :=
  mkScripted prompt
    (λ lines,
       if decide (lines = ["show cdp neighbors detail"]) then cdp_detail
       else if decide (lines = ["show lldp neighbors detail"]) then lldp_detail
       else if decide (lines = ["show lldp neighbors"]) then lldp_brief
       else "")
    [].

(** The facade after a successful [connect]. *)
Definition connected (s : scripted) : CiscoSwitch scripted :=
  mkCiscoSwitch (mkIPv4 3232235777) [] [] (Some s) None.

(** A record as the detail loop of [get_lldp] appends it: the three
    text fields, a converted management address, and no interface. *)
Definition lldp_record (d : gmap string value) : Prop :=
  ∃ chassis_id port_id system_name a,
    d !! "chassis_id" = Some (VStr chassis_id)
    ∧ d !! "port_id" = Some (VStr port_id)
    ∧ d !! "system_name" = Some (VStr system_name)
    ∧ d !! "management_ip" = Some (VIp a)
    ∧ d !! "interface" = None.

(** What a caller can see of a run on a scripted session: the outcome,
    the three stored attributes and the calls the session received. *)
Definition observe {A} (run : result A * CiscoSwitch scripted)
  : result A * list CiscoCDP * list CiscoLLDP * option string
    * option (list call) :=
  (run.1, sw_cdp run.2, sw_lldp run.2, sw_hostname run.2,
   s_log <$> sw_conn run.2).

Definition cdp_session : scripted :=
  sample_session (Some "Switch#") sample_cdp_output "" "".

Definition cdp_disabled_session : scripted :=
  sample_session (Some "Switch#") sample_cdp_disabled_output "" "".

(** A bad block followed by a good one. *)
Definition cdp_bad_ip_session : scripted :=
  sample_session (Some "Switch#")
    (Py.join Py.LF
       ([ "-------------------------" ] ++ sample_cdp_texts ++
        [ "Entry address(es): "; "  IP address: 999.1.1.1" ] ++
        [ sample_cdp_output ]))
    "" "".

Definition lldp_session (name : string) : scripted :=
  sample_session (Some "Switch#") "" (sample_lldp_output name) sample_lldp_brief.

(** A session whose [find_prompt] gives [None] but which still answers. *)
Definition lldp_dead_session : scripted :=
  sample_session None "" (sample_lldp_output "R1") sample_lldp_brief.

(** A prompt of twenty characters. *)
Definition long_prompt : string := "ABCDEFGHIJKLMNOPQRS#".

Definition long_prompt_session : scripted :=
  sample_session (Some long_prompt) "" "" "".

Definition sample_cdp_entry : CiscoCDP :=
  mkCiscoCDP "R1" (Some (mkIPv4 167772161)) "cisco WS-C3750"
    "GigabitEthernet0/1" "GigabitEthernet0/2" "full" (Some (mkIPv4 167772169)).

Definition sample_lldp_entry : CiscoLLDP :=
  mkCiscoLLDP "0011.2233.4455" "Gi0/2" "Gi0/1" "R1" (Some (mkIPv4 167772161)).

(** The reconciliation examples: [R1] at 10.0.0.1 seen by both
    protocols, [R2] at 10.0.0.2 by LLDP only. *)
Definition reconcile_switch : CiscoSwitch scripted :=
  mkCiscoSwitch (mkIPv4 3232235777)
    [ mkCiscoCDP "R1" None "p" "i" "o" "d" (Some (mkIPv4 167772161)) ]
    [ mkCiscoLLDP "c" "p" "i" "R1" (Some (mkIPv4 167772161));
      mkCiscoLLDP "c" "p" "i" "R2" (Some (mkIPv4 167772162)) ]
    (Some cdp_session) None.

(** The record the detail loop keeps for the sample neighbour. *)
Definition sample_lldp_record (name : string) : gmap string value :=
  list_to_map
    [ ("chassis_id", VStr "0011.2233.4455"); ("port_id", VStr "Gi0/2");
      ("system_name", VStr name); ("management_ip", VIp (mkIPv4 167772161)) ].

(** No line feed in the text. *)
Definition one_line (needle : string) : bool :=
  Py.all_chars (λ a, negb (Ascii.eqb a "010")) needle.

(** The number of patterns of a [patterns] dict that match a block. *)
Definition matched_count (patterns : list (string * regex)) (block : string) : nat :=
  length (filter (λ kp, is_Some (search kp.2 block)) patterns).

(** What the pattern stored under [key] puts into the dict. *)
Definition field_of (key : string) (r : regex) (block : string) : option value :=
  (λ m, from_option VStr VNone (group m key)) <$> search r block.

(** The texts the address sub-pattern captures: four non-empty groups
    of decimal digits separated by dots. *)
Definition dotted_digits (t : string) : Prop :=
  ∃ o1 o2 o3 o4,
    t = o1 +:+ "." +:+ o2 +:+ "." +:+ o3 +:+ "." +:+ o4
    ∧ Forall (λ o, o ≠ "" ∧ Py.all_chars Py.isdigit o = true) [o1; o2; o3; o4].

(** What the device prints for [show lldp neighbors detail] with the two
    neighbours [R1] and [R2]. *)
Definition sample_lldp_output_two : string :=
  Py.join Py.LF
    ([ "---------------------------------------------" ] ++
     sample_lldp_lines "R1" "10.0.0.1" ++
     [ ""; "---------------------------------------------" ] ++
     sample_lldp_lines "R2" "10.0.0.2" ++
     [ ""; "Total entries displayed: 2"; "" ]).

(** A device that lists [R1] and [R2] in detail and only [R1] in the
    brief listing. *)
Definition lldp_two_session : scripted :=
  sample_session (Some "Switch#") "" sample_lldp_output_two sample_lldp_brief.

(** The records the detail loop keeps for the two neighbours. *)
Definition sample_lldp_records_two : list (gmap string value) :=
  [ sample_lldp_record "R1";
    <["management_ip" := VIp (mkIPv4 167772162)]> (sample_lldp_record "R2") ].

(** The entry of the block with an entry address and no management
    address. *)
Definition sample_cdp_entry_only : CiscoCDP :=
  mkCiscoCDP "R1" (Some (mkIPv4 167772161)) "cisco WS-C3750"
    "GigabitEthernet0/1" "GigabitEthernet0/2" "full" (Some (mkIPv4 167772161)).

(** ** connection.py: the class mapper and [ConnectHandler]

    netmiko's [CLASS_MAPPER_BASE] is a dict of the library; its items at
    import time, in insertion order, are a parameter here, and so is the
    type of the connection classes it holds. *)

Module Connection.
Section Mapper.
Context {C : Type}.
Variable CustomCiscoIosBase : C.
Variable netmiko_base : list (string * C).

(** [d[key] = value] on a dict given by its items in insertion order: a
    present key keeps its place, a new key goes last. *)
Fixpoint dict_set (key : string) (value : C) (d : list (string * C))
  : list (string * C) :=
  match d with
  | [] => [(key, value)]
  | (k, v) :: d' =>
      if String.eqb k key then (key, value) :: d'
      else (k, v) :: dict_set key value d'
  end.

(** [CLASS_MAPPER_BASE] once the module has registered its class. *)
Definition CLASS_MAPPER_BASE : list (string * C) :=
  dict_set "custom_cisco_ios" CustomCiscoIosBase netmiko_base.

(** One pass of [for k, v in CLASS_MAPPER_BASE.items()]. *)
Definition mapper_step (new_mapper : gmap string C) (kv : string * C)
  : gmap string C :=
  <[kv.1 +:+ "_ssh" := kv.2]> (<[kv.1 := kv.2]> new_mapper).

Definition CLASS_MAPPER : gmap string C :=
  foldl mapper_step ∅ CLASS_MAPPER_BASE.

(** [list.sort()] on strings. *)
Definition sorted (l : list string) : list string := merge_sort String.le l.

(** [list(CLASS_MAPPER.keys())] sorted; the keys are distinct, so the
    sorted list does not depend on the order they are listed in. *)
Definition platforms : list string := sorted (map_to_list CLASS_MAPPER).*1.

Definition platforms_base : list string := sorted CLASS_MAPPER_BASE.*1.

Definition platforms_str : string := Py.LF +:+ Py.join Py.LF platforms_base.

Definition telnet_platforms : list string :=
  filter (λ x, Py.contains "telnet" x = true) platforms.

Definition telnet_platforms_str : string :=
  Py.LF +:+ Py.join Py.LF telnet_platforms.

(** [ssh_dispatcher]: [None] is the [KeyError] of a missing key. *)
Definition ssh_dispatcher (device_type : string) : option C :=
  CLASS_MAPPER !! device_type.

(** What a call of [ConnectHandler] comes to: the class it instantiates
    with the arguments it was given, or the exception it raises. *)
Inductive outcome :=
| Instantiates (ConnectionClass : C)
| ValueError (message : string)
| KeyError.

Definition unsupported (msg_str : string) : outcome :=
  ValueError ("Unsupported 'device_type' currently supported platforms are: "
              +:+ msg_str).

(** [ConnectHandler]: the argument is [kwargs.get("device_type")] seen
    from outside, [None] for a missing key, [Some None] for [None]. *)
Definition ConnectHandler (device_type : option (option string)) : outcome :=
  match device_type with
  | None => KeyError
  | Some None => unsupported platforms_str
  | Some (Some device_type) =>
      if bool_decide (device_type ∈ platforms) then
        match ssh_dispatcher device_type with
        | Some ConnectionClass => Instantiates ConnectionClass
        | None => KeyError
        end
      else
        unsupported (if Py.contains "telnet" device_type
                     then telnet_platforms_str else platforms_str)
  end.

End Mapper.
End Connection.


(** ** switch.py: the facade as a caller drives it *)

(** A text without whitespace that is not empty: what [\S+] captures. *)
Definition token (s : string) : Prop :=
  s ≠ "" ∧ Py.all_chars Py.notspace s = true.

(** What the patterns of [get_cdp] let into an entry. *)
Definition cdp_entry_ok (e : CiscoCDP) : Prop :=
  token (cdp_device_id e)
  ∧ Py.all_chars Py.dot (cdp_platform e) = true
  ∧ Py.contains "," (cdp_platform e) = false
  ∧ token (cdp_interface e)
  ∧ token (cdp_outgoing_port e)
  ∧ token (cdp_duplex e)
  ∧ (cdp_entry_ip e = None ↔ cdp_management_ip e = None).

(** What the patterns of [get_lldp] and the brief listing let into an
    entry. *)
Definition lldp_entry_ok (e : CiscoLLDP) : Prop :=
  token (lldp_chassis_id e)
  ∧ token (lldp_port_id e)
  ∧ token (lldp_interface e)
  ∧ token (lldp_system_name e)
  ∧ is_Some (lldp_management_ip e).

Section FacadeOps.
Context {S : Type} `{!RemoteSession S}.

(** The public methods and properties of [CiscoSwitch]. *)
Inductive op :=
| OpConnect (id_ pw secret : string)
| OpDisconnect
| OpHostname
| OpNeighbors
| OpGoEnableMode
| OpActivateCdp
| OpActivateLldp
| OpDeactivateCdp
| OpDeactivateLldp
| OpShowRunningConfig
| OpGetCdp
| OpGetLldp.

#[global] Instance op_eq_dec : EqDecision op.
Proof. solve_decision. Defined.

(** The object after one call, whether the call returned or raised. *)
Definition run_op (o : op) (sw : CiscoSwitch S) : CiscoSwitch S :=
  match o with
  | OpConnect id_ pw secret => (connect id_ pw secret sw).2
  | OpDisconnect => (disconnect sw).2
  | OpHostname => (hostname sw).2
  | OpNeighbors => (neighbors sw).2
  | OpGoEnableMode => (go_enable_mode sw).2
  | OpActivateCdp => (activate_cdp sw).2
  | OpActivateLldp => (activate_lldp sw).2
  | OpDeactivateCdp => (deactivate_cdp sw).2
  | OpDeactivateLldp => (deactivate_lldp sw).2
  | OpShowRunningConfig => (show_running_config sw).2
  | OpGetCdp => (get_cdp sw).2
  | OpGetLldp => (get_lldp sw).2
  end.

(** The object after a sequence of calls by a caller that catches what
    they raise. *)
Definition run_ops (ops : list op) (sw : CiscoSwitch S) : CiscoSwitch S :=
  foldl (λ sw o, run_op o sw) sw ops.

(** What a step leaves alone: the address always, the stored lists and
    the cached host name as the flags say, and a host name once cached. *)
Definition keeps (cdp lldp name : bool) (sw sw' : CiscoSwitch S) : Prop :=
  sw_ip sw' = sw_ip sw
  ∧ (cdp = true → sw_cdp sw' = sw_cdp sw)
  ∧ (lldp = true → sw_lldp sw' = sw_lldp sw)
  ∧ (name = true → sw_hostname sw' = sw_hostname sw)
  ∧ (∀ h, cached_hostname sw = Some h → cached_hostname sw' = Some h).

(** A computation all of whose runs are related by [R]. *)
Definition frames {A} (R : CiscoSwitch S → CiscoSwitch S → Prop) (m : M S A)
  : Prop :=
  ∀ sw r sw', m sw = (r, sw') → R sw sw'.

End FacadeOps.

(** ** What a scripted session is asked *)

(** The calls the session of a facade has received so far. *)
Definition sent (sw : CiscoSwitch scripted) : list call :=
  from_option s_log [] (sw_conn sw).

(** The calls each method of [CiscoSwitch] contains: the prompt probe
    of [_check_connection] and of [hostname], and the method's own
    commands. *)
Definition may_send (o : op) (c : call) : bool :=
  match c, o with
  | CallFindPrompt, _ => true
  | CallEnable,
    (OpGoEnableMode | OpActivateCdp | OpActivateLldp | OpDeactivateCdp
     | OpDeactivateLldp | OpShowRunningConfig) => true
  | CallConfig lines, OpActivateCdp => bool_decide (lines = ["cdp run"])
  | CallConfig lines, OpActivateLldp => bool_decide (lines = ["lldp run"])
  | CallConfig lines, OpDeactivateCdp => bool_decide (lines = ["no cdp run"])
  | CallConfig lines, OpDeactivateLldp => bool_decide (lines = ["no lldp run"])
  | CallMultiline lines, OpShowRunningConfig =>
      bool_decide (lines = ["show running-config"])
  | CallMultiline lines, OpGetCdp =>
      bool_decide (lines = ["show cdp neighbors detail"])
  | CallMultiline lines, OpGetLldp =>
      bool_decide (lines = ["show lldp neighbors detail"]
                   ∨ lines = ["show lldp neighbors"])
  | CallDisconnect, OpDisconnect => true
  | _, _ => false
  end.

(** The session log grows by calls that satisfy [P]; a facade without
    a session stays without one. *)
Definition asks (P : call → bool) (sw sw' : CiscoSwitch scripted) : Prop :=
  (sw_conn sw = None → sw_conn sw' = None)
  ∧ ∃ more, sent sw' = sent sw ++ more ∧ forallb P more = true.

(** ** What a call raises *)

Definition raised {A} (r : result A) : option exn :=
  match r with
  | Ok _ => None
  | Raise e => Some e
  end.

Section FacadeRaises.
Context {S : Type} `{!RemoteSession S}.

(** The exception a call ends with, if any. *)
Definition op_raised (o : op) (sw : CiscoSwitch S) : option exn :=
  match o with
  | OpConnect id_ pw secret => raised (connect id_ pw secret sw).1
  | OpDisconnect => raised (disconnect sw).1
  | OpHostname => raised (hostname sw).1
  | OpNeighbors => raised (neighbors sw).1
  | OpGoEnableMode => raised (go_enable_mode sw).1
  | OpActivateCdp => raised (activate_cdp sw).1
  | OpActivateLldp => raised (activate_lldp sw).1
  | OpDeactivateCdp => raised (deactivate_cdp sw).1
  | OpDeactivateLldp => raised (deactivate_lldp sw).1
  | OpShowRunningConfig => raised (show_running_config sw).1
  | OpGetCdp => raised (get_cdp sw).1
  | OpGetLldp => raised (get_lldp sw).1
  end.

End FacadeRaises.

(** The exceptions each method of [CiscoSwitch] can end with, on a
    facade that holds a session object ([has_session]) or not. *)
Definition may_raise (has_session : bool) (o : op) (e : exn) : bool :=
  match e, o with
  | ConnectionFailedError, OpConnect _ _ _ => true
  | _, OpConnect _ _ _ => false
  | ConnectionFailedError, _ => false
  | LLDPNotEnabledError, _ => false
  | NotConnectedError, _ => true
  | AssertionError, OpGetLldp => negb has_session
  | AssertionError, _ => false
  | AttributeError, OpGetLldp => false
  | AttributeError, _ => negb has_session
  | TypeError, (OpHostname | OpGetCdp | OpGetLldp) => true
  | TypeError, _ => false
  | CDPNotEnabledError, OpGetCdp => true
  | CDPNotEnabledError, _ => false
  | (AddressValueError | ValidationError), (OpGetCdp | OpGetLldp) => true
  | (AddressValueError | ValidationError), _ => false
  end.

Section FacadeRaisesOnly.
Context {S : Type} `{!RemoteSession S}.

(** A computation that keeps a session object once there is one and
    raises only exceptions that satisfy [P], which may depend on whether
    there was a session object at the start. *)
Definition raises {A} (P : bool → exn → bool) (m : M S A) : Prop :=
  ∀ sw r sw', m sw = (r, sw') →
    (is_Some (sw_conn sw) → is_Some (sw_conn sw'))
    ∧ ∀ e, r = Raise e → P (bool_decide (is_Some (sw_conn sw))) e = true.

End FacadeRaisesOnly.

(** Whatever may be raised with a session object may be raised without. *)
Definition eases (P : bool → exn → bool) : Prop :=
  ∀ e, P true e = true → P false e = true.

(** ** Inputs of the further runs *)

(** Two of netmiko's entries, the classes named by numbers. *)
Definition sample_netmiko_base : list (string * nat) :=
  [ ("cisco_ios", 1%nat); ("cisco_ios_telnet", 2%nat) ].

(** A connected facade that has read its host name. *)
Definition named_switch : CiscoSwitch scripted :=
  mkCiscoSwitch (mkIPv4 3232235777) [] [] (Some cdp_session) (Some "Switch").

(** A session whose prompt is the terminator alone. *)
Definition short_prompt_session : scripted :=
  sample_session (Some "#") "" "" "".

(** A row of the brief listing with leading whitespace and further
    columns. *)
Definition sample_brief_row : string := "  R1    Gi0/1 120 R Gi0/2".

(** * Properties *)

Local Arguments String.append !_ _ / : simpl nomatch.

(** * Strings *)

Section StringFacts.
Implicit Types s t u w : string.

Lemma sapp_nil_r s : s +:+ "" = s.
Proof. induction s as [|c s IH]; simpl; [done | by rewrite IH]. Qed.

Lemma sapp_assoc s t u : (s +:+ t) +:+ u = s +:+ t +:+ u.
Proof. induction s as [|c s IH]; simpl; [done | by rewrite IH]. Qed.

Lemma slength_app s t :
  String.length (s +:+ t) = (String.length s + String.length t)%nat.
Proof. induction s as [|c s IH]; simpl; [done | by rewrite IH]. Qed.

Lemma prefix_app p rest : String.prefix p (p +:+ rest) = true.
Proof.
  induction p as [|c p IH]; simpl; [by destruct rest |].
  destruct (ascii_dec c c); [done | congruence].
Qed.

Lemma prefix_split p s :
  String.prefix p s = true → s = p +:+ Py.drop (String.length p) s.
Proof.
  revert s. induction p as [|c p IH]; intros s H; [done |].
  destruct s as [|d s]; [done |]. simpl in H.
  destruct (ascii_dec c d) as [->|]; [|done].
  simpl. f_equal. by apply IH.
Qed.

Lemma drop_app p rest : Py.drop (String.length p) (p +:+ rest) = rest.
Proof. induction p as [|c p IH]; simpl; [by destruct rest | done]. Qed.

Lemma take_app w rest : Py.take (String.length w) (w +:+ rest) = w.
Proof. induction w as [|c w IH]; simpl; [done | by rewrite IH]. Qed.

Lemma consumed_app w rest : consumed (w +:+ rest) rest = w.
Proof.
  unfold consumed. rewrite slength_app.
  replace (String.length w + String.length rest - String.length rest)%nat
    with (String.length w) by lia.
  apply take_app.
Qed.

Lemma nonempty_length s : Py.nonempty s = true ↔ (0 < String.length s)%nat.
Proof. destruct s; simpl; split; (done || lia). Qed.
End StringFacts.

(** * The matcher against the declarative semantics *)

Section Matcher.
Implicit Types (r : regex) (s w rest : string) (caps gs : captures).

Lemma plus_greedy_sound {R} cls s (k : string → option R) x :
  plus_greedy cls s k = Some x →
  ∃ c w rest, s = String c w +:+ rest ∧ cls c = true
              ∧ Py.all_chars cls w = true ∧ k rest = Some x.
Proof.
  revert x. induction s as [|c s IH]; intros x; simpl; [done |].
  destruct (cls c) eqn:Hc; [|done].
  destruct (plus_greedy cls s k) as [y|] eqn:Hrec.
  - intros [= <-]. destruct (IH y eq_refl) as (c' & w & rest & -> & Hc' & Hw & Hk).
    exists c, (String c' w), rest. simpl. by rewrite Hc', Hw.
  - intros Hk. by exists c, "", s.
Qed.

Lemma plus_greedy_complete {R} cls w rest (k : string → option R) c :
  cls c = true → Py.all_chars cls w = true → is_Some (k rest) →
  is_Some (plus_greedy cls (String c w +:+ rest) k).
Proof.
  revert c. induction w as [|d w IH]; intros c Hc Hw Hk; simpl; rewrite Hc.
  - by destruct (plus_greedy cls rest k).
  - simpl in Hw. apply andb_true_iff in Hw as [Hd Hw].
    specialize (IH d Hd Hw Hk). simpl in IH.
    destruct IH as [y Hy]. simpl. rewrite Hd in *. by rewrite Hy.
Qed.

Lemma star_lazy_sound {R} cls s (k : string → option R) x :
  star_lazy cls s k = Some x →
  ∃ w rest, s = w +:+ rest ∧ Py.all_chars cls w = true ∧ k rest = Some x.
Proof.
  revert x. induction s as [|c s IH]; intros x; simpl.
  - destruct (k "") eqn:Hk; [|done]. intros [= <-]. by exists "", "".
  - destruct (k (String c s)) eqn:Hk.
    + intros [= <-]. by exists "", (String c s).
    + destruct (cls c) eqn:Hc; [|done]. intros H.
      destruct (IH x H) as (w & rest & -> & Hw & Hk').
      exists (String c w), rest. simpl. by rewrite Hc, Hw.
Qed.

Lemma star_lazy_complete {R} cls w rest (k : string → option R) :
  Py.all_chars cls w = true → is_Some (k rest) →
  is_Some (star_lazy cls (w +:+ rest) k).
Proof.
  induction w as [|c w IH]; intros Hw Hk.
  - destruct Hk as [y Hy]. destruct rest; simpl; by rewrite Hy.
  - simpl in Hw. apply andb_true_iff in Hw as [Hc Hw].
    simpl. destruct (k (String c (w +:+ rest))); [done |].
    rewrite Hc. by apply IH.
Qed.

Theorem match_here_sound r : ∀ s caps k x,
  match_here r s caps k = Some x →
  ∃ w rest gs, s = w +:+ rest ∧ matches r w gs ∧ k rest (caps ++ gs) = Some x.
Proof.
  induction r as [p|cls|cls|r1 IH1 r2 IH2|name r IH]; intros s caps k x; simpl.
  - destruct (String.prefix p s) eqn:Hp; [|done]. intros Hk.
    exists p, (Py.drop (String.length p) s), [].
    rewrite (right_id_L [] (++)). split_and!; eauto using prefix_split, matches_lit.
  - intros H. apply plus_greedy_sound in H as (c & w & rest & -> & Hc & Hw & Hk).
    exists (String c w), rest, []. rewrite (right_id_L [] (++)).
    split_and!; eauto using matches_plus.
  - intros H. apply star_lazy_sound in H as (w & rest & -> & Hw & Hk).
    exists w, rest, []. rewrite (right_id_L [] (++)). split_and!; eauto using matches_lazy.
  - intros H. apply IH1 in H as (w1 & mid & g1 & -> & H1 & H).
    apply IH2 in H as (w2 & rest & g2 & -> & H2 & H).
    exists (w1 +:+ w2), rest, (g1 ++ g2).
    rewrite sapp_assoc, (assoc_L (++)). split_and!; eauto using matches_seq.
  - intros H. apply IH in H as (w & rest & gs & -> & Hm & H).
    rewrite consumed_app in H.
    exists w, rest, (gs ++ [(name, w)]).
    rewrite (assoc_L (++)). split_and!; eauto using matches_group.
Qed.

Theorem match_here_complete r w gs :
  matches r w gs → ∀ rest caps k,
  is_Some (k rest (caps ++ gs)) → is_Some (match_here r (w +:+ rest) caps k).
Proof.
  induction 1 as [p|cls c w Hc Hw|cls w Hw|r1 r2 w1 w2 g1 g2 _ IH1 _ IH2
                 |name r w g _ IH]; intros rest caps k Hk; simpl.
  - rewrite prefix_app, drop_app. by rewrite (right_id_L [] (++)) in Hk.
  - rewrite (right_id_L [] (++)) in Hk.
    by apply (plus_greedy_complete cls w rest (λ rest, k rest caps)).
  - rewrite (right_id_L [] (++)) in Hk.
    by apply (star_lazy_complete cls w rest (λ rest, k rest caps)).
  - rewrite sapp_assoc. apply IH1, IH2. by rewrite <-(assoc_L (++)).
  - apply IH. rewrite consumed_app. by rewrite <-(assoc_L (++)).
Qed.

Lemma match_at_sound r s m :
  match_at r s = Some m → ∃ w rest, s = w +:+ rest ∧ matches r w m.
Proof.
  intros H. apply match_here_sound in H as (w & rest & gs & -> & Hm & [= <-]).
  eauto.
Qed.

Lemma match_at_complete r w gs rest :
  matches r w gs → is_Some (match_at r (w +:+ rest)).
Proof. intros Hm. by eapply match_here_complete. Qed.

Theorem search_sound r s m :
  search r s = Some m →
  ∃ pre w rest, s = pre +:+ w +:+ rest ∧ matches r w m.
Proof.
  induction s as [|c s IH]; simpl.
  - destruct (match_at r "") eqn:H; [|done]. intros [= <-].
    apply match_at_sound in H as (w & rest & Heq & Hm). by exists "", w, rest.
  - destruct (match_at r (String c s)) eqn:H.
    + intros [= <-]. apply match_at_sound in H as (w & rest & Heq & Hm).
      by exists "", w, rest.
    + intros Hs. destruct (IH Hs) as (pre & w & rest & -> & Hm).
      by exists (String c pre), w, rest.
Qed.

Theorem search_complete r pre w gs rest :
  matches r w gs → is_Some (search r (pre +:+ w +:+ rest)).
Proof.
  intros Hm. induction pre as [|c pre IH].
  - change ("" +:+ w +:+ rest) with (w +:+ rest).
    destruct (match_at_complete r w gs rest Hm) as [m Hat].
    destruct (w +:+ rest); simpl; by rewrite Hat.
  - simpl. by destruct (match_at r (String c (pre +:+ w +:+ rest))).
Qed.
End Matcher.

(** * The [matched] dict *)

Section MatchFields.
Implicit Types (ps : list (string * regex)) (acc : gmap string value).

Lemma match_fold_lookup_notin block ps acc key :
  key ∉ ps.*1 → foldl (match_step block) acc ps !! key = acc !! key.
Proof.
  revert acc. induction ps as [|[k r] ps IH]; intros acc Hnotin; [done |].
  simpl in *. apply not_elem_of_cons in Hnotin as [Hne Hnotin].
  rewrite IH by done. unfold match_step; simpl.
  destruct (search r block); [|done]. by rewrite lookup_insert_ne.
Qed.

Lemma match_fold_lookup block ps acc key r :
  NoDup ps.*1 → (key, r) ∈ ps →
  foldl (match_step block) acc ps !! key
  = match field_of key r block with Some v => Some v | None => acc !! key end.
Proof.
  revert acc. induction ps as [|[k r'] ps IH]; intros acc Hnd Hin.
  { by apply elem_of_nil in Hin. }
  simpl in Hnd. apply NoDup_cons in Hnd as [Hk Hnd].
  apply elem_of_cons in Hin as [[= <- <-]|Hin]; simpl.
  - rewrite match_fold_lookup_notin by done.
    unfold match_step, field_of; simpl.
    destruct (search r block); simpl; [by rewrite lookup_insert_eq | done].
  - rewrite IH by done. destruct (field_of key r block); [done |].
    assert (k ≠ key).
    { intros ->. apply Hk. by apply (list_elem_of_fmap_2 fst _ (key, r)). }
    unfold match_step; simpl.
    destruct (search r' block); [by rewrite lookup_insert_ne | done].
Qed.

Lemma match_fields_lookup block ps key r :
  NoDup ps.*1 → (key, r) ∈ ps →
  match_fields ps block !! key = field_of key r block.
Proof.
  intros Hnd Hin. unfold match_fields.
  rewrite (match_fold_lookup block ps ∅ key r) by done.
  by destruct (field_of key r block).
Qed.

Lemma match_fields_lookup_notin block ps key :
  key ∉ ps.*1 → match_fields ps block !! key = None.
Proof. intros. unfold match_fields. by rewrite match_fold_lookup_notin. Qed.

Lemma match_fold_size block ps acc :
  NoDup ps.*1 → (∀ k, k ∈ ps.*1 → acc !! k = None) →
  size (foldl (match_step block) acc ps)
  = (size acc + length (filter (λ kp, is_Some (search kp.2 block)) ps))%nat.
Proof.
  revert acc. induction ps as [|[k r] ps IH]; intros acc Hnd Hfresh; simpl.
  { lia. }
  simpl in Hnd. apply NoDup_cons in Hnd as [Hk Hnd].
  rewrite filter_cons. unfold match_step at 2; simpl.
  destruct (search r block) as [m|] eqn:Hs.
  - rewrite decide_True by done. rewrite IH; [|done|].
    + rewrite map_size_insert_None; [simpl; lia |].
      apply Hfresh. simpl. apply elem_of_cons. by left.
    + intros k' Hk'. rewrite lookup_insert_ne.
      * apply Hfresh. simpl. apply elem_of_cons. by right.
      * by intros ->.
  - rewrite decide_False by (by apply is_Some_None).
    apply IH; [done |]. intros k' Hk'. apply Hfresh. simpl.
    apply elem_of_cons. by right.
Qed.

Lemma match_fields_size block ps :
  NoDup ps.*1 → size (match_fields ps block) = matched_count ps block.
Proof.
  intros Hnd. unfold match_fields, matched_count.
  rewrite match_fold_size; [by rewrite map_size_empty | done | done].
Qed.
End MatchFields.

(** * The source patterns *)

Section Patterns.

Ltac inv_matches :=
  repeat match goal with
  | H : matches (Seq _ _) _ _ |- _ => inversion H; subst; clear H
  | H : matches (Lit _) _ _ |- _ => inversion H; subst; clear H
  | H : matches (Group _ _) _ _ |- _ => inversion H; subst; clear H
  | H : matches (Plus _) _ _ |- _ => inversion H; subst; clear H
  | H : matches (LazyStar _) _ _ |- _ => inversion H; subst; clear H
  end.

Lemma ipv4_text_matches w gs :
  matches ipv4_text w gs → gs = [] ∧ w ≠ "".
Proof. unfold ipv4_text. intros H. by inv_matches. Qed.

Lemma cdp_keys_NoDup : NoDup cdp_patterns.*1.
Proof. by apply (bool_decide_unpack _). Qed.

Lemma lldp_keys_NoDup : NoDup lldp_patterns.*1.
Proof. by apply (bool_decide_unpack _). Qed.

(** A field that matched holds the captured text, and that text is not
    empty unless it is the platform (whose group may match nothing). *)
Lemma cdp_pattern_value key r block v :
  (key, r) ∈ cdp_patterns → field_of key r block = Some v →
  ∃ g, v = VStr g ∧ (key ≠ "platform" → g ≠ "").
Proof.
  unfold field_of. intros Hin Hf.
  destruct (search r block) as [m|] eqn:Hs; [|done].
  simpl in Hf. injection Hf as <-.
  apply search_sound in Hs as (pre & w & rest & _ & Hm).
  unfold cdp_patterns in Hin.
  repeat (apply elem_of_cons in Hin as [[= -> ->]|Hin]);
    [..|by apply elem_of_nil in Hin];
    inv_matches;
    try match goal with
        | H : matches ipv4_text _ _ |- _ =>
            apply ipv4_text_matches in H as [-> ?]
        end;
    simpl; eauto.
Qed.

Lemma lldp_pattern_value key r block v :
  (key, r) ∈ lldp_patterns → field_of key r block = Some v →
  ∃ g, v = VStr g ∧ g ≠ "".
Proof.
  unfold field_of. intros Hin Hf.
  destruct (search r block) as [m|] eqn:Hs; [|done].
  simpl in Hf. injection Hf as <-.
  apply search_sound in Hs as (pre & w & rest & _ & Hm).
  unfold lldp_patterns in Hin.
  repeat (apply elem_of_cons in Hin as [[= -> ->]|Hin]);
    [..|by apply elem_of_nil in Hin];
    inv_matches;
    try match goal with
        | H : matches ipv4_text _ _ |- _ =>
            apply ipv4_text_matches in H as [-> ?]
        end;
    simpl; eauto.
Qed.

Lemma cdp_matched_value block key v :
  match_fields cdp_patterns block !! key = Some v →
  ∃ g, v = VStr g ∧ (key ≠ "platform" → g ≠ "").
Proof.
  intros Hl. destruct (decide (key ∈ cdp_patterns.*1)) as [Hin|Hout].
  - apply list_elem_of_fmap in Hin as ([k r] & -> & Hin). simpl in *.
    rewrite (match_fields_lookup block _ k r) in Hl
      by auto using cdp_keys_NoDup.
    eauto using cdp_pattern_value.
  - by rewrite match_fields_lookup_notin in Hl.
Qed.

Lemma lldp_matched_value block key v :
  match_fields lldp_patterns block !! key = Some v →
  ∃ g, v = VStr g ∧ g ≠ "".
Proof.
  intros Hl. destruct (decide (key ∈ lldp_patterns.*1)) as [Hin|Hout].
  - apply list_elem_of_fmap in Hin as ([k r] & -> & Hin). simpl in *.
    rewrite (match_fields_lookup block _ k r) in Hl
      by auto using lldp_keys_NoDup.
    eauto using lldp_pattern_value.
  - by rewrite match_fields_lookup_notin in Hl.
Qed.

(** The management-address pattern ends in the text the entry-address
    pattern looks for, so a block matching the former matches the
    latter. *)
Lemma cdp_management_needs_entry block :
  is_Some (match_fields cdp_patterns block !! "management_ip") →
  is_Some (match_fields cdp_patterns block !! "entry_ip").
Proof.
  set (mgmt := Seq (Lit "Management address(es): ") (Seq (Lit Py.CRLF)
    (Seq (Lit "  IP address: ") (Group "management_ip" ipv4_text)))).
  set (entry := Seq (Lit "IP address: ") (Group "entry_ip" ipv4_text)).
  rewrite (match_fields_lookup block _ "management_ip" mgmt);
    [|apply cdp_keys_NoDup|unfold cdp_patterns; set_solver].
  rewrite (match_fields_lookup block _ "entry_ip" entry);
    [|apply cdp_keys_NoDup|unfold cdp_patterns; set_solver].
  unfold field_of. rewrite !fmap_is_Some. intros [m Hs].
  apply search_sound in Hs as (pre & w & rest & -> & Hm).
  subst mgmt. inv_matches.
  match goal with
  | H : matches ipv4_text ?t _ |- _ => rename H into Hip; rename t into ip_text
  end.
  assert (Hentry : matches entry ("IP address: " +:+ ip_text)
                     ([] ++ ([] ++ [("entry_ip", ip_text)]))).
  { subst entry. destruct (ipv4_text_matches _ _ Hip) as [-> _].
    apply matches_seq; [constructor |].
    by apply (matches_group "entry_ip" ipv4_text ip_text []). }
  pose proof (search_complete entry
    (pre +:+ "Management address(es): " +:+ Py.CRLF +:+ "  ")
    _ _ rest Hentry) as Hc.
  by rewrite !sapp_assoc in *.
Qed.

End Patterns.

(** * The loop body of [get_cdp] *)

Section CdpBlock.

Lemma IPv4Address_new_raise s e :
  Ipaddress.IPv4Address_new s = Raise e → e = AddressValueError.
Proof.
  unfold Ipaddress.IPv4Address_new, Ipaddress._ip_int_from_string,
    Ipaddress._parse_octet.
  repeat (case_match; simpl; try congruence).
Qed.

Lemma nonempty_ne s : s ≠ "" → Py.nonempty s = true.
Proof. by destruct s. Qed.

Lemma CiscoCDP_new_insert (d : gmap string value) (e m : option IPv4Address) :
  CiscoCDP_new (<["management_ip" := from_option VIp VNone m]>
                  (<["entry_ip" := from_option VIp VNone e]> d))
  = cdp_entry_with d (e, m).
Proof.
  unfold CiscoCDP_new, cdp_entry_with, Pydantic.str_field, Pydantic.ip_field.
  rewrite lookup_insert_eq.
  rewrite (lookup_insert_ne _ "management_ip" "entry_ip") by done.
  rewrite lookup_insert_eq.
  rewrite !(lookup_insert_ne _ "management_ip") by done.
  rewrite !(lookup_insert_ne _ "entry_ip") by done.
  destruct (d !! "device_id") as [[]|], (d !! "platform") as [[]|],
    (d !! "interface") as [[]|], (d !! "outgoing_port") as [[]|],
    (d !! "duplex") as [[]|], e, m; reflexivity.
Qed.

Theorem cdp_block_eq block : cdp_block block = cdp_block_nf block.
Proof.
  unfold cdp_block, cdp_block_nf, cdp_addresses.
  set (matched := match_fields cdp_patterns block).
  destruct (size matched <=? 2)%nat; [done |].
  unfold dict_get.
  destruct (matched !! "entry_ip") as [v|] eqn:He.
  - destruct (cdp_matched_value _ _ _ He) as (g & -> & Hg).
    pose proof (nonempty_ne g (Hg ltac:(done))) as Hne.
    unfold ip_if at 1 2. simpl. rewrite Hne. simpl.
    destruct (matched !! "management_ip") as [v|] eqn:Hm.
    + destruct (cdp_matched_value _ _ _ Hm) as (gm & -> & Hgm).
      pose proof (nonempty_ne gm (Hgm ltac:(done))) as Hnem.
      unfold py_or. simpl. rewrite Hnem. simpl.
      destruct (Ipaddress.IPv4Address_new g) as [a|ex]; [|done]. simpl.
      destruct (Ipaddress.IPv4Address_new gm) as [am|ex]; [|done]. simpl.
      by rewrite <-(CiscoCDP_new_insert matched (Some a) (Some am)).
    + unfold py_or. simpl.
      destruct (Ipaddress.IPv4Address_new g) as [a|ex]; [|done]. simpl.
      by rewrite <-(CiscoCDP_new_insert matched (Some a) (Some a)).
  - assert (matched !! "management_ip" = None) as Hm.
    { apply eq_None_not_Some. intros [x Hx]%cdp_management_needs_entry.
      unfold matched in He. congruence. }
    rewrite Hm. simpl.
    by rewrite <-(CiscoCDP_new_insert matched None None).
Qed.

End CdpBlock.

Section CdpClaims.

Lemma cdp_count_size block :
  size (match_fields cdp_patterns block) = matched_count cdp_patterns block.
Proof. apply match_fields_size, cdp_keys_NoDup. Qed.

Lemma cdp_loop_cons block rest acc :
  cdp_loop (block :: rest) acc
  = match cdp_block block with
    | Ok None => cdp_loop rest acc
    | Ok (Some e) => cdp_loop rest (acc ++ [e])
    | Raise ex => Raise ex
    end.
Proof. simpl. by destruct (cdp_block block) as [[e|]|ex]. Qed.

Lemma three_keys_size (d : gmap string value) k1 k2 k3 :
  k1 ≠ k2 → k1 ≠ k3 → k2 ≠ k3 →
  is_Some (d !! k1) → is_Some (d !! k2) → is_Some (d !! k3) →
  (2 < size d)%nat.
Proof.
  intros H12 H13 H23 [v1 H1] [v2 H2] [v3 H3].
  set (sub := <[k1 := v1]> (<[k2 := v2]> (<[k3 := v3]> (∅ : gmap string value)))).
  assert (size sub = 3%nat) as Hsub.
  { unfold sub. rewrite !map_size_insert_None, map_size_empty; [done |..].
    - apply lookup_empty.
    - by rewrite lookup_insert_ne.
    - by rewrite !lookup_insert_ne. }
  assert (sub ⊆ d) as Hincl.
  { apply map_subseteq_spec. intros i x. unfold sub.
    rewrite !lookup_insert_Some, lookup_empty.
    intros [[<- <-]|[_ [[<- <-]|[_ [[<- <-]|[_ ?]]]]]]; done. }
  apply map_subseteq_size in Hincl. lia.
Qed.

Lemma str_field_lookup (d : gmap string value) key s :
  d !! key = Some (VStr s) → Pydantic.str_field d key = Ok s.
Proof. unfold Pydantic.str_field. by intros ->. Qed.

(** C2 (as amended): a block on which two or fewer of the seven patterns
    match is skipped without an error, and a block on which three or more
    match is never skipped.  When the five text patterns (device id,
    platform, interface, outgoing port, duplex) are among those that
    match and every matched address text is a valid IPv4 address, the
    block yields exactly one entry: the text fields hold the captured
    text, an unmatched entry address is null, and the management address
    is the matched one, or else the entry address. *)
Theorem cdp_block_threshold (block : string) :
  let matched := match_fields cdp_patterns block in
  ((matched_count cdp_patterns block ≤ 2)%nat →
     cdp_block block = Ok None
     ∧ ∀ rest acc, cdp_loop (block :: rest) acc = cdp_loop rest acc)
  ∧ ((3 ≤ matched_count cdp_patterns block)%nat → cdp_block block ≠ Ok None)
  ∧ (∀ device_id platform interface outgoing_port duplex,
       matched !! "device_id" = Some (VStr device_id) →
       matched !! "platform" = Some (VStr platform) →
       matched !! "interface" = Some (VStr interface) →
       matched !! "outgoing_port" = Some (VStr outgoing_port) →
       matched !! "duplex" = Some (VStr duplex) →
       ∀ e m,
         (matched !! "entry_ip" = None ∧ e = None ∧ m = None)
         ∨ (∃ entry a, matched !! "entry_ip" = Some (VStr entry)
              ∧ Ipaddress.IPv4Address_new entry = Ok a ∧ e = Some a
              ∧ ((matched !! "management_ip" = None ∧ m = Some a)
                 ∨ (∃ management am,
                      matched !! "management_ip" = Some (VStr management)
                      ∧ Ipaddress.IPv4Address_new management = Ok am
                      ∧ m = Some am))) →
         cdp_block block
         = Ok (Some (mkCiscoCDP device_id e platform interface outgoing_port
                       duplex m))
         ∧ ∀ rest acc,
             cdp_loop (block :: rest) acc
             = cdp_loop rest
                 (acc ++ [mkCiscoCDP device_id e platform interface
                            outgoing_port duplex m])).
Proof.
  intros matched. split_and!.
  - intros Hle. assert (cdp_block block = Ok None) as Hb.
    { unfold cdp_block. fold matched. unfold matched at 1.
      rewrite cdp_count_size. by rewrite (proj2 (Nat.leb_le _ _) Hle). }
    split; [done |]. intros. by rewrite cdp_loop_cons, Hb.
  - intros Hge. rewrite cdp_block_eq. unfold cdp_block_nf.
    rewrite cdp_count_size.
    rewrite (proj2 (Nat.leb_gt _ _)) by lia.
    destruct (cdp_addresses _) as [addresses|]; simpl; [|done].
    by destruct (cdp_entry_with _ _).
  - intros device_id platform interface outgoing_port duplex
      Hd Hp Hi Ho Hx e m Haddr.
    assert (cdp_block block
            = Ok (Some (mkCiscoCDP device_id e platform interface
                          outgoing_port duplex m))) as Hb.
    { rewrite cdp_block_eq. unfold cdp_block_nf. fold matched.
      rewrite (proj2 (Nat.leb_gt _ _))
        by (eapply (three_keys_size matched "device_id" "platform" "interface");
            eauto).
      assert (cdp_addresses matched = Ok (e, m)) as ->.
      { unfold cdp_addresses.
        destruct Haddr as [(-> & -> & ->)|(entry & a & -> & Ha & -> & Hm)];
          [done |].
        rewrite Ha. simpl.
        destruct Hm as [[-> ->]|(management & am & -> & -> & ->)]; done. }
      simpl. unfold cdp_entry_with.
      rewrite (str_field_lookup _ _ _ Hd), (str_field_lookup _ _ _ Hp),
        (str_field_lookup _ _ _ Hi), (str_field_lookup _ _ _ Ho),
        (str_field_lookup _ _ _ Hx). done. }
    split; [done |]. intros. by rewrite cdp_loop_cons, Hb.
Qed.

Lemma cdp_entry_with_inv (d : gmap string value) addresses e :
  cdp_entry_with d addresses = Ok e →
  cdp_entry_ip e = addresses.1 ∧ cdp_management_ip e = addresses.2
  ∧ d !! "device_id" = Some (VStr (cdp_device_id e))
  ∧ d !! "platform" = Some (VStr (cdp_platform e))
  ∧ d !! "interface" = Some (VStr (cdp_interface e))
  ∧ d !! "outgoing_port" = Some (VStr (cdp_outgoing_port e))
  ∧ d !! "duplex" = Some (VStr (cdp_duplex e)).
Proof.
  unfold cdp_entry_with, Pydantic.str_field.
  destruct (d !! "device_id") as [[]|], (d !! "platform") as [[]|],
    (d !! "interface") as [[]|], (d !! "outgoing_port") as [[]|],
    (d !! "duplex") as [[]|]; simpl; try done.
  by intros [= <-].
Qed.

Lemma cdp_block_accept_inv block e :
  cdp_block block = Ok (Some e) →
  (3 ≤ matched_count cdp_patterns block)%nat
  ∧ ∃ addresses,
      cdp_addresses (match_fields cdp_patterns block) = Ok addresses
      ∧ cdp_entry_with (match_fields cdp_patterns block) addresses = Ok e.
Proof.
  rewrite cdp_block_eq. unfold cdp_block_nf. rewrite cdp_count_size.
  destruct (Nat.leb_spec (matched_count cdp_patterns block) 2); [done |].
  split; [lia |].
  destruct (cdp_addresses _) as [addresses|]; simpl in *; [|done].
  destruct (cdp_entry_with _ _) as [e'|] eqn:He; simpl in *; [|done].
  exists addresses. split; congruence.
Qed.

(** C4: in every entry [get_cdp] accepts, the management address is the
    explicitly matched one when the block has a management-address line;
    without such a line it is the entry address; and it is null exactly
    when no address pattern matched at all.  A management-address line
    alone is enough for a non-null management address, because its own
    text also satisfies the entry-address pattern. *)
Theorem cdp_management_ip_default (block : string) (e : CiscoCDP) :
  cdp_block block = Ok (Some e) →
  let matched := match_fields cdp_patterns block in
  (∀ management, matched !! "management_ip" = Some (VStr management) →
     ∃ am, Ipaddress.IPv4Address_new management = Ok am
           ∧ cdp_management_ip e = Some am)
  ∧ (matched !! "management_ip" = None →
       cdp_management_ip e = cdp_entry_ip e
       ∧ ∀ entry, matched !! "entry_ip" = Some (VStr entry) →
           ∃ a, Ipaddress.IPv4Address_new entry = Ok a
                ∧ cdp_management_ip e = Some a)
  ∧ (cdp_management_ip e = None ↔
       matched !! "entry_ip" = None ∧ matched !! "management_ip" = None)
  ∧ (is_Some (matched !! "management_ip") → is_Some (matched !! "entry_ip")).
Proof.
  intros Hb matched.
  apply cdp_block_accept_inv in Hb as (_ & addresses & Ha & He).
  apply cdp_entry_with_inv in He as (He & Hm & _). fold matched in Ha.
  rewrite He, Hm. clear He Hm.
  pose proof (cdp_management_needs_entry block) as Hneeds. fold matched in Hneeds.
  unfold cdp_addresses in Ha.
  destruct (matched !! "entry_ip") as [v|] eqn:Hentry.
  - destruct (cdp_matched_value _ _ _ Hentry) as (g & -> & _).
    destruct (Ipaddress.IPv4Address_new g) as [a|] eqn:Hg; simpl in Ha; [|done].
    destruct (matched !! "management_ip") as [v|] eqn:Hmgmt.
    + destruct (cdp_matched_value _ _ _ Hmgmt) as (gm & -> & _).
      destruct (Ipaddress.IPv4Address_new gm) as [am|] eqn:Hgm;
        simpl in Ha; [|done].
      injection Ha as <-. simpl. split_and!; try done.
      * intros ? [= <-]. eauto.
      * split; [done | by intros [? _]].
    + injection Ha as <-. simpl. split_and!; try done.
      * split; [done |]. intros ? [= <-]. eauto.
      * split; [done | by intros [? _]].
  - injection Ha as <-. simpl.
    assert (matched !! "management_ip" = None) as Hmgmt.
    { apply eq_None_not_Some. intros [x Hx]%Hneeds. done. }
    rewrite Hmgmt. split_and!; try done.
Qed.

End CdpClaims.

(** * The loop body of [get_lldp] *)

Section LldpBlock.

Lemma lldp_count_size block :
  size (match_fields lldp_patterns block) = matched_count lldp_patterns block.
Proof. apply match_fields_size, lldp_keys_NoDup. Qed.

(** There are four patterns, so four matches means every one matched. *)
Lemma lldp_all_matched block key :
  (4 ≤ matched_count lldp_patterns block)%nat → key ∈ lldp_patterns.*1 →
  ∃ g, match_fields lldp_patterns block !! key = Some (VStr g) ∧ g ≠ "".
Proof.
  intros Hcount Hkey.
  assert (∀ kp, kp ∈ lldp_patterns → is_Some (search kp.2 block)) as Hall.
  { revert Hcount. unfold matched_count, lldp_patterns.
    rewrite !filter_cons, filter_nil.
    repeat case_decide; simpl; try lia.
    intros _ kp Hkp.
    repeat (apply elem_of_cons in Hkp as [->|Hkp]; [done |]).
    by apply elem_of_nil in Hkp. }
  apply list_elem_of_fmap in Hkey as ([k r] & -> & Hin). simpl.
  rewrite (match_fields_lookup block _ k r) by auto using lldp_keys_NoDup.
  destruct (Hall _ Hin) as [m Hm]. simpl in Hm.
  destruct (field_of k r block) as [v|] eqn:Hf.
  - destruct (lldp_pattern_value _ _ _ _ Hin Hf) as (g & -> & Hg). eauto.
  - unfold field_of in Hf. by rewrite Hm in Hf.
Qed.

Theorem lldp_block_eq block : lldp_block block = lldp_block_nf block.
Proof.
  unfold lldp_block, lldp_block_nf.
  rewrite lldp_count_size.
  destruct (Nat.ltb_spec (matched_count lldp_patterns block) 4); [done |].
  destruct (lldp_all_matched block "management_ip") as (g & Hg & Hne);
    [done | unfold lldp_patterns; set_solver |].
  unfold dict_get, ip_if. rewrite Hg. simpl.
  rewrite (nonempty_ne g Hne).
  by destruct (Ipaddress.IPv4Address_new g).
Qed.

Lemma lldp_loop_cons block rest acc :
  lldp_loop (block :: rest) acc
  = match lldp_block block with
    | Ok None => lldp_loop rest acc
    | Ok (Some d) => lldp_loop rest (acc ++ [d])
    | Raise ex => Raise ex
    end.
Proof. simpl. by destruct (lldp_block block) as [[d|]|ex]. Qed.

(** What an accepted LLDP block looks like. *)
Lemma lldp_block_accept_inv block d :
  lldp_block block = Ok (Some d) →
  ∃ chassis_id port_id system_name management a,
    let matched := match_fields lldp_patterns block in
    matched !! "chassis_id" = Some (VStr chassis_id)
    ∧ matched !! "port_id" = Some (VStr port_id)
    ∧ matched !! "system_name" = Some (VStr system_name)
    ∧ matched !! "management_ip" = Some (VStr management)
    ∧ matched !! "interface" = None
    ∧ Ipaddress.IPv4Address_new management = Ok a
    ∧ d = <["management_ip" := VIp a]> matched.
Proof.
  rewrite lldp_block_eq. unfold lldp_block_nf. rewrite lldp_count_size.
  destruct (Nat.ltb_spec (matched_count lldp_patterns block) 4); [done |].
  destruct (lldp_all_matched block "chassis_id") as (c & Hc & _);
    [done | unfold lldp_patterns; set_solver |].
  destruct (lldp_all_matched block "port_id") as (p & Hp & _);
    [done | unfold lldp_patterns; set_solver |].
  destruct (lldp_all_matched block "system_name") as (n & Hn & _);
    [done | unfold lldp_patterns; set_solver |].
  destruct (lldp_all_matched block "management_ip") as (g & Hg & _);
    [done | unfold lldp_patterns; set_solver |].
  rewrite Hg.
  destruct (Ipaddress.IPv4Address_new g) as [a|] eqn:Ha; simpl; [|done].
  intros [= <-]. exists c, p, n, g, a. simpl. split_and!; try done.
  apply match_fields_lookup_notin. by apply (bool_decide_unpack _).
Qed.

End LldpBlock.

(** * Address-valued fields *)

Section IpFields.

Lemma cdp_entry_with_raise (d : gmap string value) addresses ex :
  cdp_entry_with d addresses = Raise ex → ex = ValidationError.
Proof.
  unfold cdp_entry_with, Pydantic.str_field.
  destruct (d !! "device_id") as [[]|], (d !! "platform") as [[]|],
    (d !! "interface") as [[]|], (d !! "outgoing_port") as [[]|],
    (d !! "duplex") as [[]|]; simpl; try congruence.
  by intros [=].
Qed.

Lemma cdp_addresses_raise_kind (d : gmap string value) ex :
  cdp_addresses d = Raise ex → ex = AddressValueError.
Proof.
  unfold cdp_addresses.
  destruct (d !! "entry_ip") as [[| entry |]|]; try done.
  destruct (Ipaddress.IPv4Address_new entry) as [a|ex1] eqn:Hentry; simpl.
  - destruct (d !! "management_ip") as [[| management |]|]; try done.
    destruct (Ipaddress.IPv4Address_new management) as [am|ex2] eqn:Hm;
      simpl; [done |].
    intros [= <-]. eauto using IPv4Address_new_raise.
  - intros [= <-]. eauto using IPv4Address_new_raise.
Qed.

Lemma cdp_addresses_raise block :
  let matched := match_fields cdp_patterns block in
  (∃ ex, cdp_addresses matched = Raise ex) ↔
  ∃ key text, (key = "entry_ip" ∨ key = "management_ip")
    ∧ matched !! key = Some (VStr text)
    ∧ Ipaddress.IPv4Address_new text = Raise AddressValueError.
Proof.
  intros matched. unfold cdp_addresses.
  pose proof (cdp_management_needs_entry block) as Hneeds. fold matched in Hneeds.
  destruct (matched !! "entry_ip") as [v|] eqn:Hentry.
  - destruct (cdp_matched_value _ _ _ Hentry) as (g & -> & _).
    destruct (Ipaddress.IPv4Address_new g) as [a|ex] eqn:Hg; simpl.
    + destruct (matched !! "management_ip") as [v|] eqn:Hmgmt.
      * destruct (cdp_matched_value _ _ _ Hmgmt) as (gm & -> & _).
        destruct (Ipaddress.IPv4Address_new gm) as [am|ex] eqn:Hgm; simpl.
        -- split; [intros [ex' Hex']; done |].
           intros (key & text & [-> | ->] & Hk & Ht); congruence.
        -- pose proof (IPv4Address_new_raise _ _ Hgm) as ->.
           split; [|by eauto]. intros _. exists "management_ip", gm. eauto.
      * split; [intros [ex' Hex']; done |].
        intros (key & text & [-> | ->] & Hk & Ht); congruence.
    + pose proof (IPv4Address_new_raise _ _ Hg) as ->.
      split; [|by eauto]. intros _. exists "entry_ip", g. eauto.
  - split; [intros [ex' Hex']; done |].
    intros (key & text & [-> | ->] & Hk & Ht); [congruence |].
    destruct Hneeds as [? ?]; [by eauto | congruence].
Qed.

End IpFields.

(** * The protocol models *)

(** C3: a CDP entry equals an LLDP entry exactly when the device id is
    the system name and the two management addresses agree (two null
    addresses agree); it is unequal when either differs; and the
    comparison gives the same answer from either side. *)
Theorem cross_protocol_eq (c : CiscoCDP) (l : CiscoLLDP) :
  (CiscoCDP_eq c (ObjLLDP l) = true ↔
     cdp_device_id c = lldp_system_name l
     ∧ cdp_management_ip c = lldp_management_ip l)
  ∧ (CiscoCDP_eq c (ObjLLDP l) = false ↔
       cdp_device_id c ≠ lldp_system_name l
       ∨ cdp_management_ip c ≠ lldp_management_ip l)
  ∧ CiscoLLDP_eq l (ObjCDP c) = CiscoCDP_eq c (ObjLLDP l).
Proof.
  unfold CiscoCDP_eq, CiscoLLDP_eq. split_and!.
  - rewrite andb_true_iff, !bool_decide_eq_true. done.
  - rewrite andb_false_iff, !bool_decide_eq_false. done.
  - f_equal; apply bool_decide_ext; split; congruence.
Qed.

(** * The facade *)

Section FacadeFacts.
Context {S : Type} `{!RemoteSession S}.
Implicit Types (sw : CiscoSwitch S) (s : S).

Lemma call_conn_Some {A} (method : S → A * S) sw s a s' :
  sw_conn sw = Some s → method s = (a, s') →
  call_conn method sw = (Ok a, upd_conn (Some s') sw).
Proof.
  intros Hc Hm. unfold call_conn, mbind, M_bind, gets. rewrite Hc, Hm. done.
Qed.

Lemma call_conn_None {A} (method : S → A * S) sw :
  sw_conn sw = None → call_conn method sw = (Raise AttributeError, sw).
Proof. intros Hc. unfold call_conn, mbind, M_bind, gets. by rewrite Hc. Qed.

Lemma check_connection_ok sw s p s1 :
  sw_conn sw = Some s → find_prompt s = (Some p, s1) →
  _check_connection sw = (Ok (), upd_conn (Some s1) sw).
Proof.
  intros Hc Hp. unfold _check_connection, mbind, M_bind.
  by rewrite (call_conn_Some _ _ _ _ _ Hc Hp).
Qed.

Lemma check_connection_dead sw s s1 :
  sw_conn sw = Some s → find_prompt s = (None, s1) →
  _check_connection sw = (Raise NotConnectedError, upd_conn (Some s1) sw).
Proof.
  intros Hc Hp. unfold _check_connection, mbind, M_bind.
  by rewrite (call_conn_Some _ _ _ _ _ Hc Hp).
Qed.

Lemma check_connection_no_session sw :
  sw_conn sw = None → _check_connection sw = (Raise AttributeError, sw).
Proof.
  intros Hc. unfold _check_connection, mbind, M_bind.
  by rewrite (call_conn_None _ _ Hc).
Qed.

Lemma check_connection_frame {r : result unit} sw sw' :
  _check_connection sw = (r, sw') →
  sw_cdp sw' = sw_cdp sw ∧ sw_lldp sw' = sw_lldp sw
  ∧ sw_hostname sw' = sw_hostname sw.
Proof.
  unfold _check_connection, call_conn, mbind, M_bind, gets. simpl.
  destruct (sw_conn sw) as [s|]; [|by intros [= _ <-]].
  destruct (find_prompt s) as [[p|] s1]; simpl; by intros [= _ <-].
Qed.

Lemma connect_outcome sw id_ pw secret :
  connect id_ pw secret sw
  = match ConnectHandler
            (mkConnectArgs "custom_cisco_ios" (sw_ip sw) id_ pw 22
               (if Py.nonempty secret then secret else pw)) with
    | Some s => (Ok (), upd_conn (Some s) sw)
    | None => (Raise ConnectionFailedError, sw)
    end.
Proof.
  unfold connect, mbind, M_bind, gets. by destruct (ConnectHandler _).
Qed.

(** C1: with a live session, [neighbors] returns a duplicate-free list
    holding exactly the [Neighbor(hostname, ip)] images of the stored
    CDP entries (device id, management address) and LLDP entries (system
    name, management address).  A CDP and an LLDP entry with the same
    name and address therefore give one element, entries differing in
    either component give two, and the result depends on the stored
    lists only up to their order. *)
Theorem neighbors_reconcile sw s p s1 :
  sw_conn sw = Some s → find_prompt s = (Some p, s1) →
  ∃ ns,
    neighbors sw = (Ok ns, upd_conn (Some s1) sw)
    ∧ NoDup ns
    ∧ (∀ n, n ∈ ns ↔
         (∃ c, c ∈ sw_cdp sw
               ∧ n = mkNeighbor (cdp_device_id c) (cdp_management_ip c))
         ∨ (∃ l, l ∈ sw_lldp sw
                 ∧ n = mkNeighbor (lldp_system_name l) (lldp_management_ip l)))
    ∧ (∀ c l, c ∈ sw_cdp sw → l ∈ sw_lldp sw →
         CiscoCDP_eq c (ObjLLDP l) = true →
         mkNeighbor (cdp_device_id c) (cdp_management_ip c)
         = mkNeighbor (lldp_system_name l) (lldp_management_ip l))
    ∧ (∀ sw2 ns2 sw2',
         sw_cdp sw2 ≡ₚ sw_cdp sw → sw_lldp sw2 ≡ₚ sw_lldp sw →
         neighbors sw2 = (Ok ns2, sw2') → ns2 ≡ₚ ns).
Proof.
  intros Hc Hp.
  set (ns := elements (list_to_set
    (cdp_results (sw_cdp sw) ++ lldp_results (sw_lldp sw)) : gset Neighbor)).
  assert (∀ n, n ∈ ns ↔
         (∃ c, c ∈ sw_cdp sw
               ∧ n = mkNeighbor (cdp_device_id c) (cdp_management_ip c))
         ∨ (∃ l, l ∈ sw_lldp sw
                 ∧ n = mkNeighbor (lldp_system_name l) (lldp_management_ip l)))
    as Hmem.
  { intros n. unfold ns, cdp_results, lldp_results.
    rewrite elem_of_elements, elem_of_list_to_set, elem_of_app,
      !list_elem_of_fmap.
    split; (intros [(x & ? & ?)|(x & ? & ?)]; [left|right]; eauto). }
  exists ns. split_and!.
  - unfold neighbors, mbind, M_bind.
    by rewrite (check_connection_ok _ _ _ _ Hc Hp).
  - apply NoDup_elements.
  - exact Hmem.
  - intros c l _ _ Heq. unfold CiscoCDP_eq in Heq.
    apply andb_true_iff in Heq as [Hname Hip].
    apply bool_decide_eq_true in Hname, Hip. by rewrite Hname, Hip.
  - intros sw2 ns2 sw2' Hcdp Hlldp Hn2.
    unfold neighbors, mbind, M_bind in Hn2.
    destruct (_check_connection sw2) as [[[]|ex] sw3] eqn:Hchk; [|done].
    simpl in Hn2. injection Hn2 as <- _.
    apply check_connection_frame in Hchk as (-> & -> & _).
    apply NoDup_Permutation; [apply NoDup_elements .. |].
    intros n. fold ns. rewrite Hmem.
    rewrite elem_of_elements, elem_of_list_to_set, elem_of_app.
    unfold cdp_results, lldp_results. rewrite !list_elem_of_fmap.
    setoid_rewrite Hcdp. setoid_rewrite Hlldp.
    split; (intros [(x & ? & ?)|(x & ? & ?)]; [left|right]; eauto).
Qed.

Lemma hostname_cached sw h :
  cached_hostname sw = Some h → hostname sw = (Ok h, sw).
Proof. intros Hh. unfold hostname, mbind, M_bind, gets. by rewrite Hh. Qed.

Lemma hostname_fetch sw s p s1 p' s2 :
  cached_hostname sw = None → sw_conn sw = Some s →
  find_prompt s = (Some p, s1) → find_prompt s1 = (Some p', s2) →
  hostname sw
  = (Ok (Py.drop_last p'),
     upd_hostname (Some (Py.drop_last p')) (upd_conn (Some s2) sw)).
Proof.
  intros Hh Hc Hp Hp'. unfold hostname, mbind, M_bind, gets. rewrite Hh.
  rewrite (check_connection_ok _ _ _ _ Hc Hp).
  by rewrite (call_conn_Some find_prompt (upd_conn (Some s1) sw) s1 _ _
                eq_refl Hp').
Qed.

Lemma length_take n (t : string) :
  String.length (Py.take n t) = (n `min` String.length t)%nat.
Proof.
  revert t. induction n as [|n IH]; intros [|c t]; simpl; [done..|].
  by rewrite IH.
Qed.

(** C8 (as amended): on a connected facade with nothing cached, the
    first read of [hostname] returns the prompt that [find_prompt]
    reports without its last character, so 19 characters of a
    20-character prompt; the value is cached, and every later read
    returns it and leaves the facade, session included, as it was.  The
    cut to 16 characters is what [set_base_prompt] applies to the
    session's base prompt. *)
Theorem hostname_memoized sw s p s1 p' s2 :
  sw_conn sw = Some s → cached_hostname sw = None →
  find_prompt s = (Some p, s1) → find_prompt s1 = (Some p', s2) →
  String.length p' = 20%nat →
  let h := Py.drop_last p' in
  let sw1 := upd_hostname (Some h) (upd_conn (Some s2) sw) in
  hostname sw = (Ok h, sw1)
  ∧ h = Py.take 19 p' ∧ String.length h = 19%nat
  ∧ (∀ sw2, sw_hostname sw2 = sw_hostname sw1 → hostname sw2 = (Ok h, sw2))
  ∧ set_base_prompt p' = Py.take 16 p'
  ∧ String.length (set_base_prompt p') = 16%nat.
Proof.
  intros Hc Hh Hp Hp' Hlen. cbv zeta.
  assert (Py.drop_last p' = Py.take 19 p') as Hcut.
  { unfold Py.drop_last. by rewrite Hlen. }
  assert (String.length (Py.drop_last p') = 19%nat) as Hlen'.
  { rewrite Hcut, length_take, Hlen. done. }
  split_and!.
  - by apply (hostname_fetch sw s p s1 p' s2).
  - done.
  - done.
  - intros sw2 Hsame. apply hostname_cached. unfold cached_hostname.
    rewrite Hsame. simpl.
    destruct (Py.drop_last p'); [done | done].
  - done.
  - unfold set_base_prompt. by rewrite length_take, Hlen.
Qed.

(** C7, on the code: a facade on which [connect] was never called has no
    session object, and every operation that starts with
    [_check_connection] then fails with [AttributeError], [get_lldp]
    with [AssertionError]; none raises [NotConnectedError]. *)
Theorem no_session_exceptions (ip : IPv4Address) :
  let sw : CiscoSwitch S := CiscoSwitch_init ip in
  disconnect sw = (Raise AttributeError, sw)
  ∧ hostname sw = (Raise AttributeError, sw)
  ∧ activate_cdp sw = (Raise AttributeError, sw)
  ∧ deactivate_cdp sw = (Raise AttributeError, sw)
  ∧ activate_lldp sw = (Raise AttributeError, sw)
  ∧ deactivate_lldp sw = (Raise AttributeError, sw)
  ∧ get_cdp sw = (Raise AttributeError, sw)
  ∧ neighbors sw = (Raise AttributeError, sw)
  ∧ get_lldp sw = (Raise AssertionError, sw).
Proof. cbv zeta. split_and!; reflexivity. Qed.

(** With a session object whose [find_prompt] gives [None], the
    operations that start with [_check_connection] do raise
    [NotConnectedError]. *)
Lemma dead_session_not_connected sw s s1 :
  sw_conn sw = Some s → cached_hostname sw = None →
  find_prompt s = (None, s1) →
  let sw' := upd_conn (Some s1) sw in
  disconnect sw = (Raise NotConnectedError, sw')
  ∧ hostname sw = (Raise NotConnectedError, sw')
  ∧ activate_cdp sw = (Raise NotConnectedError, sw')
  ∧ deactivate_cdp sw = (Raise NotConnectedError, sw')
  ∧ activate_lldp sw = (Raise NotConnectedError, sw')
  ∧ deactivate_lldp sw = (Raise NotConnectedError, sw')
  ∧ get_cdp sw = (Raise NotConnectedError, sw')
  ∧ neighbors sw = (Raise NotConnectedError, sw').
Proof.
  intros Hc Hh Hp. cbv zeta.
  pose proof (check_connection_dead _ _ _ Hc Hp) as Hchk.
  unfold disconnect, hostname, activate_cdp, deactivate_cdp, activate_lldp,
    deactivate_lldp, config_command, get_cdp, neighbors, mbind, M_bind, gets.
  rewrite Hh, Hchk. done.
Qed.

End FacadeFacts.

(** * Rows of a response *)

Section Rows.
Implicit Types (needle s cur : string).

Lemma prefix_before_LF needle x y :
  one_line needle = true →
  String.prefix needle (x +:+ String "010" y) = String.prefix needle x.
Proof.
  revert x. induction needle as [|a needle IH]; intros x Hline.
  { by destruct x. }
  simpl in Hline. apply andb_true_iff in Hline as [Ha Hline].
  destruct x as [|b x]; simpl.
  - destruct (ascii_dec a "010") as [->|]; [done | done].
  - destruct (ascii_dec a b); [by apply IH | done].
Qed.

Lemma contains_across_LF needle cur s :
  one_line needle = true → needle ≠ "" →
  Py.contains needle (cur +:+ String "010" s)
  = Py.contains needle cur || Py.contains needle s.
Proof.
  intros Hline Hne. induction cur as [|a cur IH].
  - destruct needle as [|b needle]; [done |].
    simpl in Hline. apply andb_true_iff in Hline as [Hb _].
    simpl. destruct (ascii_dec b "010") as [->|]; [done | done].
  - change (String a cur +:+ String "010" s)
      with (String a (cur +:+ String "010" s)).
    change (Py.contains needle (String a (cur +:+ String "010" s)))
      with (String.prefix needle (String a (cur +:+ String "010" s))
            || Py.contains needle (cur +:+ String "010" s)).
    change (Py.contains needle (String a cur))
      with (String.prefix needle (String a cur) || Py.contains needle cur).
    rewrite IH.
    change (String a (cur +:+ String "010" s))
      with (String a cur +:+ String "010" s).
    rewrite prefix_before_LF by done. by rewrite orb_assoc.
Qed.

Lemma split_go_LF_cons cur c s :
  Py.split_go Py.LF 0 cur (String c s)
  = if decide (c = "010"%char)
    then cur :: Py.split_go Py.LF 0 "" s
    else Py.split_go Py.LF 0 (cur +:+ String c "") s.
Proof.
  change (Py.split_go Py.LF 0 cur (String c s))
    with (if (if ascii_dec "010" c then String.prefix "" s else false)
          then cur :: Py.split_go Py.LF 0 "" s
          else Py.split_go Py.LF 0 (cur +:+ String c "") s).
  destruct (ascii_dec "010" c) as [<-|Hc].
  - rewrite decide_True by done. by destruct s.
  - by rewrite decide_False by congruence.
Qed.

Lemma split_LF_contains needle s cur :
  one_line needle = true → needle ≠ "" →
  existsb (Py.contains needle) (Py.split_go Py.LF 0 cur s)
  = Py.contains needle (cur +:+ s).
Proof.
  intros Hline Hne. revert cur. induction s as [|c s IH]; intros cur.
  - simpl. by rewrite sapp_nil_r, orb_false_r.
  - rewrite split_go_LF_cons. case_decide as Hc.
    + subst c. cbn [existsb]. rewrite IH. by rewrite contains_across_LF.
    + rewrite IH. by rewrite sapp_assoc.
Qed.

(** Scanning the rows for a one-line text is scanning the response. *)
Lemma rows_contain needle out :
  one_line needle = true → needle ≠ "" →
  existsb (Py.contains needle) (Py.split Py.LF out) = Py.contains needle out.
Proof. intros. unfold Py.split. by rewrite split_LF_contains. Qed.

End Rows.

(** * Fetching the CDP entries *)

Section GetCdp.
Context {S : Type} `{!RemoteSession S}.
Implicit Types (sw : CiscoSwitch S) (s : S).


End GetCdp.

(** * Fetching the LLDP entries *)

Section LldpRecords.

Lemma lldp_block_record block d :
  lldp_block block = Ok (Some d) → lldp_record d.
Proof.
  intros (c & p & n & g & a & Hc & Hp & Hn & Hg & Hi & Ha & ->)%lldp_block_accept_inv.
  exists c, p, n, a.
  rewrite lookup_insert_eq, !lookup_insert_ne by done. done.
Qed.

Lemma lldp_loop_Forall (P : gmap string value → Prop) blocks acc ds :
  (∀ block d, lldp_block block = Ok (Some d) → P d) →
  Forall P acc → lldp_loop blocks acc = Ok ds → Forall P ds.
Proof.
  intros HP. revert acc. induction blocks as [|block blocks IH]; intros acc Hacc.
  { simpl. by intros [= <-]. }
  rewrite lldp_loop_cons.
  destruct (lldp_block block) as [[d|]|ex] eqn:Hb; [| |done].
  - apply IH. apply Forall_app. split; [done |].
    apply Forall_singleton. eauto.
  - by apply IH.
Qed.

Lemma build_lldp_Forall2 items es :
  build_lldp items = Ok es ↔ Forall2 (λ d e, CiscoLLDP_new d = Ok e) items es.
Proof.
  revert es. induction items as [|d items IH]; intros es; simpl.
  - split; [intros [= <-]; constructor | by inversion 1].
  - destruct (CiscoLLDP_new d) as [e|ex] eqn:He; simpl.
    + destruct (build_lldp items) as [es'|ex] eqn:Hb; simpl.
      * split.
        -- intros [= <-]. constructor; [done | by apply IH].
        -- inversion 1 as [|? e' ? es'' He' Hes]; subst.
           apply IH in Hes. rewrite He in He'.
           injection He' as <-. injection Hes as <-. reflexivity.
      * split; [done |]. inversion 1 as [|? e' ? es'' He' Hes]; subst.
        apply IH in Hes. done.
    + split; [done |]. inversion 1; congruence.
Qed.

Lemma CiscoLLDP_new_inv (d : gmap string value) e :
  CiscoLLDP_new d = Ok e →
  d !! "chassis_id" = Some (VStr (lldp_chassis_id e))
  ∧ d !! "port_id" = Some (VStr (lldp_port_id e))
  ∧ d !! "interface" = Some (VStr (lldp_interface e))
  ∧ d !! "system_name" = Some (VStr (lldp_system_name e))
  ∧ Pydantic.ip_field d "management_ip" = Ok (lldp_management_ip e).
Proof.
  unfold CiscoLLDP_new, Pydantic.str_field.
  destruct (d !! "chassis_id") as [[]|], (d !! "port_id") as [[]|],
    (d !! "interface") as [[]|], (d !! "system_name") as [[]|];
    simpl; try done.
  destruct (Pydantic.ip_field d "management_ip") as [m|]; simpl; [|done].
  by intros [= <-].
Qed.

Lemma CiscoLLDP_new_record (d : gmap string value) c p n a i :
  d !! "chassis_id" = Some (VStr c) → d !! "port_id" = Some (VStr p) →
  d !! "system_name" = Some (VStr n) → d !! "management_ip" = Some (VIp a) →
  (d !! "interface" = Some (VStr i) →
     CiscoLLDP_new d = Ok (mkCiscoLLDP c p i n (Some a)))
  ∧ (d !! "interface" = None → CiscoLLDP_new d = Raise ValidationError).
Proof.
  intros Hc Hp Hn Ha.
  unfold CiscoLLDP_new, Pydantic.str_field, Pydantic.ip_field.
  rewrite Hc, Hp, Hn, Ha. split; by intros ->.
Qed.

(** The brief-listing pattern captures two non-empty tokens. *)
Lemma brief_pattern_groups line m :
  search brief_pattern line = Some m →
  ∃ device_id local_intf,
    groups m = [device_id; local_intf] ∧ device_id ≠ "" ∧ local_intf ≠ "".
Proof.
  intros (pre & w & rest & _ & Hm)%search_sound. unfold brief_pattern in Hm.
  repeat match goal with
  | H : matches (Seq _ _) _ _ |- _ => inversion H; subst; clear H
  | H : matches (Group _ _) _ _ |- _ => inversion H; subst; clear H
  | H : matches (Plus _) _ _ |- _ => inversion H; subst; clear H
  end.
  simpl. eauto.
Qed.

Lemma local_intf_mapping_nonempty rows name local_intf :
  local_intf_mapping rows !! name = Some local_intf → local_intf ≠ "".
Proof.
  unfold local_intf_mapping.
  assert (∀ acc : gmap string string,
            map_Forall (λ _ v, v ≠ "") acc →
            map_Forall (λ _ v, v ≠ "") (foldl mapping_step acc rows)) as Hinv.
  { induction rows as [|line rows IH]; intros acc Hacc; [done |].
    simpl. apply IH. unfold mapping_step.
    destruct (search brief_pattern line) as [m|] eqn:Hs; [|done].
    destruct (brief_pattern_groups _ _ Hs) as (d & i & -> & _ & Hi).
    by apply map_Forall_insert_2. }
  intros Hl. by apply (Hinv ∅ (map_Forall_empty _) name local_intf).
Qed.

Lemma enrich_hit (mapping : gmap string string) (item : gmap string value)
      name local_intf :
  item !! "system_name" = Some (VStr name) →
  mapping !! name = Some local_intf → local_intf ≠ "" →
  enrich mapping item = <["interface" := VStr local_intf]> item.
Proof.
  intros Hn Hm Hne. unfold enrich, dict_get, mapping_get.
  rewrite Hn. simpl. rewrite Hm. simpl. by rewrite nonempty_ne.
Qed.

Lemma enrich_miss (mapping : gmap string string) (item : gmap string value) name :
  item !! "system_name" = Some (VStr name) →
  mapping !! name = None → enrich mapping item = item.
Proof.
  intros Hn Hm. unfold enrich, dict_get, mapping_get.
  rewrite Hn. simpl. by rewrite Hm.
Qed.

Lemma enrich_lookup_ne (mapping : gmap string string)
      (item : gmap string value) key :
  key ≠ "interface" → enrich mapping item !! key = item !! key.
Proof.
  intros Hk. unfold enrich. case_match; [|done]. by rewrite lookup_insert_ne.
Qed.

Lemma CiscoLLDP_new_raise (d : gmap string value) e :
  CiscoLLDP_new d = Raise e → e = ValidationError.
Proof.
  unfold CiscoLLDP_new, Pydantic.str_field.
  destruct (d !! "chassis_id") as [[]|], (d !! "port_id") as [[]|],
    (d !! "interface") as [[]|], (d !! "system_name") as [[]|];
    simpl; try congruence.
  destruct (Pydantic.ip_field d "management_ip") as [m|ex] eqn:Hip; simpl;
    [by intros [=] | intros [= <-]].
  unfold Pydantic.ip_field in Hip. repeat case_match; congruence.
Qed.

Lemma build_lldp_raise items e :
  build_lldp items = Raise e → e = ValidationError.
Proof.
  induction items as [|d items IH]; [done |]. simpl.
  destruct (CiscoLLDP_new d) as [x|ex] eqn:Hd; simpl.
  - destruct (build_lldp items) as [xs|ex]; simpl; [done |].
    intros [= <-]. by apply IH.
  - intros [= <-]. by eapply CiscoLLDP_new_raise.
Qed.

(** What [CiscoLLDP(...)] makes of an enriched record: an entry with all
    four values of the record and the mapped interface when the system
    name is a key, and a validation error when it is not. *)
Lemma enriched_record (rows : list string) (item : gmap string value) :
  lldp_record item →
  let mapping := local_intf_mapping rows in
  ∃ c p n a,
    item !! "chassis_id" = Some (VStr c) ∧ item !! "port_id" = Some (VStr p)
    ∧ item !! "system_name" = Some (VStr n)
    ∧ item !! "management_ip" = Some (VIp a)
    ∧ item !! "interface" = None
    ∧ (∀ v, mapping !! n = Some v →
         enrich mapping item = <["interface" := VStr v]> item
         ∧ CiscoLLDP_new (enrich mapping item)
           = Ok (mkCiscoLLDP c p v n (Some a)))
    ∧ (mapping !! n = None →
         enrich mapping item = item
         ∧ CiscoLLDP_new (enrich mapping item) = Raise ValidationError).
Proof.
  intros (c & p & n & a & Hc & Hp & Hn & Ha & Hi). cbv zeta.
  exists c, p, n, a. split_and!; try done.
  - intros v Hv.
    assert (v ≠ "") as Hne by (by eapply local_intf_mapping_nonempty).
    rewrite (enrich_hit _ item n v Hn Hv Hne). split; [done |].
    apply (CiscoLLDP_new_record (<["interface" := VStr v]> item) c p n a v);
      by rewrite ?lookup_insert_eq, ?lookup_insert_ne.
  - intros Hv. rewrite (enrich_miss _ item n Hn Hv). split; [done |].
    by apply (CiscoLLDP_new_record item c p n a "").
Qed.

Lemma build_lldp_cons d items :
  build_lldp (d :: items)
  = match CiscoLLDP_new d with
    | Ok e => match build_lldp items with
              | Ok es => Ok (e :: es)
              | Raise ex => Raise ex
              end
    | Raise ex => Raise ex
    end.
Proof. simpl. destruct (CiscoLLDP_new d); [|done]. by destruct (build_lldp items). Qed.

(** The list comprehension over the enriched records. *)
Lemma build_enriched_all (rows : list string) detail :
  Forall lldp_record detail →
  let mapping := local_intf_mapping rows in
  ((∀ item n, item ∈ detail → item !! "system_name" = Some (VStr n) →
      is_Some (mapping !! n)) →
   ∃ es,
     build_lldp (enrich mapping <$> detail) = Ok es
     ∧ Forall2 (λ item e,
          ∃ c p n a v,
            item !! "chassis_id" = Some (VStr c)
            ∧ item !! "port_id" = Some (VStr p)
            ∧ item !! "system_name" = Some (VStr n)
            ∧ item !! "management_ip" = Some (VIp a)
            ∧ mapping !! n = Some v
            ∧ e = mkCiscoLLDP c p v n (Some a)) detail es)
  ∧ ((∃ item n, item ∈ detail ∧ item !! "system_name" = Some (VStr n)
                ∧ mapping !! n = None) →
     build_lldp (enrich mapping <$> detail) = Raise ValidationError).
Proof.
  intros Hrec. cbv zeta. split.
  - induction Hrec as [|d detail Hd _ IH]; intros Hkeys.
    { exists []. split; [done | constructor]. }
    destruct IH as (es & Hes & Hall).
    { intros item n Hin. apply Hkeys. by apply elem_of_cons; right. }
    destruct (enriched_record rows d Hd)
      as (c & p & n & a & Hc & Hp & Hn & Ha & Hi & Hhit & _).
    destruct (Hkeys d n) as [v Hv]; [by apply elem_of_cons; left | done |].
    destruct (Hhit v Hv) as [_ Hnew].
    exists (mkCiscoLLDP c p v n (Some a) :: es). split.
    + rewrite fmap_cons, build_lldp_cons, Hnew. by rewrite Hes.
    + constructor; [|exact Hall]. by exists c, p, n, a, v.
  - intros (item & n & Hin & Hn & Hmiss).
    destruct (build_lldp _) as [es|ex] eqn:Hbuild;
      [|by rewrite (build_lldp_raise _ _ Hbuild)].
    apply build_lldp_Forall2, Forall2_fmap_l in Hbuild.
    apply list_elem_of_lookup in Hin as [i Hi].
    destruct (Forall2_lookup_l _ _ _ _ _ Hbuild Hi) as (e & _ & Hnew).
    destruct (enriched_record rows item) as (c & p & n' & a & _ & _ & Hn' & _ & _ & _ & Hno).
    { by eapply (proj1 (Forall_forall _ _) Hrec), list_elem_of_lookup_2. }
    rewrite Hn in Hn'. injection Hn' as <-.
    destruct (Hno Hmiss) as [_ Hraise]. congruence.
Qed.

End LldpRecords.

Section GetLldp.
Context {S : Type} `{!RemoteSession S}.
Implicit Types (sw : CiscoSwitch S) (s : S).

Lemma call_conn_inv {A} (method : S → A * S) sw a sw' :
  call_conn method sw = (Ok a, sw') →
  ∃ s s', sw_conn sw = Some s ∧ method s = (a, s') ∧ sw' = upd_conn (Some s') sw.
Proof.
  unfold call_conn, mbind, M_bind, gets.
  destruct (sw_conn sw) as [s|]; [|done].
  destruct (method s) as [a' s'] eqn:Hm. intros [= <- <-]. eauto.
Qed.

Lemma get_lldp_inv sw es sw' :
  get_lldp sw = (Ok es, sw') →
  ∃ out brief detail,
    lldp_loop (lldp_blocks (Py.split Py.LF out)) [] = Ok detail
    ∧ build_lldp (enrich (local_intf_mapping (Py.split Py.LF brief)) <$> detail)
      = Ok es
    ∧ sw_lldp sw' = es.
Proof.
  unfold get_lldp, mbind, M_bind, gets, lift.
  destruct (sw_conn sw) as [s|]; [|done].
  destruct (call_conn (send_multiline ["show lldp neighbors detail"]) sw)
    as [[out|ex] sw1]; [|done].
  destruct (lldp_loop (lldp_blocks (Py.split Py.LF out)) []) as [detail|ex]
    eqn:Hloop; [|done].
  destruct (report_if_empty detail sw1) as [[[]|ex] sw2]; [|done].
  destruct (call_conn (send_multiline ["show lldp neighbors"]) sw2)
    as [[brief|ex] sw3]; [|done].
  destruct (build_lldp _) as [es'|ex] eqn:Hbuild; [|done].
  intros [= <- <-]. by exists out, brief, detail.
Qed.

(** Every record the detail loop keeps has all four fields. *)
Lemma lldp_loop_records blocks detail :
  lldp_loop blocks [] = Ok detail → Forall lldp_record detail.
Proof.
  apply lldp_loop_Forall; [apply lldp_block_record | constructor].
Qed.

(** C10: every entry [get_lldp] returns has a management address, and so
    has every neighbour built from those entries.  The detail parser has
    four patterns and keeps a block only when four matched, so every
    record it keeps has the three text fields and a converted management
    address. *)
Theorem lldp_management_ip_present sw es sw' :
  get_lldp sw = (Ok es, sw') →
  sw_lldp sw' = es
  ∧ Forall (λ e, is_Some (lldp_management_ip e)) es
  ∧ Forall (λ n, is_Some (nb_ip n)) (lldp_results es)
  ∧ length lldp_patterns = 4%nat
  ∧ (∀ block d, lldp_block block = Ok (Some d) → lldp_record d).
Proof.
  intros (out & brief & detail & Hloop & Hbuild & Hset)%get_lldp_inv.
  split; [done |].
  assert (Forall (λ e, is_Some (lldp_management_ip e)) es) as Hall.
  { apply lldp_loop_records in Hloop.
    apply build_lldp_Forall2 in Hbuild.
    apply Forall2_fmap_l in Hbuild.
    eapply Forall2_Forall_r; [exact Hbuild |].
    eapply Forall_impl; [exact Hloop |].
    intros d (c & p & n & a & _ & _ & _ & Ha & _) e He.
    apply CiscoLLDP_new_inv in He as (_ & _ & _ & _ & Hip).
    unfold Pydantic.ip_field in Hip.
    rewrite enrich_lookup_ne, Ha in Hip by done.
    injection Hip as <-. eauto. }
  split; [done |].
  split; [unfold lldp_results; by apply Forall_fmap |].
  split; [reflexivity | apply lldp_block_record].
Qed.

Lemma get_lldp_steps sw s out s1 detail sw1 s1' brief s2 :
  sw_conn sw = Some s →
  send_multiline ["show lldp neighbors detail"] s = (out, s1) →
  lldp_loop (lldp_blocks (Py.split Py.LF out)) [] = Ok detail →
  report_if_empty detail (upd_conn (Some s1) sw) = (Ok (), sw1) →
  sw_conn sw1 = Some s1' →
  send_multiline ["show lldp neighbors"] s1' = (brief, s2) →
  get_lldp sw
  = match build_lldp
            (enrich (local_intf_mapping (Py.split Py.LF brief)) <$> detail) with
    | Ok es => (Ok es, upd_lldp es (upd_conn (Some s2) sw1))
    | Raise ex => (Raise ex, upd_conn (Some s2) sw1)
    end.
Proof.
  intros Hc Hout Hloop Hrep Hc1 Hbrief.
  unfold get_lldp, mbind, M_bind, gets, lift. rewrite Hc.
  rewrite (call_conn_Some _ sw s _ _ Hc Hout). rewrite Hloop, Hrep.
  rewrite (call_conn_Some _ sw1 s1' _ _ Hc1 Hbrief).
  by destruct (build_lldp _).
Qed.

(** C5, on the code: [get_lldp] sets the [interface] of a detail record
    whose system name is a key of the mapping built from the brief
    listing to the mapped value, and leaves a record whose system name is
    no key as the detail parse made it, that is without an [interface];
    the source guards this miss.  The entries are built from the
    records afterwards, and an entry needs an interface: when every
    system name is a key, [get_lldp] returns one entry per record, in
    order, with the record's chassis id, port id, system name and
    management address and the mapped interface; when some system name
    is no key, building that record's entry fails and [get_lldp] raises
    [ValidationError] in place of returning an entry for it: no entry
    is returned for any record and the stored list stays as it was. *)
Theorem lldp_interface_enrichment sw s out s1 detail sw1 s1' brief s2 :
  sw_conn sw = Some s →
  send_multiline ["show lldp neighbors detail"] s = (out, s1) →
  lldp_loop (lldp_blocks (Py.split Py.LF out)) [] = Ok detail →
  report_if_empty detail (upd_conn (Some s1) sw) = (Ok (), sw1) →
  sw_conn sw1 = Some s1' →
  send_multiline ["show lldp neighbors"] s1' = (brief, s2) →
  let mapping := local_intf_mapping (Py.split Py.LF brief) in
  (∀ item, item ∈ detail →
     ∃ c p n a,
       item !! "chassis_id" = Some (VStr c) ∧ item !! "port_id" = Some (VStr p)
       ∧ item !! "system_name" = Some (VStr n)
       ∧ item !! "management_ip" = Some (VIp a)
       ∧ item !! "interface" = None
       ∧ (∀ v, mapping !! n = Some v →
            enrich mapping item = <["interface" := VStr v]> item
            ∧ CiscoLLDP_new (enrich mapping item)
              = Ok (mkCiscoLLDP c p v n (Some a)))
       ∧ (mapping !! n = None →
            enrich mapping item = item
            ∧ CiscoLLDP_new (enrich mapping item) = Raise ValidationError))
  ∧ ((∀ item n, item ∈ detail → item !! "system_name" = Some (VStr n) →
        is_Some (mapping !! n)) →
     ∃ es,
       get_lldp sw = (Ok es, upd_lldp es (upd_conn (Some s2) sw1))
       ∧ Forall2 (λ item e,
            ∃ c p n a v,
              item !! "chassis_id" = Some (VStr c)
              ∧ item !! "port_id" = Some (VStr p)
              ∧ item !! "system_name" = Some (VStr n)
              ∧ item !! "management_ip" = Some (VIp a)
              ∧ mapping !! n = Some v
              ∧ e = mkCiscoLLDP c p v n (Some a)) detail es)
  ∧ ((∃ item n, item ∈ detail ∧ item !! "system_name" = Some (VStr n)
                ∧ mapping !! n = None) →
     get_lldp sw = (Raise ValidationError, upd_conn (Some s2) sw1)
     ∧ sw_lldp (upd_conn (Some s2) sw1) = sw_lldp sw).
Proof.
  intros Hc Hout Hloop Hrep Hc1 Hbrief. cbv zeta.
  pose proof (lldp_loop_records _ _ Hloop) as Hrec.
  pose proof (get_lldp_steps sw s out s1 detail sw1 s1' brief s2
                Hc Hout Hloop Hrep Hc1 Hbrief) as Hrun.
  destruct (build_enriched_all (Py.split Py.LF brief) detail Hrec)
    as [Hall Hmiss].
  split_and!.
  - intros item Hin. apply enriched_record.
    by apply (proj1 (Forall_forall _ _) Hrec).
  - intros Hkeys. destruct (Hall Hkeys) as (es & Hbuild & Hes).
    exists es. split; [|done]. by rewrite Hrun, Hbuild.
  - intros Hsome. rewrite Hrun, (Hmiss Hsome). split; [done |].
    destruct detail as [|d detail].
    { destruct Hsome as (item & n & Hin & _). by apply elem_of_nil in Hin. }
    simpl in Hrep. by injection Hrep as <-.
Qed.

End GetLldp.

(** * Address texts and what becomes of them *)

Section AddressTexts.

Lemma ipv4_text_dotted w gs : matches ipv4_text w gs → dotted_digits w.
Proof.
  unfold ipv4_text. intros H.
  repeat match goal with
  | H : matches (Seq _ _) _ _ |- _ => inversion H; subst; clear H
  | H : matches (Lit _) _ _ |- _ => inversion H; subst; clear H
  | H : matches (Plus _) _ _ |- _ => inversion H; subst; clear H
  end.
  eexists _, _, _, _. split; [reflexivity |].
  repeat constructor; try done; simpl;
    match goal with
    | Hc : Py.isdigit ?c = true, Hw : Py.all_chars Py.isdigit ?w = true
      |- Py.isdigit ?c && Py.all_chars Py.isdigit ?w = true =>
        by rewrite Hc, Hw
    end.
Qed.

Lemma address_field_dotted key label block t :
  field_of key (Seq (Lit label) (Group key ipv4_text)) block = Some (VStr t) →
  dotted_digits t.
Proof.
  unfold field_of. destruct (search _ block) as [m|] eqn:Hs; [|done].
  apply search_sound in Hs as (pre & w & rest & _ & Hm).
  inversion Hm as [| | |r1 r2 w1 w2 g1 g2 H1 H2|]; subst.
  inversion H2 as [| | | |name r w' g Hip]; subst.
  destruct (ipv4_text_matches _ _ Hip) as [-> _].
  inversion H1; subst. simpl. rewrite String.eqb_refl.
  intros [= <-]. by eapply ipv4_text_dotted.
Qed.

Lemma cdp_address_dotted block key t :
  key = "entry_ip" ∨ key = "management_ip" →
  match_fields cdp_patterns block !! key = Some (VStr t) → dotted_digits t.
Proof.
  intros [-> | ->].
  - rewrite (match_fields_lookup block _ "entry_ip"
      (Seq (Lit "IP address: ") (Group "entry_ip" ipv4_text)));
      [apply address_field_dotted | apply cdp_keys_NoDup
      | unfold cdp_patterns; set_solver].
  - rewrite (match_fields_lookup block _ "management_ip"
      (Seq (Lit "Management address(es): ") (Seq (Lit Py.CRLF)
        (Seq (Lit "  IP address: ") (Group "management_ip" ipv4_text)))));
      [| apply cdp_keys_NoDup | unfold cdp_patterns; set_solver].
    unfold field_of. destruct (search _ block) as [m|] eqn:Hs; [|done].
    apply search_sound in Hs as (pre & w & rest & _ & Hm).
    repeat match goal with
    | H : matches (Seq _ _) _ _ |- _ => inversion H; subst; clear H
    | H : matches (Lit _) _ _ |- _ => inversion H; subst; clear H
    | H : matches (Group _ _) _ _ |- _ => inversion H; subst; clear H
    end.
    match goal with
    | H : matches ipv4_text _ _ |- _ =>
        destruct (ipv4_text_matches _ _ H) as [-> _];
        apply ipv4_text_dotted in H
    end.
    simpl. by intros [= <-].
Qed.

Lemma lldp_address_dotted block t :
  match_fields lldp_patterns block !! "management_ip" = Some (VStr t) →
  dotted_digits t.
Proof.
  rewrite (match_fields_lookup block _ "management_ip"
    (Seq (Lit "IP: ") (Group "management_ip" ipv4_text)));
    [apply address_field_dotted | apply lldp_keys_NoDup
    | unfold lldp_patterns; set_solver].
Qed.

Lemma cdp_loop_stops before block rest acc ex :
  Forall (λ b, ∃ r, cdp_block b = Ok r) before →
  cdp_block block = Raise ex →
  cdp_loop (before ++ block :: rest) acc = Raise ex.
Proof.
  intros Hbefore Hb. revert acc.
  induction Hbefore as [|b before [r Hr] _ IH]; intros acc.
  - simpl app. by rewrite cdp_loop_cons, Hb.
  - rewrite <-app_comm_cons, cdp_loop_cons, Hr. by destruct r.
Qed.

Lemma lldp_loop_stops before block rest acc ex :
  Forall (λ b, ∃ r, lldp_block b = Ok r) before →
  lldp_block block = Raise ex →
  lldp_loop (before ++ block :: rest) acc = Raise ex.
Proof.
  intros Hbefore Hb. revert acc.
  induction Hbefore as [|b before [r Hr] _ IH]; intros acc.
  - simpl app. by rewrite lldp_loop_cons, Hb.
  - rewrite <-app_comm_cons, lldp_loop_cons, Hr. by destruct r.
Qed.

End AddressTexts.

Section AddressFields.
Context {S : Type} `{!RemoteSession S}.
Implicit Types (sw : CiscoSwitch S) (s : S).

Lemma get_cdp_loop_raise sw s p s1 out s2 ex :
  sw_conn sw = Some s → find_prompt s = (Some p, s1) →
  send_multiline ["show cdp neighbors detail"] s1 = (out, s2) →
  Py.contains "CDP is not enabled" out = false →
  cdp_loop (cdp_blocks (Py.split Py.LF out)) [] = Raise ex →
  get_cdp sw = (Raise ex, upd_conn (Some s2) sw).
Proof.
  intros Hc Hp Hout Hen Hloop.
  unfold get_cdp, mbind, M_bind.
  rewrite (check_connection_ok _ _ _ _ Hc Hp). cbv beta iota.
  rewrite (call_conn_Some _ (upd_conn (Some s1) sw) s1 _ _ eq_refl Hout).
  cbv beta iota.
  change (upd_conn (Some s2) (upd_conn (Some s1) sw)) with (upd_conn (Some s2) sw).
  rewrite rows_contain by done. rewrite Hen.
  unfold lift. by rewrite Hloop.
Qed.

Lemma get_lldp_loop_raise sw s out s1 ex :
  sw_conn sw = Some s →
  send_multiline ["show lldp neighbors detail"] s = (out, s1) →
  lldp_loop (lldp_blocks (Py.split Py.LF out)) [] = Raise ex →
  get_lldp sw = (Raise ex, upd_conn (Some s1) sw).
Proof.
  intros Hc Hout Hloop.
  unfold get_lldp, mbind, M_bind, gets, lift. rewrite Hc.
  rewrite (call_conn_Some _ sw s _ _ Hc Hout). by rewrite Hloop.
Qed.

(** C9 (as amended): an absent address raises nothing, and a matched
    address text is converted, never turned into a null field.  In a
    CDP block without a match of the entry-address pattern the
    management-address pattern has no match either, and both address
    fields of the entry are null; with a match of the entry address
    alone the management address is the entry address.  An LLDP block
    without a match of its address pattern is skipped.  An address
    pattern captures four dot-separated groups of digits and nothing
    else.  The captured text goes to [IPv4Address]: a block raises
    [AddressValueError] exactly when it is past its threshold and a
    captured address text is not a valid IPv4 address.  Nothing catches
    the exception: the loop stops at the block, whatever was collected
    from the blocks before it, and the fetch raises it, returning and
    storing no entries. *)
Theorem ip_fields_parsing (block : string) :
  let cdp := match_fields cdp_patterns block in
  let lldp := match_fields lldp_patterns block in
  (cdp !! "entry_ip" = None →
     cdp !! "management_ip" = None
     ∧ cdp_block block ≠ Raise AddressValueError
     ∧ ∀ e, cdp_block block = Ok (Some e) →
         cdp_entry_ip e = None ∧ cdp_management_ip e = None)
  ∧ (∀ entry e,
       cdp !! "entry_ip" = Some (VStr entry) → cdp_block block = Ok (Some e) →
       ∃ a, Ipaddress.IPv4Address_new entry = Ok a
            ∧ cdp_entry_ip e = Some a
            ∧ (cdp !! "management_ip" = None → cdp_management_ip e = Some a)
            ∧ (∀ management,
                 cdp !! "management_ip" = Some (VStr management) →
                 ∃ am, Ipaddress.IPv4Address_new management = Ok am
                       ∧ cdp_management_ip e = Some am))
  ∧ (lldp !! "management_ip" = None → lldp_block block = Ok None)
  ∧ (∀ d, lldp_block block = Ok (Some d) →
       ∃ text a, lldp !! "management_ip" = Some (VStr text)
                 ∧ Ipaddress.IPv4Address_new text = Ok a
                 ∧ d !! "management_ip" = Some (VIp a))
  ∧ (∀ key text, key = "entry_ip" ∨ key = "management_ip" →
       cdp !! key = Some (VStr text) → dotted_digits text)
  ∧ (∀ text, lldp !! "management_ip" = Some (VStr text) → dotted_digits text)
  ∧ (cdp_block block = Raise AddressValueError ↔
       (3 ≤ matched_count cdp_patterns block)%nat
       ∧ ∃ key text, (key = "entry_ip" ∨ key = "management_ip")
           ∧ cdp !! key = Some (VStr text)
           ∧ Ipaddress.IPv4Address_new text = Raise AddressValueError)
  ∧ (lldp_block block = Raise AddressValueError ↔
       (4 ≤ matched_count lldp_patterns block)%nat
       ∧ ∃ text, lldp !! "management_ip" = Some (VStr text)
           ∧ Ipaddress.IPv4Address_new text = Raise AddressValueError)
  ∧ (∀ ex before rest acc,
       Forall (λ b, ∃ r, cdp_block b = Ok r) before →
       cdp_block block = Raise ex →
       cdp_loop (before ++ block :: rest) acc = Raise ex)
  ∧ (∀ ex before rest acc,
       Forall (λ b, ∃ r, lldp_block b = Ok r) before →
       lldp_block block = Raise ex →
       lldp_loop (before ++ block :: rest) acc = Raise ex)
  ∧ (∀ sw s p s1 out s2 ex before rest,
       sw_conn sw = Some s → find_prompt s = (Some p, s1) →
       send_multiline ["show cdp neighbors detail"] s1 = (out, s2) →
       Py.contains "CDP is not enabled" out = false →
       cdp_blocks (Py.split Py.LF out) = before ++ block :: rest →
       Forall (λ b, ∃ r, cdp_block b = Ok r) before →
       cdp_block block = Raise ex →
       get_cdp sw = (Raise ex, upd_conn (Some s2) sw)
       ∧ sw_cdp (upd_conn (Some s2) sw) = sw_cdp sw)
  ∧ (∀ sw s out s1 ex before rest,
       sw_conn sw = Some s →
       send_multiline ["show lldp neighbors detail"] s = (out, s1) →
       lldp_blocks (Py.split Py.LF out) = before ++ block :: rest →
       Forall (λ b, ∃ r, lldp_block b = Ok r) before →
       lldp_block block = Raise ex →
       get_lldp sw = (Raise ex, upd_conn (Some s1) sw)
       ∧ sw_lldp (upd_conn (Some s1) sw) = sw_lldp sw).
Proof.
  cbv zeta.
  pose proof (cdp_addresses_raise block) as Hraise. cbv zeta in Hraise.
  pose proof (cdp_management_needs_entry block) as Hneeds.
  assert (cdp_block block = Raise AddressValueError ↔
       (3 ≤ matched_count cdp_patterns block)%nat
       ∧ ∃ key text, (key = "entry_ip" ∨ key = "management_ip")
           ∧ match_fields cdp_patterns block !! key = Some (VStr text)
           ∧ Ipaddress.IPv4Address_new text = Raise AddressValueError) as Hcdp.
  { rewrite cdp_block_eq. unfold cdp_block_nf. rewrite cdp_count_size.
    rewrite <-Hraise. clear Hraise.
    destruct (Nat.leb_spec (matched_count cdp_patterns block) 2).
    { split; [done | lia]. }
    destruct (cdp_addresses _) as [addresses|ex] eqn:Ha; simpl.
    - split; [|by intros [_ [? ?]]].
      destruct (cdp_entry_with _ addresses) as [e|ex] eqn:He; simpl; [done |].
      apply cdp_entry_with_raise in He as ->. done.
    - assert (ex = AddressValueError) as ->.
      { eauto using cdp_addresses_raise_kind. }
      split; [|done]. intros _. split; [lia | eauto]. }
  assert (match_fields cdp_patterns block !! "entry_ip" = None →
          match_fields cdp_patterns block !! "management_ip" = None) as Hboth.
  { intros Hnone. apply eq_None_not_Some. intros [x Hx]%Hneeds. congruence. }
  split_and!.
  - intros Hnone. split_and!.
    + by apply Hboth.
    + rewrite Hcdp. intros (_ & key & text & [-> | ->] & Hk & _); [congruence |].
      rewrite Hboth in Hk; done.
    + intros e (_ & addresses & Ha & He)%cdp_block_accept_inv.
      apply cdp_entry_with_inv in He as (-> & -> & _).
      unfold cdp_addresses in Ha. rewrite Hnone in Ha.
      by injection Ha as <-.
  - intros entry e Hentry (_ & addresses & Ha & He)%cdp_block_accept_inv.
    apply cdp_entry_with_inv in He as (-> & -> & _).
    unfold cdp_addresses in Ha. rewrite Hentry in Ha.
    destruct (Ipaddress.IPv4Address_new entry) as [a|] eqn:Hnew;
      simpl in Ha; [|done].
    exists a. split; [done |].
    destruct (match_fields cdp_patterns block !! "management_ip") as [v|]
      eqn:Hmgmt.
    + destruct (cdp_matched_value _ _ _ Hmgmt) as (gm & -> & _).
      destruct (Ipaddress.IPv4Address_new gm) as [am|] eqn:Hgm;
        simpl in Ha; [|done].
      injection Ha as <-. simpl. split_and!; [done | done |].
      intros ? [= <-]. eauto.
    + injection Ha as <-. simpl. split_and!; done.
  - intros Hnone. rewrite lldp_block_eq. unfold lldp_block_nf.
    rewrite lldp_count_size.
    destruct (Nat.ltb_spec (matched_count lldp_patterns block) 4) as [|Hge];
      [done |].
    destruct (lldp_all_matched block "management_ip" Hge) as (g & Hg & _);
      [by apply (bool_decide_unpack _) | congruence].
  - intros d (c & p & n & g & a & _ & _ & _ & Hg & _ & Ha & ->)%lldp_block_accept_inv.
    exists g, a. by rewrite lookup_insert_eq.
  - intros key text. apply cdp_address_dotted.
  - apply lldp_address_dotted.
  - exact Hcdp.
  - rewrite lldp_block_eq. unfold lldp_block_nf. rewrite lldp_count_size.
    destruct (Nat.ltb_spec (matched_count lldp_patterns block) 4) as [|Hge].
    { split; [done | lia]. }
    destruct (lldp_all_matched block "management_ip" Hge) as (g & Hg & _);
      [by apply (bool_decide_unpack _) |].
    rewrite Hg.
    destruct (Ipaddress.IPv4Address_new g) as [a|ex] eqn:Ha; simpl.
    + split; [done |]. intros (_ & text & [= <-] & ?). congruence.
    + pose proof (IPv4Address_new_raise _ _ Ha) as ->.
      split; [|done]. intros _. split; [done | eauto].
  - intros ex before rest acc. apply cdp_loop_stops.
  - intros ex before rest acc. apply lldp_loop_stops.
  - intros sw s p s1 out s2 ex before rest Hc Hp Hout Hen Hblocks Hbefore Hb.
    split; [|done].
    apply (get_cdp_loop_raise sw s p s1 out s2 ex Hc Hp Hout Hen).
    rewrite Hblocks. by apply cdp_loop_stops.
  - intros sw s out s1 ex before rest Hc Hout Hblocks Hbefore Hb.
    split; [|done].
    apply (get_lldp_loop_raise sw s out s1 ex Hc Hout).
    rewrite Hblocks. by apply lldp_loop_stops.
Qed.

End AddressFields.

(** * Runs on sample device output *)

Section Runs.

Example split_rows :
  Py.split Py.LF ("a" +:+ Py.LF +:+ "bc" +:+ Py.LF) = ["a"; "bc"; ""].
Proof. reflexivity. Qed.

Example split_separator : Py.split "--" "a--b---c" = ["a"; "b"; "-c"].
Proof. reflexivity. Qed.

Example search_backtracks :
  search (Seq (Lit "Interface: ")
            (Seq (Group "interface" (Plus Py.notspace)) (Lit ",")))
         "x Interface: Gi0/1,a,  Port" = Some [("interface", "Gi0/1,a")].
Proof. reflexivity. Qed.

Example IPv4Address_valid :
  Ipaddress.IPv4Address_new "10.0.0.1" = Ok (mkIPv4 167772161).
Proof. reflexivity. Qed.

Example IPv4Address_invalid :
  Ipaddress.IPv4Address_new "999.1.1.1" = Raise AddressValueError
  ∧ Ipaddress.IPv4Address_new "10.0.0.01" = Raise AddressValueError
  ∧ Ipaddress.IPv4Address_new "10.0.0" = Raise AddressValueError.
Proof. split_and!; vm_compute; reflexivity. Qed.

Example brief_listing_mapping :
  map_to_list (local_intf_mapping (Py.split Py.LF sample_lldp_brief))
  = [("R1", "Gi0/1"); ("Device", "ID")].
Proof. vm_compute. reflexivity. Qed.

(** The reconciliation examples of the specification. *)
Example neighbors_examples :
  (neighbors reconcile_switch).1
  = Ok [ mkNeighbor "R1" (Some (mkIPv4 167772161));
         mkNeighbor "R2" (Some (mkIPv4 167772162)) ].
Proof. vm_compute. reflexivity. Qed.

(** [neighbors_reconcile] on the reconciliation example. *)
Lemma neighbors_reconcile_witness :
  ∃ ns, (neighbors reconcile_switch).1 = Ok ns ∧ NoDup ns
        ∧ mkNeighbor "R1" (Some (mkIPv4 167772161)) ∈ ns.
Proof.
  assert (find_prompt cdp_session
          = (Some "Switch#", s_logged CallFindPrompt cdp_session)) as Hp
    by reflexivity.
  destruct (neighbors_reconcile reconcile_switch cdp_session _ _ eq_refl Hp)
    as (ns & Hrun & Hnd & Hmem & _).
  exists ns. split; [by rewrite Hrun | split; [exact Hnd |]].
  apply Hmem. left. eexists. split; [apply list_elem_of_here | reflexivity].
Defined.

(** [cdp_block_threshold] on a block with two fields, one with three and
    one with all seven. *)
Lemma cdp_block_threshold_witness :
  cdp_block sample_cdp_block_noise = Ok None
  ∧ cdp_block sample_cdp_block_partial ≠ Ok None
  ∧ cdp_block sample_cdp_block = Ok (Some sample_cdp_entry).
Proof.
  pose proof (cdp_block_threshold sample_cdp_block_noise) as Hnoise.
  pose proof (cdp_block_threshold sample_cdp_block_partial) as Hpartial.
  pose proof (cdp_block_threshold sample_cdp_block) as Hfull.
  cbv zeta in *. split_and!.
  - apply Hnoise. vm_compute. lia.
  - apply Hpartial. vm_compute. lia.
  - apply Hfull; [vm_compute; reflexivity ..|].
    right. exists "10.0.0.1", (mkIPv4 167772161).
    split_and!; [vm_compute; reflexivity | vm_compute; reflexivity
                | reflexivity |].
    right. exists "10.0.0.9", (mkIPv4 167772169).
    split_and!; [vm_compute; reflexivity | vm_compute; reflexivity
                | reflexivity].
Defined.

(** C2, as stated, fails: three patterns match on the first block and no
    entry results; on the second the management pattern does not match
    and yet the management address of the entry is not null. *)
Lemma cdp_block_threshold_counterexample :
  ¬ ((3 ≤ matched_count cdp_patterns sample_cdp_block_partial)%nat →
     ∃ e, cdp_block sample_cdp_block_partial = Ok (Some e))
  ∧ ¬ (∀ e, cdp_block sample_cdp_block_entry_only = Ok (Some e) →
         match_fields cdp_patterns sample_cdp_block_entry_only
           !! "management_ip" = None →
         cdp_management_ip e = None).
Proof.
  split.
  - intros H. destruct H as [e He]; [vm_compute; lia |].
    vm_compute in He. discriminate He.
  - intros H.
    specialize (H (mkCiscoCDP "R1" (Some (mkIPv4 167772161)) "cisco WS-C3750"
      "GigabitEthernet0/1" "GigabitEthernet0/2" "full"
      (Some (mkIPv4 167772161)))).
    discriminate H; vm_compute; reflexivity.
Qed.

(** [cdp_management_ip_default] on the block with all seven fields. *)
Lemma cdp_management_ip_default_witness :
  cdp_management_ip sample_cdp_entry = Some (mkIPv4 167772169)
  ∧ is_Some (match_fields cdp_patterns sample_cdp_block !! "entry_ip").
Proof.
  assert (cdp_block sample_cdp_block = Ok (Some sample_cdp_entry)) as Hb
    by (vm_compute; reflexivity).
  pose proof (cdp_management_ip_default sample_cdp_block sample_cdp_entry Hb)
    as H.
  cbv zeta in H. destruct H as (Hm & _ & _ & Hneeds).
  split.
  - destruct (Hm "10.0.0.9") as (am & Ham & Heq); [vm_compute; reflexivity |].
    vm_compute in Ham. injection Ham as <-. exact Heq.
  - apply Hneeds. exists (VStr "10.0.0.9"). vm_compute. reflexivity.
Defined.

(** A management-address line alone: the entry-address pattern finds the
    same text, and the management address is not null. *)
Example management_line_only :
  cdp_block sample_cdp_block_management_only
  = Ok (Some (mkCiscoCDP "R1" (Some (mkIPv4 167772169)) "cisco WS-C3750"
                "GigabitEthernet0/1" "GigabitEthernet0/2" "full"
                (Some (mkIPv4 167772169)))).
Proof. vm_compute. reflexivity. Qed.

Example no_address_at_all :
  cdp_block sample_cdp_block_no_ip
  = Ok (Some (mkCiscoCDP "R1" None "cisco WS-C3750" "GigabitEthernet0/1"
                "GigabitEthernet0/2" "full" None)).
Proof. vm_compute. reflexivity. Qed.



(** A response without entries is returned as an empty list; the host
    name is read for the message and stays cached. *)
Example get_cdp_no_entries :
  observe (get_cdp (connected (sample_session (Some "Switch#") "" "" "")))
  = (Ok [], [], [], Some "Switch",
     Some [CallFindPrompt; CallMultiline ["show cdp neighbors detail"];
           CallFindPrompt; CallFindPrompt]).
Proof. vm_compute. reflexivity. Qed.

(** [hostname_memoized] on a session with a 20-character prompt. *)
Lemma hostname_memoized_witness :
  (hostname (connected long_prompt_session)).1 = Ok "ABCDEFGHIJKLMNOPQRS"
  ∧ hostname (hostname (connected long_prompt_session)).2
    = (Ok "ABCDEFGHIJKLMNOPQRS", (hostname (connected long_prompt_session)).2).
Proof.
  assert (∀ s : scripted,
            find_prompt s = (s_prompt s, s_logged CallFindPrompt s)) as Hp
    by reflexivity.
  pose proof (hostname_memoized (connected long_prompt_session)
                long_prompt_session long_prompt _ long_prompt _
                eq_refl eq_refl (Hp _) (Hp _) eq_refl) as H.
  cbv zeta in H. destruct H as (Hrun & _ & _ & Hlater & _).
  rewrite Hrun. split; [reflexivity |]. by apply Hlater.
Defined.

(** C8, as stated, fails: the host name read from a 20-character prompt
    is not its first 16 characters. *)
Lemma hostname_memoized_counterexample :
  String.length long_prompt = 20%nat
  ∧ (hostname (connected long_prompt_session)).1 ≠ Ok (Py.take 16 long_prompt)
  ∧ (hostname (connected long_prompt_session)).1 = Ok (Py.take 19 long_prompt).
Proof. split_and!; [reflexivity | vm_compute; discriminate | vm_compute; reflexivity]. Qed.

(** The second read of [hostname] sends nothing to the session. *)
Example hostname_second_read :
  observe (hostname (hostname (connected long_prompt_session)).2)
  = (Ok "ABCDEFGHIJKLMNOPQRS", [], [], Some "ABCDEFGHIJKLMNOPQRS",
     Some [CallFindPrompt; CallFindPrompt]).
Proof. vm_compute. reflexivity. Qed.

(** [ip_fields_parsing] on blocks with an invalid address, with no
    address and with an entry address alone, and on a fetch whose second
    block holds an invalid address. *)
Lemma ip_fields_parsing_witness :
  cdp_block sample_cdp_block_bad_ip = Raise AddressValueError
  ∧ cdp_block sample_cdp_block_no_ip ≠ Raise AddressValueError
  ∧ lldp_block sample_lldp_block_no_ip = Ok None
  ∧ lldp_block sample_lldp_block_bad_ip = Raise AddressValueError
  ∧ (∃ a, Ipaddress.IPv4Address_new "10.0.0.1" = Ok a
          ∧ cdp_entry_ip sample_cdp_entry_only = Some a
          ∧ cdp_management_ip sample_cdp_entry_only = Some a)
  ∧ get_cdp (connected cdp_bad_ip_session)
    = (Raise AddressValueError,
       upd_conn
         (Some (s_logged (CallMultiline ["show cdp neighbors detail"])
                  (s_logged CallFindPrompt cdp_bad_ip_session)))
         (connected cdp_bad_ip_session)).
Proof.
  pose proof (ip_fields_parsing (S := scripted) sample_cdp_block_bad_ip) as Hbad.
  pose proof (ip_fields_parsing (S := scripted) sample_cdp_block_no_ip) as Hnone.
  pose proof (ip_fields_parsing (S := scripted) sample_lldp_block_no_ip)
    as Hlnone.
  pose proof (ip_fields_parsing (S := scripted) sample_lldp_block_bad_ip)
    as Hlbad.
  pose proof (ip_fields_parsing (S := scripted) sample_cdp_block_entry_only)
    as Hentry.
  cbv zeta in *.
  assert (cdp_block sample_cdp_block_bad_ip = Raise AddressValueError) as Hraise.
  { apply Hbad. split; [vm_compute; lia |].
    exists "entry_ip", "999.1.1.1".
    split_and!; [by left | vm_compute; reflexivity | vm_compute; reflexivity]. }
  split_and!.
  - exact Hraise.
  - apply Hnone. vm_compute. reflexivity.
  - apply Hlnone. vm_compute. reflexivity.
  - apply Hlbad. split; [vm_compute; lia |].
    exists "256.0.0.1". split; vm_compute; reflexivity.
  - destruct Hentry as (_ & Hdefault & _).
    destruct (Hdefault "10.0.0.1" sample_cdp_entry_only)
      as (a & Ha & He & Hm & _);
      [vm_compute; reflexivity | vm_compute; reflexivity |].
    exists a. split_and!; [exact Ha | exact He |].
    apply Hm. vm_compute. reflexivity.
  - destruct (ip_fields_parsing (S := scripted)
                (sample_cdp_block_bad_ip +:+ Py.CRLF))
      as (_ & _ & _ & _ & _ & _ & _ & _ & _ & _ & Hfetch & _).
    apply (Hfetch (connected cdp_bad_ip_session) cdp_bad_ip_session "Switch#"
             (s_logged CallFindPrompt cdp_bad_ip_session)
             (s_reply cdp_bad_ip_session ["show cdp neighbors detail"])
             (s_logged (CallMultiline ["show cdp neighbors detail"])
                (s_logged CallFindPrompt cdp_bad_ip_session))
             AddressValueError [""] [sample_cdp_block]).
    + reflexivity.
    + reflexivity.
    + reflexivity.
    + vm_compute. reflexivity.
    + vm_compute. reflexivity.
    + repeat constructor. exists None. vm_compute. reflexivity.
    + vm_compute. reflexivity.
Defined.

(** C9, as stated, fails: an address text that is not a valid IPv4
    address is not turned into a null field, it raises, and no entry of
    the batch is returned. *)
Lemma ip_fields_parsing_counterexample :
  ¬ (∃ e, cdp_block sample_cdp_block_bad_ip = Ok (Some e)
          ∧ cdp_entry_ip e = None)
  ∧ ¬ (∃ entries,
         cdp_loop [sample_cdp_block_bad_ip; sample_cdp_block] [] = Ok entries)
  ∧ ¬ (∃ d, lldp_block sample_lldp_block_bad_ip = Ok d)
  ∧ observe (get_cdp (connected cdp_bad_ip_session))
    = (Raise AddressValueError, [], [], None,
       Some [CallFindPrompt; CallMultiline ["show cdp neighbors detail"]]).
Proof.
  split_and!.
  - intros (e & He & _). vm_compute in He. discriminate He.
  - intros (entries & He). vm_compute in He. discriminate He.
  - intros (d & Hd). vm_compute in Hd. discriminate Hd.
  - vm_compute. reflexivity.
Qed.

(** [lldp_management_ip_present] on a device that lists one neighbour. *)
Lemma lldp_management_ip_present_witness :
  sw_lldp (get_lldp (connected (lldp_session "R1"))).2 = [sample_lldp_entry]
  ∧ Forall (λ n, is_Some (nb_ip n)) (lldp_results [sample_lldp_entry]).
Proof.
  assert (get_lldp (connected (lldp_session "R1"))
          = (Ok [sample_lldp_entry],
             (get_lldp (connected (lldp_session "R1"))).2)) as Hrun.
  { rewrite (surjective_pairing (get_lldp _)) at 1.
    f_equal; vm_compute; reflexivity. }
  destruct (lldp_management_ip_present _ _ _ Hrun) as (Hset & _ & Hn & _).
  split; [exact Hset | exact Hn].
Defined.

(** [get_lldp] asserts only that a session object exists: on a session
    whose [find_prompt] gives [None] it does not raise
    [NotConnectedError], it returns the entries. *)
Example get_lldp_dead_session :
  (get_lldp (connected lldp_dead_session)).1 = Ok [sample_lldp_entry].
Proof. vm_compute. reflexivity. Qed.

(** The records of the two-neighbour listing. *)
Example lldp_loop_two :
  lldp_loop (lldp_blocks (Py.split Py.LF sample_lldp_output_two)) []
  = Ok sample_lldp_records_two.
Proof. vm_compute. reflexivity. Qed.

Example lldp_loop_one :
  lldp_loop (lldp_blocks (Py.split Py.LF (sample_lldp_output "R1"))) []
  = Ok [sample_lldp_record "R1"].
Proof. vm_compute. reflexivity. Qed.

(** [lldp_interface_enrichment] on a device that lists [R1] and [R2] in
    detail and only [R1] in the brief listing: the fetch raises and
    returns no entry, not even for [R1]; and on a device that lists
    [R1] in both: the fetch returns the entry of [R1] with the mapped
    interface. *)
Lemma lldp_interface_enrichment_witness :
  get_lldp (connected lldp_two_session)
  = (Raise ValidationError,
     upd_conn
       (Some (s_logged (CallMultiline ["show lldp neighbors"])
                (s_logged (CallMultiline ["show lldp neighbors detail"])
                   lldp_two_session)))
       (connected lldp_two_session))
  ∧ (∃ es, get_lldp (connected (lldp_session "R1"))
           = (Ok es,
              upd_lldp es
                (upd_conn
                   (Some (s_logged (CallMultiline ["show lldp neighbors"])
                            (s_logged
                               (CallMultiline ["show lldp neighbors detail"])
                               (lldp_session "R1"))))
                   (connected (lldp_session "R1"))))
           ∧ es = [sample_lldp_entry]).
Proof.
  split.
  - set (s1 := s_logged (CallMultiline ["show lldp neighbors detail"])
                 lldp_two_session).
    set (s2 := s_logged (CallMultiline ["show lldp neighbors"]) s1).
    assert (send_multiline ["show lldp neighbors detail"] lldp_two_session
            = (sample_lldp_output_two, s1)) as Hdetail by reflexivity.
    assert (send_multiline ["show lldp neighbors"] s1 = (sample_lldp_brief, s2))
      as Hbrief by reflexivity.
    destruct (lldp_interface_enrichment (connected lldp_two_session)
                lldp_two_session _ _ sample_lldp_records_two _ s1 _ _
                eq_refl Hdetail lldp_loop_two eq_refl eq_refl Hbrief)
      as (_ & _ & Hfail).
    apply Hfail.
    exists (<["management_ip" := VIp (mkIPv4 167772162)]>
              (sample_lldp_record "R2")), "R2".
    split_and!.
    + apply list_elem_of_further, list_elem_of_here.
    + vm_compute. reflexivity.
    + vm_compute. reflexivity.
  - set (s1 := s_logged (CallMultiline ["show lldp neighbors detail"])
                 (lldp_session "R1")).
    set (s2 := s_logged (CallMultiline ["show lldp neighbors"]) s1).
    assert (send_multiline ["show lldp neighbors detail"] (lldp_session "R1")
            = (sample_lldp_output "R1", s1)) as Hdetail by reflexivity.
    assert (send_multiline ["show lldp neighbors"] s1 = (sample_lldp_brief, s2))
      as Hbrief by reflexivity.
    destruct (lldp_interface_enrichment (connected (lldp_session "R1"))
                (lldp_session "R1") _ _ [sample_lldp_record "R1"] _ s1 _ _
                eq_refl Hdetail lldp_loop_one eq_refl eq_refl Hbrief)
      as (_ & Hall & _).
    destruct Hall as (es & Hrun & Hes).
    { intros item n ->%list_elem_of_singleton Hname.
      assert (sample_lldp_record "R1" !! "system_name" = Some (VStr "R1")) as Hn
        by (vm_compute; reflexivity).
      rewrite Hn in Hname. injection Hname as <-.
      exists "Gi0/1". vm_compute. reflexivity. }
    exists es. split; [exact Hrun |].
    apply Forall2_cons_inv_l in Hes
      as (e & es' & (c & p & n & a & v & Hc & Hp & Hn & Ha & Hv & ->) & Hnil & ->).
    apply Forall2_nil_inv_l in Hnil as ->.
    assert (sample_lldp_record "R1" !! "chassis_id" = Some (VStr "0011.2233.4455"))
      as Hc' by (vm_compute; reflexivity).
    assert (sample_lldp_record "R1" !! "port_id" = Some (VStr "Gi0/2"))
      as Hp' by (vm_compute; reflexivity).
    assert (sample_lldp_record "R1" !! "system_name" = Some (VStr "R1"))
      as Hn' by (vm_compute; reflexivity).
    assert (sample_lldp_record "R1" !! "management_ip"
            = Some (VIp (mkIPv4 167772161))) as Ha' by (vm_compute; reflexivity).
    rewrite Hc' in Hc. rewrite Hp' in Hp. rewrite Hn' in Hn. rewrite Ha' in Ha.
    injection Hc as <-. injection Hp as <-. injection Hn as <-.
    injection Ha as <-.
    assert (local_intf_mapping (Py.split Py.LF sample_lldp_brief) !! "R1"
            = Some "Gi0/1") as Hi by (vm_compute; reflexivity).
    rewrite Hi in Hv. injection Hv as <-. reflexivity.
Defined.

(** The same on a device that lists only [R2] in detail: the detail parse
    keeps the record, the brief listing has no key [R2], and [get_lldp]
    returns no entry for the record. *)
Example get_lldp_unlisted_neighbor :
  lldp_loop (lldp_blocks (Py.split Py.LF (sample_lldp_output "R2"))) []
  = Ok [sample_lldp_record "R2"]
  ∧ local_intf_mapping (Py.split Py.LF sample_lldp_brief) !! "R2" = None
  ∧ observe (get_lldp (connected (lldp_session "R2")))
    = (Raise ValidationError, [], [], None,
       Some [ CallMultiline ["show lldp neighbors detail"];
              CallMultiline ["show lldp neighbors"] ]).
Proof. split_and!; vm_compute; reflexivity. Qed.

End Runs.

(** * Further properties of the code *)

Local Set Warnings "-clear-no-such-hyp".


(** * connection.py: the class mapper *)

Section MapperFacts.
Context {C : Type}.
Implicit Types (d items : list (string * C)) (acc : gmap string C).

Lemma sapp_length_ne (k t : string) : t ≠ "" → k +:+ t ≠ k.
Proof.
  intros Ht Heq. apply (f_equal String.length) in Heq.
  rewrite slength_app in Heq. destruct t; [done | simpl in Heq; lia].
Qed.

(** A text ending in [t] has [t] as its last characters. *)
Lemma sapp_suffix (k t u : string) :
  k +:+ t = u → Py.drop (String.length u - String.length t) u = t.
Proof.
  intros <-. rewrite slength_app.
  replace (String.length k + String.length t - String.length t)%nat
    with (String.length k) by lia.
  apply drop_app.
Qed.

Lemma dict_set_keys key (value : C) d k :
  k ∈ (Connection.dict_set key value d).*1 ↔ k = key ∨ k ∈ d.*1.
Proof.
  induction d as [|[k' v'] d IH]; simpl.
  - rewrite list_elem_of_singleton, elem_of_nil. naive_solver.
  - destruct (String.eqb_spec k' key) as [->|Hne]; simpl.
    + rewrite !elem_of_cons. naive_solver.
    + rewrite !elem_of_cons, IH. naive_solver.
Qed.

Lemma dict_set_NoDup key (value : C) d :
  NoDup d.*1 → NoDup (Connection.dict_set key value d).*1.
Proof.
  induction d as [|[k' v'] d IH]; simpl; intros Hnd.
  - apply NoDup_singleton.
  - apply NoDup_cons in Hnd as [Hk Hnd].
    destruct (String.eqb_spec k' key) as [->|Hne]; simpl.
    + by apply NoDup_cons.
    + apply NoDup_cons. split; [|by apply IH].
      rewrite dict_set_keys. naive_solver.
Qed.

Lemma dict_set_elem key (value : C) d :
  (key, value) ∈ Connection.dict_set key value d.
Proof.
  induction d as [|[k' v'] d IH]; simpl; [apply list_elem_of_here |].
  destruct (String.eqb_spec k' key); [apply list_elem_of_here |].
  by apply list_elem_of_further.
Qed.

Lemma dict_set_new key (value : C) d :
  key ∉ d.*1 → Connection.dict_set key value d = d ++ [(key, value)].
Proof.
  induction d as [|[k' v'] d IH]; simpl; [done |].
  intros [Hne Hnotin]%not_elem_of_cons.
  destruct (String.eqb_spec k' key) as [->|_]; [done |]. by rewrite IH.
Qed.

Lemma mapper_step_lookup acc (kv : string * C) k :
  Connection.mapper_step acc kv !! k
  = if decide (k = kv.1 +:+ "_ssh") then Some kv.2
    else if decide (k = kv.1) then Some kv.2 else acc !! k.
Proof.
  unfold Connection.mapper_step. rewrite !lookup_insert.
  repeat case_decide; congruence.
Qed.

Lemma mapper_fold_is_Some items acc k :
  is_Some (foldl Connection.mapper_step acc items !! k) ↔
  is_Some (acc !! k) ∨ ∃ b, b ∈ items.*1 ∧ (k = b ∨ k = b +:+ "_ssh").
Proof.
  revert acc. induction items as [|[b v] items IH]; intros acc; simpl.
  - setoid_rewrite elem_of_nil. naive_solver.
  - rewrite IH, mapper_step_lookup. simpl.
    setoid_rewrite elem_of_cons.
    repeat case_decide; split; try naive_solver.
Qed.

Lemma mapper_fold_untouched items acc k :
  (∀ b, b ∈ items.*1 → k ≠ b ∧ k ≠ b +:+ "_ssh") →
  foldl Connection.mapper_step acc items !! k = acc !! k.
Proof.
  revert acc. induction items as [|[b v] items IH]; intros acc Hk; [done |].
  simpl. rewrite IH.
  - rewrite mapper_step_lookup. simpl.
    destruct (Hk b) as [? ?]; [simpl; apply list_elem_of_here |].
    by rewrite !decide_False.
  - intros b' Hb'. apply Hk. simpl. by apply list_elem_of_further.
Qed.

(** A key that is nobody's [_ssh] variant keeps the class of its item. *)
Lemma mapper_fold_plain items acc k v :
  NoDup items.*1 → (k, v) ∈ items →
  (∀ b, b ∈ items.*1 → k ≠ b +:+ "_ssh") →
  foldl Connection.mapper_step acc items !! k = Some v.
Proof.
  revert acc. induction items as [|[b v'] items IH]; intros acc Hnd Hin Halt.
  { by apply elem_of_nil in Hin. }
  simpl in Hnd. apply NoDup_cons in Hnd as [Hb Hnd].
  apply elem_of_cons in Hin as [[= <- <-]|Hin]; simpl.
  - rewrite mapper_fold_untouched.
    + rewrite mapper_step_lookup. simpl.
      rewrite decide_False by (apply not_eq_sym, sapp_length_ne; done).
      by rewrite decide_True.
    + intros b Hbin. split; [by intros -> |].
      apply Halt. simpl. by apply list_elem_of_further.
  - apply IH; [done | done |].
    intros b' Hb'. apply Halt. simpl. by apply list_elem_of_further.
Qed.

End MapperFacts.

Section MapperTheorems.
Context {C : Type}.
Variable CustomCiscoIosBase : C.
Variable netmiko_base : list (string * C).

Lemma base_keys k :
  k ∈ (Connection.CLASS_MAPPER_BASE CustomCiscoIosBase netmiko_base).*1
  ↔ k = "custom_cisco_ios" ∨ k ∈ netmiko_base.*1.
Proof. apply dict_set_keys. Qed.

Lemma mapper_is_Some k :
  is_Some (Connection.CLASS_MAPPER CustomCiscoIosBase netmiko_base !! k) ↔
  ∃ b, (b = "custom_cisco_ios" ∨ b ∈ netmiko_base.*1)
       ∧ (k = b ∨ k = b +:+ "_ssh").
Proof.
  unfold Connection.CLASS_MAPPER. rewrite mapper_fold_is_Some.
  rewrite lookup_empty. setoid_rewrite base_keys.
  split; [intros [[? [=]]|?]; done | by right].
Qed.

Lemma platforms_elem k :
  k ∈ Connection.platforms CustomCiscoIosBase netmiko_base
  ↔ is_Some (Connection.CLASS_MAPPER CustomCiscoIosBase netmiko_base !! k).
Proof.
  unfold Connection.platforms, Connection.sorted.
  rewrite merge_sort_Permutation, list_elem_of_fmap.
  split.
  - intros ([k' v] & -> & Hin). apply elem_of_map_to_list in Hin. eauto.
  - intros [v Hv]. exists (k, v). split; [done |].
    by apply elem_of_map_to_list.
Qed.

(** X1: the keys of [CLASS_MAPPER] are the keys of [CLASS_MAPPER_BASE],
    which are netmiko's and ["custom_cisco_ios"], each with and without
    the suffix ["_ssh"]; [platforms] lists exactly these keys, each once,
    in ascending order. *)
Theorem class_mapper_platforms (k : string) :
  (is_Some (Connection.CLASS_MAPPER CustomCiscoIosBase netmiko_base !! k) ↔
     ∃ b, (b = "custom_cisco_ios" ∨ b ∈ netmiko_base.*1)
          ∧ (k = b ∨ k = b +:+ "_ssh"))
  ∧ (k ∈ Connection.platforms CustomCiscoIosBase netmiko_base ↔
       is_Some (Connection.CLASS_MAPPER CustomCiscoIosBase netmiko_base !! k))
  ∧ Sorted String.le (Connection.platforms CustomCiscoIosBase netmiko_base)
  ∧ NoDup (Connection.platforms CustomCiscoIosBase netmiko_base).
Proof.
  split_and!.
  - apply mapper_is_Some.
  - apply platforms_elem.
  - apply Sorted_merge_sort. apply _.
  - unfold Connection.platforms, Connection.sorted.
    rewrite merge_sort_Permutation. apply NoDup_fst_map_to_list.
Qed.

(** X2: whatever netmiko's mapping holds, ["custom_cisco_ios"] dispatches
    to [CustomCiscoIosBase], so [ConnectHandler] instantiates that class
    for the device type [CiscoSwitch.connect] passes; every key of
    netmiko's that is not the [_ssh] variant of another key keeps its own
    class; and when netmiko has no entry of that name,
    ["custom_cisco_ios_ssh"] dispatches to [CustomCiscoIosBase] too. *)
Theorem custom_cisco_ios_dispatch :
  NoDup netmiko_base.*1 →
  Connection.ssh_dispatcher CustomCiscoIosBase netmiko_base "custom_cisco_ios"
  = Some CustomCiscoIosBase
  ∧ Connection.ConnectHandler CustomCiscoIosBase netmiko_base
      (Some (Some "custom_cisco_ios"))
    = Connection.Instantiates CustomCiscoIosBase
  ∧ (∀ k v, (k, v) ∈ netmiko_base → k ≠ "custom_cisco_ios" →
       (∀ b, is_Some
               (Connection.CLASS_MAPPER CustomCiscoIosBase netmiko_base !! b) →
             k ≠ b +:+ "_ssh") →
       Connection.ssh_dispatcher CustomCiscoIosBase netmiko_base k = Some v)
  ∧ ("custom_cisco_ios" ∉ netmiko_base.*1 →
       Connection.ssh_dispatcher CustomCiscoIosBase netmiko_base
         "custom_cisco_ios_ssh" = Some CustomCiscoIosBase).
Proof.
  intros Hnd.
  assert (NoDup (Connection.CLASS_MAPPER_BASE CustomCiscoIosBase netmiko_base).*1)
    as Hbase by by apply dict_set_NoDup.
  assert (Connection.CLASS_MAPPER CustomCiscoIosBase netmiko_base
            !! "custom_cisco_ios" = Some CustomCiscoIosBase) as Hcustom.
  { apply (mapper_fold_plain _ ∅ _ _ Hbase); [apply dict_set_elem |].
    intros b _ Heq. symmetry in Heq. apply sapp_suffix in Heq.
    vm_compute in Heq. discriminate Heq. }
  split_and!.
  - exact Hcustom.
  - unfold Connection.ConnectHandler, Connection.ssh_dispatcher.
    rewrite bool_decide_eq_true_2 by (apply platforms_elem; eauto).
    by rewrite Hcustom.
  - intros k v Hin Hne Halt.
    apply (mapper_fold_plain _ ∅ _ _ Hbase).
    + clear Halt Hnd Hbase Hcustom.
      unfold Connection.CLASS_MAPPER_BASE.
      induction netmiko_base as [|[k' v'] d IH]; simpl.
      { by apply elem_of_nil in Hin. }
      apply elem_of_cons in Hin as [[= <- <-]|Hin].
      * destruct (String.eqb_spec k "custom_cisco_ios"); [done |].
        apply list_elem_of_here.
      * destruct (String.eqb_spec k' "custom_cisco_ios").
        -- by apply list_elem_of_further.
        -- apply list_elem_of_further. by apply IH.
    + intros b Hb. apply Halt. apply mapper_is_Some.
      apply base_keys in Hb. eauto.
  - intros Hnew. unfold Connection.ssh_dispatcher, Connection.CLASS_MAPPER,
      Connection.CLASS_MAPPER_BASE.
    rewrite dict_set_new by done. rewrite foldl_app.
    cbn [foldl]. rewrite mapper_step_lookup.
    by rewrite decide_True.
Qed.

(** X3: [ConnectHandler] raises [ValueError] exactly for a device type
    that is not a key of [CLASS_MAPPER] ([None] included) and otherwise
    instantiates the class stored under the key; the dispatcher's lookup
    cannot fail after the membership test.  The message lists the telnet
    platforms when the device type mentions telnet, else the base
    platforms. *)
Theorem ConnectHandler_outcome (device_type : string) :
  Connection.ConnectHandler CustomCiscoIosBase netmiko_base
    (Some (Some device_type))
  = match Connection.CLASS_MAPPER CustomCiscoIosBase netmiko_base
          !! device_type with
    | Some ConnectionClass => Connection.Instantiates ConnectionClass
    | None =>
        Connection.unsupported
          (if Py.contains "telnet" device_type
           then Connection.telnet_platforms_str CustomCiscoIosBase netmiko_base
           else Connection.platforms_str CustomCiscoIosBase netmiko_base)
    end
  ∧ Connection.ConnectHandler CustomCiscoIosBase netmiko_base (Some None)
    = Connection.unsupported
        (Connection.platforms_str CustomCiscoIosBase netmiko_base).
Proof.
  split; [|done].
  unfold Connection.ConnectHandler, Connection.ssh_dispatcher.
  destruct (Connection.CLASS_MAPPER CustomCiscoIosBase netmiko_base
              !! device_type) as [c|] eqn:Hl.
  - by rewrite bool_decide_eq_true_2 by (apply platforms_elem; eauto).
  - rewrite bool_decide_eq_false_2; [done |].
    rewrite platforms_elem, Hl. by apply is_Some_None.
Qed.

End MapperTheorems.

(** * Rows and blocks *)

Section SplitJoin.

Lemma split_go_skip sep t cur s :
  Py.split_go sep (String.length t) cur (t +:+ s) = Py.split_go sep 0 cur s.
Proof. induction t as [|c t IH]; [done | exact IH]. Qed.

Lemma split_go_cons sep skip cur c s :
  Py.split_go sep skip cur (String c s)
  = match skip with
    | S k => Py.split_go sep k cur s
    | O =>
        if String.prefix sep (String c s)
        then cur :: Py.split_go sep (String.length sep - 1) "" s
        else Py.split_go sep 0 (cur +:+ String c "") s
    end.
Proof. reflexivity. Qed.

Lemma split_go_nonempty sep skip cur s : Py.split_go sep skip cur s ≠ [].
Proof.
  revert skip cur. induction s as [|c s IH]; intros skip cur; [done |].
  rewrite split_go_cons. destruct skip; [|apply IH].
  destruct (String.prefix sep (String c s)); [done | apply IH].
Qed.

Lemma join_cons sep x l :
  l ≠ [] → Py.join sep (x :: l) = x +:+ sep +:+ Py.join sep l.
Proof. by destruct l. Qed.

Lemma split_go_join sep n : sep ≠ "" → ∀ s cur,
  (String.length s ≤ n)%nat →
  Py.join sep (Py.split_go sep 0 cur s) = cur +:+ s.
Proof.
  intros Hsep. induction n as [|n IH]; intros s cur Hlen.
  { destruct s; [|simpl in Hlen; lia]. simpl. by rewrite sapp_nil_r. }
  destruct s as [|c s]; [simpl; by rewrite sapp_nil_r |].
  simpl in Hlen.
  rewrite split_go_cons.
  destruct (String.prefix sep (String c s)) eqn:Hp.
  - apply prefix_split in Hp.
    destruct sep as [|a sep']; [done |].
    simpl in Hp. injection Hp as -> Hs.
    rewrite join_cons by apply split_go_nonempty.
    replace (String.length (String a sep') - 1)%nat with (String.length sep')
      by (simpl; lia).
    revert Hs Hlen. generalize (Py.drop (String.length sep') s) as rest.
    intros rest -> Hlen. rewrite slength_app in Hlen.
    rewrite split_go_skip, IH by lia. reflexivity.
  - rewrite IH by lia. by rewrite sapp_assoc.
Qed.

Lemma split_join sep s : sep ≠ "" → Py.join sep (Py.split sep s) = s.
Proof. intros Hsep. by apply (split_go_join sep (String.length s)). Qed.

(** X4: cutting the device output in rows and the joined rows in blocks
    loses nothing: the rows joined by line feeds give the output back,
    and the blocks of either parser joined by its separator line give
    back the stripped text they were cut from; there is always at least
    one block. *)
Theorem blocks_rejoin (out : string) (rows : list string) :
  Py.join Py.LF (Py.split Py.LF out) = out
  ∧ Py.join ("-------------------------" +:+ Py.CRLF) (cdp_blocks rows)
    = Py.strip (Py.join Py.CRLF rows)
  ∧ Py.join ("---------------------------------------------" +:+ Py.CRLF)
      (lldp_blocks rows)
    = Py.strip (Py.join Py.CRLF rows)
  ∧ cdp_blocks rows ≠ [] ∧ lldp_blocks rows ≠ [].
Proof.
  split_and!; try (by apply split_join); apply split_go_nonempty.
Qed.

End SplitJoin.

(** * The protocol models and the custom driver *)

Section Models.

(** X5: equality of the protocol models beyond the cross-protocol case:
    two entries of one class are equal exactly when all their fields
    are, nothing else is equal to an entry, and two CDP entries equal
    to one LLDP entry agree on device id and management address
    without having to be equal themselves. *)
Theorem models_eq_classes (c c' : CiscoCDP) (l l' : CiscoLLDP) :
  (CiscoCDP_eq c (ObjCDP c') = true ↔ c = c')
  ∧ (CiscoLLDP_eq l (ObjLLDP l') = true ↔ l = l')
  ∧ CiscoCDP_eq c ObjOther = false ∧ CiscoLLDP_eq l ObjOther = false
  ∧ (CiscoCDP_eq c (ObjLLDP l) = true → CiscoLLDP_eq l (ObjCDP c') = true →
       cdp_device_id c = cdp_device_id c'
       ∧ cdp_management_ip c = cdp_management_ip c')
  ∧ (cdp_device_id c = lldp_system_name l →
     cdp_management_ip c = lldp_management_ip l →
     cdp_device_id c' = lldp_system_name l →
     cdp_management_ip c' = lldp_management_ip l →
     cdp_platform c ≠ cdp_platform c' →
       CiscoCDP_eq c (ObjLLDP l) = true ∧ CiscoLLDP_eq l (ObjCDP c') = true
       ∧ CiscoCDP_eq c (ObjCDP c') = false).
Proof.
  unfold CiscoCDP_eq, CiscoLLDP_eq. split_and!.
  - apply bool_decide_eq_true.
  - apply bool_decide_eq_true.
  - done.
  - done.
  - rewrite !andb_true_iff, !bool_decide_eq_true. intros [-> ->] [-> ->]. done.
  - intros H1 H2 H3 H4 Hne.
    rewrite !andb_true_iff, !bool_decide_eq_true, bool_decide_eq_false.
    split_and!; try done. by intros ->.
Qed.

Lemma take_take n t : Py.take n (Py.take n t) = Py.take n t.
Proof.
  revert t. induction n as [|n IH]; intros [|c t]; simpl; [done..|].
  by rewrite IH.
Qed.

Lemma take_prefix n t : ∃ rest, t = Py.take n t +:+ rest.
Proof.
  revert t. induction n as [|n IH]; intros t.
  - by exists t.
  - destruct t as [|c t]; [by exists "" |].
    destruct (IH t) as [rest Hrest]. exists rest. simpl. by rewrite <-Hrest.
Qed.

Lemma take_all n t : (String.length t ≤ n)%nat → Py.take n t = t.
Proof.
  revert t. induction n as [|n IH]; intros [|c t]; simpl; try done; [lia |].
  intros Hlen. rewrite IH; [done | lia].
Qed.

(** X6: the base prompt the custom driver keeps is the beginning of the
    inherited one, at most 16 characters long: a prompt of up to 16
    characters is kept whole, a longer one loses everything after the
    sixteenth character, and cutting twice changes nothing more. *)
Theorem set_base_prompt_cut (base_prompt : string) :
  (∃ rest, base_prompt = set_base_prompt base_prompt +:+ rest)
  ∧ String.length (set_base_prompt base_prompt)
    = (16 `min` String.length base_prompt)%nat
  ∧ ((String.length base_prompt ≤ 16)%nat →
       set_base_prompt base_prompt = base_prompt)
  ∧ set_base_prompt (set_base_prompt base_prompt) = set_base_prompt base_prompt.
Proof.
  unfold set_base_prompt. split_and!.
  - apply take_prefix.
  - apply length_take.
  - apply take_all.
  - apply take_take.
Qed.

End Models.


(** * What each call of the facade leaves alone *)

Section Frames.
Context {S : Type} `{!RemoteSession S}.
Implicit Types (sw : CiscoSwitch S) (s : S).

Lemma keeps_refl c l n sw : keeps c l n sw sw.
Proof. by unfold keeps. Qed.

Lemma keeps_trans c l n sw1 sw2 sw3 :
  keeps c l n sw1 sw2 → keeps c l n sw2 sw3 → keeps c l n sw1 sw3.
Proof.
  unfold keeps. intros (Hi & Hc & Hl & Hn & Hh) (Hi' & Hc' & Hl' & Hn' & Hh').
  split_and!.
  - congruence.
  - intros Ht. by rewrite Hc', Hc.
  - intros Ht. by rewrite Hl', Hl.
  - intros Ht. by rewrite Hn', Hn.
  - intros h Hcached. by apply Hh', Hh.
Qed.

Lemma keeps_weaken c l n c' l' n' sw sw' :
  (c' = true → c = true) → (l' = true → l = true) → (n' = true → n = true) →
  keeps c l n sw sw' → keeps c' l' n' sw sw'.
Proof. unfold keeps. naive_solver. Qed.

Lemma frames_weaken {A} c l n c' l' n' (m : M S A) :
  (c' = true → c = true) → (l' = true → l = true) → (n' = true → n = true) →
  frames (keeps c l n) m → frames (keeps c' l' n') m.
Proof. unfold frames. eauto using keeps_weaken. Qed.

Lemma frames_ret {A} c l n (a : A) : frames (keeps c l n) (mret a : M S A).
Proof. intros sw r sw' [= <- <-]. apply keeps_refl. Qed.

Lemma frames_raise {A} c l n e : frames (keeps c l n) (raise e : M S A).
Proof. intros sw r sw' [= <- <-]. apply keeps_refl. Qed.

Lemma frames_lift {A} c l n (x : result A) :
  frames (keeps c l n) (lift x : M S A).
Proof. intros sw r sw' [= <- <-]. apply keeps_refl. Qed.

Lemma frames_gets {A} c l n (f : CiscoSwitch S → A) :
  frames (keeps c l n) (gets f : M S A).
Proof. intros sw r sw' [= <- <-]. apply keeps_refl. Qed.

Lemma frames_bind {A B} c l n (m : M S A) (f : A → M S B) :
  frames (keeps c l n) m → (∀ a, frames (keeps c l n) (f a)) →
  frames (keeps c l n) (m ≫= f).
Proof.
  intros Hm Hf sw r sw'. unfold mbind, M_bind.
  destruct (m sw) as [[a|e] sw1] eqn:H1.
  - intros H2. eapply keeps_trans; [by eapply Hm | by eapply Hf].
  - intros [= <- <-]. by eapply Hm.
Qed.

Lemma frames_upd_conn (c : option S) :
  frames (keeps true true true) (set_conn c).
Proof. intros sw r sw' [= <- <-]. by unfold keeps. Qed.

Lemma frames_call_conn {A} (method : S → A * S) :
  frames (keeps true true true) (call_conn method).
Proof.
  unfold call_conn. apply frames_bind; [apply frames_gets |].
  intros [s|]; [|apply frames_raise].
  destruct (method s) as [a s'].
  apply frames_bind; [apply frames_upd_conn | intros; apply frames_ret].
Qed.

Lemma frames_check_connection : frames (keeps true true true) _check_connection.
Proof.
  unfold _check_connection. apply frames_bind; [apply frames_call_conn |].
  intros [p|]; [apply frames_ret | apply frames_raise].
Qed.

Lemma frames_connect id_ pw secret :
  frames (keeps true true true) (connect id_ pw secret).
Proof.
  unfold connect. apply frames_bind; [apply frames_gets |]. intros ip.
  destruct (ConnectHandler _); [apply frames_upd_conn | apply frames_raise].
Qed.

Lemma frames_disconnect : frames (keeps true true true) disconnect.
Proof.
  unfold disconnect.
  apply frames_bind; [apply frames_check_connection |].
  intros _. apply frames_call_conn.
Qed.

Lemma frames_go_enable_mode : frames (keeps true true true) go_enable_mode.
Proof.
  unfold go_enable_mode.
  apply frames_bind; [apply frames_check_connection |].
  intros _. apply frames_call_conn.
Qed.

Lemma frames_config_command send line :
  frames (keeps true true true) (config_command send line).
Proof.
  unfold config_command.
  apply frames_bind; [apply frames_check_connection |]. intros _.
  apply frames_bind; [apply frames_call_conn |]. intros _.
  apply frames_bind; [apply frames_call_conn |]. intros out.
  apply frames_ret.
Qed.

Lemma frames_neighbors : frames (keeps true true true) neighbors.
Proof.
  unfold neighbors.
  apply frames_bind; [apply frames_check_connection |]. intros _.
  apply frames_bind; [apply frames_gets |]. intros cdp.
  apply frames_bind; [apply frames_gets |]. intros lldp.
  apply frames_ret.
Qed.

Lemma frames_hostname : frames (keeps true true false) hostname.
Proof.
  intros sw r sw' Hrun.
  destruct (cached_hostname sw) as [h|] eqn:Hh.
  { rewrite (hostname_cached _ _ Hh) in Hrun. injection Hrun as <- <-.
    apply keeps_refl. }
  unfold hostname, mbind, M_bind, gets in Hrun. rewrite Hh in Hrun.
  destruct (_check_connection sw) as [[[]|e] sw1] eqn:Hchk.
  - apply frames_check_connection in Hchk.
    destruct (call_conn find_prompt sw1) as [[[p|]|e] sw2] eqn:Hcall;
      apply frames_call_conn in Hcall; injection Hrun as <- <-.
    + destruct Hchk as (Hi & Hc & Hl & Hn & _), Hcall as (Hi' & Hc' & Hl' & Hn' & _).
      unfold keeps. simpl.
      split_and!; [congruence | intros _; by rewrite Hc', Hc
                  | intros _; by rewrite Hl', Hl | done | congruence].
    + eapply keeps_weaken, keeps_trans; [..| exact Hchk | exact Hcall]; done.
    + eapply keeps_weaken, keeps_trans; [..| exact Hchk | exact Hcall]; done.
  - injection Hrun as <- <-. apply frames_check_connection in Hchk.
    eapply keeps_weaken; [..| exact Hchk]; done.
Qed.

Lemma frames_report_if_empty {A} (l : list A) :
  frames (keeps true true false) (report_if_empty l).
Proof.
  destruct l; simpl; [|apply frames_ret].
  apply frames_bind; [apply frames_hostname | intros; apply frames_ret].
Qed.

Lemma frames_get_cdp : frames (keeps false true false) get_cdp.
Proof.
  unfold get_cdp.
  apply frames_bind.
  { eapply frames_weaken; [..| apply frames_check_connection]; done. }
  intros _. apply frames_bind.
  { eapply frames_weaken; [..| apply frames_call_conn]; done. }
  intros out. case_match; [apply frames_raise |].
  apply frames_bind; [apply frames_lift |]. intros result.
  apply frames_bind.
  { eapply frames_weaken; [..| apply frames_report_if_empty]; done. }
  intros _. apply frames_bind; [|intros; apply frames_ret].
  intros sw r sw' [= <- <-]. by unfold keeps.
Qed.

Lemma frames_get_lldp : frames (keeps true false false) get_lldp.
Proof.
  unfold get_lldp.
  apply frames_bind; [apply frames_gets |].
  intros [s|]; [|apply frames_raise].
  apply frames_bind.
  { eapply frames_weaken; [..| apply frames_call_conn]; done. }
  intros out. apply frames_bind; [apply frames_lift |]. intros detail.
  apply frames_bind.
  { eapply frames_weaken; [..| apply frames_report_if_empty]; done. }
  intros _. apply frames_bind.
  { eapply frames_weaken; [..| apply frames_call_conn]; done. }
  intros brief. apply frames_bind; [apply frames_lift |]. intros result.
  apply frames_bind; [|intros; apply frames_ret].
  intros sw r sw' [= <- <-]. by unfold keeps.
Qed.

Lemma frames_run {A} R (m : M S A) sw : frames R m → R sw (m sw).2.
Proof. intros Hm. apply (Hm sw (m sw).1). apply surjective_pairing. Qed.

Lemma run_op_keeps (o : op) sw :
  keeps (bool_decide (o ≠ OpGetCdp)) (bool_decide (o ≠ OpGetLldp))
        (bool_decide (o ≠ OpHostname ∧ o ≠ OpGetCdp ∧ o ≠ OpGetLldp))
        sw (run_op o sw).
Proof.
  destruct o; simpl;
    first [ by apply frames_run, frames_connect
          | by apply frames_run, frames_disconnect
          | by apply frames_run, frames_hostname
          | by apply frames_run, frames_neighbors
          | by apply frames_run, frames_go_enable_mode
          | by apply frames_run, frames_config_command
          | by apply frames_run, frames_get_cdp
          | by apply frames_run, frames_get_lldp ].
Qed.

(** X7: no call changes the address of the switch; only [get_cdp] writes
    the stored CDP list, only [get_lldp] the stored LLDP list, and only
    [hostname], [get_cdp] and [get_lldp] (for their message) the cached
    host name. *)
Theorem op_frame (o : op) sw :
  sw_ip (run_op o sw) = sw_ip sw
  ∧ (o ≠ OpGetCdp → sw_cdp (run_op o sw) = sw_cdp sw)
  ∧ (o ≠ OpGetLldp → sw_lldp (run_op o sw) = sw_lldp sw)
  ∧ (o ≠ OpHostname → o ≠ OpGetCdp → o ≠ OpGetLldp →
       sw_hostname (run_op o sw) = sw_hostname sw).
Proof.
  destruct (run_op_keeps o sw) as (Hi & Hc & Hl & Hn & _).
  split_and!; [done | | |].
  - intros. by apply Hc, bool_decide_eq_true.
  - intros. by apply Hl, bool_decide_eq_true.
  - intros. by apply Hn, bool_decide_eq_true.
Qed.

(** X8: once a non-empty host name is cached, no sequence of calls
    changes it, and [hostname] returns it without touching the object
    or the session. *)
Theorem hostname_cached_forever (ops : list op) sw h :
  cached_hostname sw = Some h →
  cached_hostname (run_ops ops sw) = Some h
  ∧ hostname (run_ops ops sw) = (Ok h, run_ops ops sw).
Proof.
  intros Hh.
  assert (cached_hostname (run_ops ops sw) = Some h) as Hlater.
  { revert sw Hh. induction ops as [|o ops IH]; intros sw Hh; [done |].
    simpl. apply IH. by apply (run_op_keeps o sw). }
  split; [done | by apply hostname_cached].
Qed.

Lemma get_cdp_stored sw :
  match (get_cdp sw).1 with
  | Ok es => sw_cdp (get_cdp sw).2 = es
  | Raise _ => sw_cdp (get_cdp sw).2 = sw_cdp sw
  end.
Proof.
  unfold get_cdp, mbind, M_bind.
  destruct (_check_connection sw) as [[[]|e] sw1] eqn:Hchk;
    apply frames_check_connection in Hchk as (_ & Hc1 & _); [|by apply Hc1].
  destruct (call_conn _ sw1) as [[out|e] sw2] eqn:Hcall;
    apply frames_call_conn in Hcall as (_ & Hc2 & _);
    [|simpl; by rewrite Hc2, Hc1].
  destruct (existsb _ _); [simpl; by rewrite Hc2, Hc1 |].
  unfold lift. destruct (cdp_loop _ []) as [es|e]; [|simpl; by rewrite Hc2, Hc1].
  destruct (report_if_empty es sw2) as [[[]|e] sw3] eqn:Hrep;
    apply frames_report_if_empty in Hrep as (_ & Hc3 & _);
    [done | simpl; by rewrite Hc3, Hc2, Hc1].
Qed.

Lemma get_lldp_stored sw :
  match (get_lldp sw).1 with
  | Ok es => sw_lldp (get_lldp sw).2 = es
  | Raise _ => sw_lldp (get_lldp sw).2 = sw_lldp sw
  end.
Proof.
  unfold get_lldp, mbind, M_bind, gets.
  destruct (sw_conn sw) as [s|]; [|done].
  destruct (call_conn _ sw) as [[out|e] sw1] eqn:Hcall;
    apply frames_call_conn in Hcall as (_ & _ & Hl1 & _); [|by apply Hl1].
  unfold lift.
  destruct (lldp_loop _ []) as [detail|e]; [|by apply Hl1].
  destruct (report_if_empty detail sw1) as [[[]|e] sw2] eqn:Hrep;
    apply frames_report_if_empty in Hrep as (_ & _ & Hl2 & _);
    [|simpl; by rewrite Hl2, Hl1].
  destruct (call_conn _ sw2) as [[brief|e] sw3] eqn:Hcall;
    apply frames_call_conn in Hcall as (_ & _ & Hl3 & _);
    [|simpl; by rewrite Hl3, Hl2, Hl1].
  destruct (build_lldp _) as [es|e]; [done |].
  simpl. by rewrite Hl3, Hl2, Hl1.
Qed.

(** X9: a fetch updates the stored list all or nothing: when [get_cdp]
    returns, the stored CDP list is the returned one; when it raises,
    whatever the exception, the stored list is the one from before.
    [get_lldp] treats the stored LLDP list the same way, and neither
    touches the other protocol's list. *)
Theorem fetch_all_or_nothing sw :
  match (get_cdp sw).1 with
  | Ok es => sw_cdp (get_cdp sw).2 = es
  | Raise _ => sw_cdp (get_cdp sw).2 = sw_cdp sw
  end
  ∧ sw_lldp (get_cdp sw).2 = sw_lldp sw
  ∧ match (get_lldp sw).1 with
    | Ok es => sw_lldp (get_lldp sw).2 = es
    | Raise _ => sw_lldp (get_lldp sw).2 = sw_lldp sw
    end
  ∧ sw_cdp (get_lldp sw).2 = sw_cdp sw.
Proof.
  split_and!.
  - apply get_cdp_stored.
  - by apply (frames_run _ _ sw frames_get_cdp).
  - apply get_lldp_stored.
  - by apply (frames_run _ _ sw frames_get_lldp).
Qed.

(** Without a session object no call but [connect] writes anything:
    it raises first, or returns a cached host name. *)
Lemma run_op_no_session (o : op) sw :
  sw_conn sw = None → (∀ id_ pw secret, o ≠ OpConnect id_ pw secret) →
  run_op o sw = sw.
Proof.
  intros Hc Ho.
  pose proof (check_connection_no_session sw Hc) as Hchk.
  destruct o as [id_ pw sec| | | | | | | | | | |]; simpl;
    unfold disconnect, neighbors, go_enable_mode, activate_cdp, activate_lldp,
      deactivate_cdp, deactivate_lldp, show_running_config, config_command,
      get_cdp, get_lldp, mbind, M_bind, gets;
    rewrite ?Hchk, ?Hc; try done.
  - by destruct (Ho id_ pw sec).
  - destruct (cached_hostname sw) as [h|] eqn:Hh.
    + by rewrite (hostname_cached _ _ Hh).
    + unfold hostname, mbind, M_bind, gets. by rewrite Hh, Hchk.
Qed.

(** X10: a facade without a session object stays exactly as it is under
    any sequence of calls other than [connect]: each of them raises
    before it changes anything, or returns a host name cached
    earlier. *)
Theorem never_connected_unchanged (ops : list op) sw :
  sw_conn sw = None →
  Forall (λ o, ∀ id_ pw secret, o ≠ OpConnect id_ pw secret) ops →
  run_ops ops sw = sw.
Proof.
  intros Hc Hops. induction Hops as [|o ops Ho _ IH]; [done |].
  simpl. by rewrite (run_op_no_session o sw Hc Ho).
Qed.

End Frames.

(** * What the facade raises *)

Section Raises.
Context {S : Type} `{!RemoteSession S}.
Implicit Types (sw : CiscoSwitch S) (s : S).

Lemma raises_bind {A B} P (m : M S A) (f : A → M S B) :
  eases P → raises P m → (∀ a, raises P (f a)) → raises P (m ≫= f).
Proof.
  intros HP Hm Hf sw r sw'. unfold mbind, M_bind.
  destruct (m sw) as [[a|e] sw1] eqn:H1.
  - intros H2. destruct (Hm _ _ _ H1) as [Hs1 _], (Hf a _ _ _ H2) as [Hs2 He].
    split; [eauto |]. intros e Hr. specialize (He e Hr).
    destruct (decide (is_Some (sw_conn sw))) as [Hs|Hs].
    + by rewrite bool_decide_eq_true_2 in * by eauto.
    + rewrite (bool_decide_eq_false_2 _ Hs).
      destruct (bool_decide (is_Some (sw_conn sw1))); [by apply HP | done].
  - intros [= <- <-]. destruct (Hm _ _ _ H1) as [Hs He].
    split; [done |]. intros ? [= <-]. by apply He.
Qed.

Lemma raises_pure {A} P (m : M S A) :
  (∀ sw, ∃ a, m sw = (Ok a, sw)) → raises P m.
Proof.
  intros Hm sw r sw' Hrun. destruct (Hm sw) as [a Ha].
  rewrite Ha in Hrun. injection Hrun as <- <-. by split.
Qed.

Lemma raises_set {A} P (m : M S A) :
  (∀ sw, ∃ a sw', m sw = (Ok a, sw') ∧ sw_conn sw' = sw_conn sw) →
  raises P m.
Proof.
  intros Hm sw r sw' Hrun. destruct (Hm sw) as (a & sw1 & Ha & Hc).
  rewrite Ha in Hrun. injection Hrun as <- <-. rewrite Hc. by split.
Qed.

Lemma raises_raise {A} P e :
  P true e = true → eases P → raises P (raise e : M S A).
Proof.
  intros He HP sw r sw' [= <- <-]. split; [done |]. intros ? [= <-].
  destruct (bool_decide _); [done | by apply HP].
Qed.

Lemma raises_lift {A} P (x : result A) :
  eases P → (∀ e, x = Raise e → P true e = true) → raises P (lift x : M S A).
Proof.
  intros HP Hx sw r sw' [= <- <-]. split; [done |]. intros e He.
  destruct (bool_decide _); [by apply Hx | by apply HP, Hx].
Qed.

(** A method call on the session raises [AttributeError] when there is
    no session object, and nothing otherwise. *)
Lemma raises_call_conn {A} P (method : S → A * S) :
  P false AttributeError = true → raises P (call_conn method).
Proof.
  intros HP sw r sw'. unfold call_conn, mbind, M_bind, gets.
  destruct (sw_conn sw) as [s|] eqn:Hc.
  - destruct (method s) as [a s']. intros [= <- <-]. by split.
  - intros [= <- <-]. rewrite Hc. split; [done |].
    intros ? [= <-]. by rewrite bool_decide_eq_false_2 by apply is_Some_None.
Qed.

Lemma raises_check_connection P :
  eases P → P false AttributeError = true → P true NotConnectedError = true →
  raises P _check_connection.
Proof.
  intros HP Ha Hn. unfold _check_connection.
  apply raises_bind; [done | by apply raises_call_conn |].
  intros [p|]; [apply raises_pure; by eexists | by apply raises_raise].
Qed.

Lemma raises_hostname P :
  eases P → P false AttributeError = true → P true NotConnectedError = true →
  P true TypeError = true → raises P hostname.
Proof.
  intros HP Ha Hn Ht. unfold hostname.
  apply raises_bind; [done | apply raises_pure; by eexists |].
  intros [h|]; [apply raises_pure; by eexists |].
  apply raises_bind; [done | by apply raises_check_connection |]. intros _.
  apply raises_bind; [done | by apply raises_call_conn |].
  intros [p|]; [|by apply raises_raise].
  apply raises_bind; [done | apply raises_set; by eexists _, _ |].
  intros; apply raises_pure; by eexists.
Qed.

Lemma raises_report_if_empty {A} P (l : list A) :
  eases P → P false AttributeError = true → P true NotConnectedError = true →
  P true TypeError = true → raises P (report_if_empty l).
Proof.
  intros HP Ha Hn Ht. destruct l; simpl; [|apply raises_pure; by eexists].
  apply raises_bind; [done | by apply raises_hostname |].
  intros; apply raises_pure; by eexists.
Qed.

Lemma raises_config_command P send line :
  eases P → P false AttributeError = true → P true NotConnectedError = true →
  raises P (config_command send line).
Proof.
  intros HP Ha Hn. unfold config_command.
  apply raises_bind; [done | by apply raises_check_connection |]. intros _.
  apply raises_bind; [done | by apply raises_call_conn |]. intros _.
  apply raises_bind; [done | by apply raises_call_conn |]. intros out.
  apply raises_pure; by eexists.
Qed.

Lemma cdp_block_raise block e :
  cdp_block block = Raise e → e = AddressValueError ∨ e = ValidationError.
Proof.
  rewrite cdp_block_eq. unfold cdp_block_nf.
  destruct (_ <=? _)%nat; [done |].
  destruct (cdp_addresses _) as [addresses|ex] eqn:Ha; simpl.
  - destruct (cdp_entry_with _ _) as [e'|ex] eqn:He; simpl; [done |].
    intros [= <-]. right. by eapply cdp_entry_with_raise.
  - intros [= <-]. left. by eapply cdp_addresses_raise_kind.
Qed.

Lemma cdp_loop_raise blocks acc e :
  cdp_loop blocks acc = Raise e → e = AddressValueError ∨ e = ValidationError.
Proof.
  revert acc. induction blocks as [|block blocks IH]; intros acc; [done |].
  rewrite cdp_loop_cons.
  destruct (cdp_block block) as [[e'|]|ex] eqn:Hb; [apply IH | apply IH |].
  intros [= <-]. by eapply cdp_block_raise.
Qed.

Lemma lldp_block_raise block e :
  lldp_block block = Raise e → e = AddressValueError.
Proof.
  rewrite lldp_block_eq. unfold lldp_block_nf.
  destruct (_ <? _)%nat; [done |].
  destruct (_ !! "management_ip") as [[|t|]|]; try done.
  destruct (Ipaddress.IPv4Address_new t) as [a|ex] eqn:Ha; simpl; [done |].
  intros [= <-]. by eapply IPv4Address_new_raise.
Qed.

Lemma lldp_loop_raise blocks acc e :
  lldp_loop blocks acc = Raise e → e = AddressValueError.
Proof.
  revert acc. induction blocks as [|block blocks IH]; intros acc; [done |].
  rewrite lldp_loop_cons.
  destruct (lldp_block block) as [[e'|]|ex] eqn:Hb; [apply IH | apply IH |].
  intros [= <-]. by eapply lldp_block_raise.
Qed.

Lemma raised_Some {A} (r : result A) e : raised r = Some e → r = Raise e.
Proof. destruct r; simpl; congruence. Qed.

Lemma raises_run {A} P (m : M S A) sw e :
  raises P m → raised (m sw).1 = Some e →
  P (bool_decide (is_Some (sw_conn sw))) e = true.
Proof.
  intros Hm Hr%raised_Some.
  destruct (Hm sw (m sw).1 (m sw).2 (surjective_pairing _)) as [_ He]. eauto.
Qed.

Lemma raises_keeps_session {A} P (m : M S A) sw :
  raises P m → is_Some (sw_conn sw) → is_Some (sw_conn (m sw).2).
Proof.
  intros Hm.
  by destruct (Hm sw (m sw).1 (m sw).2 (surjective_pairing _)) as [? _].
Qed.

Lemma raises_connect P id_ pw secret :
  P true ConnectionFailedError = true → eases P →
  raises P (connect id_ pw secret).
Proof.
  intros Hc HP sw r sw'. rewrite connect_outcome.
  destruct (ConnectHandler _) as [s|].
  - intros [= <- <-]. by split.
  - intros [= <- <-]. split; [done |]. intros ? [= <-].
    destruct (bool_decide _); [done | by apply HP].
Qed.

Lemma raises_op (o : op) :
  ∃ (A : Type) (m : M S A),
    raises (λ b, may_raise b o) m
    ∧ (∀ sw, op_raised o sw = raised (m sw).1)
    ∧ (∀ sw, run_op o sw = (m sw).2).
Proof.
  assert (∀ o', eases (λ b, may_raise b o')) as Heases.
  { intros o' e. by destruct o', e. }
  destruct o as [id_ pw sec| | | | | | | | | | |].
  - eexists _, (connect id_ pw sec). split; [|done].
    by apply raises_connect.
  - eexists _, disconnect. split; [|done]. unfold disconnect.
    apply raises_bind; [done | by apply raises_check_connection |].
    intros _. by apply raises_call_conn.
  - eexists _, hostname. split; [|done]. by apply raises_hostname.
  - eexists _, neighbors. split; [|done]. unfold neighbors.
    apply raises_bind; [done | by apply raises_check_connection |]. intros _.
    apply raises_pure. by eexists.
  - eexists _, go_enable_mode. split; [|done]. unfold go_enable_mode.
    apply raises_bind; [done | by apply raises_check_connection |].
    intros _. by apply raises_call_conn.
  - eexists _, activate_cdp. split; [|done]. by apply raises_config_command.
  - eexists _, activate_lldp. split; [|done]. by apply raises_config_command.
  - eexists _, deactivate_cdp. split; [|done]. by apply raises_config_command.
  - eexists _, deactivate_lldp. split; [|done]. by apply raises_config_command.
  - eexists _, show_running_config. split; [|done].
    by apply raises_config_command.
  - eexists _, get_cdp. split; [|done]. unfold get_cdp.
    apply raises_bind; [done | by apply raises_check_connection |]. intros _.
    apply raises_bind; [done | by apply raises_call_conn |]. intros out.
    cbv zeta. destruct (existsb _ _); [by apply raises_raise |].
    apply raises_bind; [done | |].
    { apply raises_lift; [done |]. by intros e [-> | ->]%cdp_loop_raise. }
    intros es.
    apply raises_bind; [done | by apply raises_report_if_empty |]. intros _.
    apply raises_bind; [done | apply raises_set; by eexists _, _ |].
    intros; apply raises_pure; by eexists.
  - eexists _, get_lldp. split; [|done]. unfold get_lldp.
    intros sw r sw'. unfold mbind at 1, M_bind at 1, gets.
    destruct (sw_conn sw) as [s|] eqn:Hc.
    + revert sw r sw' s Hc.
      assert (raises (λ b e, b && may_raise true OpGetLldp e || negb b)
                (out ← call_conn (send_multiline ["show lldp neighbors detail"]);
                 detail_result ← lift
                   (lldp_loop (lldp_blocks (Py.split Py.LF out)) []);
                 report_if_empty detail_result;;
                 brief ← call_conn (send_multiline ["show lldp neighbors"]);
                 result ← lift
                   (build_lldp
                      (enrich (local_intf_mapping (Py.split Py.LF brief))
                         <$> detail_result));
                 set_lldp result;;
                 mret result)) as Hbody.
      { assert (eases (λ b e, b && may_raise true OpGetLldp e || negb b))
          as HP by (by intros e).
        apply raises_bind; [done | by apply raises_call_conn |]. intros out.
        apply raises_bind; [done | |].
        { apply raises_lift; [done |]. by intros e ->%lldp_loop_raise. }
        intros detail.
        apply raises_bind; [done | by apply raises_report_if_empty |].
        intros _.
        apply raises_bind; [done | by apply raises_call_conn |]. intros brief.
        cbv zeta.
        apply raises_bind; [done | |].
        { apply raises_lift; [done |]. by intros e ->%build_lldp_raise. }
        intros es.
        apply raises_bind; [done | apply raises_set; by eexists _, _ |].
        intros; apply raises_pure; by eexists. }
      intros sw r sw' s Hc Hrun. destruct (Hbody _ _ _ Hrun) as [Hs He].
      split; [intros _; apply Hs; by rewrite Hc |].
      intros e Hr. specialize (He e Hr). rewrite Hc in He.
      rewrite (bool_decide_eq_true_2 (is_Some (Some s))) in * by done.
      simpl in He. by rewrite orb_false_r in He.
    + intros [= <- <-]. rewrite Hc. split; [done |]. intros ? [= <-].
      by rewrite bool_decide_eq_false_2 by apply is_Some_None.
Qed.

(** X11: the exceptions each method can end with.  [connect] raises
    nothing but [ConnectionFailedError] and no other method raises it;
    [LLDPNotEnabledError] is never raised; [AttributeError] and
    [AssertionError] need a facade without a session object, the latter
    comes from [get_lldp] alone and the former never from it;
    [TypeError] is left to [hostname] and the two fetches,
    [CDPNotEnabledError] to [get_cdp], and the two validation errors
    to the two fetches. *)
Theorem methods_raise_only (o : op) sw (e : exn) :
  op_raised o sw = Some e →
  may_raise (bool_decide (is_Some (sw_conn sw))) o e = true.
Proof.
  destruct (raises_op o) as (A & m & Hm & Hr & _).
  rewrite Hr. intros Hraised.
  exact (raises_run (λ b, may_raise b o) m sw e Hm Hraised).
Qed.

(** X12: no method ever drops the session object: once a facade holds
    one, it holds one after any sequence of calls, [disconnect]
    included, so from then on no call ends with [AttributeError] or
    [AssertionError]. *)
Theorem session_never_dropped (ops : list op) sw :
  is_Some (sw_conn sw) →
  is_Some (sw_conn (run_ops ops sw))
  ∧ ∀ o, op_raised o (run_ops ops sw) ≠ Some AttributeError
         ∧ op_raised o (run_ops ops sw) ≠ Some AssertionError.
Proof.
  intros Hs.
  assert (is_Some (sw_conn (run_ops ops sw))) as Hlater.
  { revert sw Hs. induction ops as [|o ops IH]; intros sw Hs; [done |].
    simpl. apply IH.
    destruct (raises_op o) as (A & m & Hm & _ & Hrun).
    rewrite Hrun. by eapply raises_keeps_session. }
  split; [done |]. intros o.
  destruct (raises_op o) as (A & m & Hm & Hr & _).
  split; intros Hraised; rewrite Hr in Hraised;
    apply (raises_run (λ b, may_raise b o) m _ _ Hm) in Hraised;
    rewrite bool_decide_eq_true_2 in Hraised by done; by destruct o.
Qed.

End Raises.

(** * What the facade sends *)

Section Traffic.
Implicit Types (sw : CiscoSwitch scripted) (s : scripted).

Lemma asks_refl P sw : asks P sw sw.
Proof. split; [done |]. exists []. by rewrite (right_id_L [] (++)). Qed.

Lemma asks_trans P sw1 sw2 sw3 :
  asks P sw1 sw2 → asks P sw2 sw3 → asks P sw1 sw3.
Proof.
  intros [Hn (m1 & H1 & P1)] [Hn' (m2 & H2 & P2)]. split; [eauto |].
  exists (m1 ++ m2). rewrite H2, H1, (assoc_L (++)). split; [done |].
  by rewrite forallb_app, P1, P2.
Qed.

Lemma frames_bind_trans {A B} (R : CiscoSwitch scripted → CiscoSwitch scripted → Prop)
      (m : M scripted A) (f : A → M scripted B) :
  (∀ x y z, R x y → R y z → R x z) →
  frames R m → (∀ a, frames R (f a)) → frames R (m ≫= f).
Proof.
  intros Htrans Hm Hf sw r sw'. unfold mbind, M_bind.
  destruct (m sw) as [[a|e] sw1] eqn:H1.
  - intros H2. eapply Htrans; [by eapply Hm | by eapply Hf].
  - intros [= <- <-]. by eapply Hm.
Qed.

Lemma asks_bind {A B} P (m : M scripted A) (f : A → M scripted B) :
  frames (asks P) m → (∀ a, frames (asks P) (f a)) → frames (asks P) (m ≫= f).
Proof. apply frames_bind_trans, asks_trans. Qed.

Lemma asks_pure {A} P (m : M scripted A) :
  (∀ sw, (m sw).2 = sw) → frames (asks P) m.
Proof.
  intros Hm sw r sw' Hrun. specialize (Hm sw). rewrite Hrun in Hm.
  simpl in Hm. subst. apply asks_refl.
Qed.

(** One method call on the session logs one call. *)
Lemma asks_call_conn {A} P (method : scripted → A * scripted) c :
  (∀ s, (method s).2 = s_logged c s) → P c = true →
  frames (asks P) (call_conn method).
Proof.
  intros Hmethod Hc sw r sw'.
  unfold call_conn, mbind, M_bind, gets.
  destruct (sw_conn sw) as [s|] eqn:Hconn.
  - specialize (Hmethod s). destruct (method s) as [a s']. simpl in Hmethod.
    subst s'. intros [= <- <-]. split; [by rewrite Hconn |].
    exists [c]. unfold sent. rewrite Hconn. simpl. by rewrite Hc.
  - intros [= <- <-]. apply asks_refl.
Qed.

Lemma asks_check_connection P :
  P CallFindPrompt = true → frames (asks P) _check_connection.
Proof.
  intros HP. unfold _check_connection. apply asks_bind.
  - by apply (asks_call_conn P find_prompt CallFindPrompt).
  - intros [p|]; by apply asks_pure.
Qed.

Lemma asks_hostname P : P CallFindPrompt = true → frames (asks P) hostname.
Proof.
  intros HP. unfold hostname. apply asks_bind; [by apply asks_pure |].
  intros [h|]; [by apply asks_pure |].
  apply asks_bind; [by apply asks_check_connection |]. intros _.
  apply asks_bind; [by apply (asks_call_conn P find_prompt CallFindPrompt) |].
  intros [p|]; [|by apply asks_pure].
  apply asks_bind; [|intros; by apply asks_pure].
  intros sw r sw' [= <- <-]. split; [done |].
  exists []. by rewrite (right_id_L [] (++)).
Qed.

Lemma asks_report_if_empty {A} P (l : list A) :
  P CallFindPrompt = true → frames (asks P) (report_if_empty l).
Proof.
  intros HP. destruct l; simpl; [|by apply asks_pure].
  apply asks_bind; [by apply asks_hostname | intros; by apply asks_pure].
Qed.

Lemma asks_config_command P send line c :
  (∀ s, (send [line] s).2 = s_logged c s) →
  P CallFindPrompt = true → P CallEnable = true → P c = true →
  frames (asks P) (config_command send line).
Proof.
  intros Hsend HP HE Hc. unfold config_command.
  apply asks_bind; [by apply asks_check_connection |]. intros _.
  apply asks_bind; [by apply (asks_call_conn P (enable false) CallEnable) |].
  intros _.
  apply asks_bind; [by apply (asks_call_conn P (send [line]) c) |].
  intros; by apply asks_pure.
Qed.

Lemma asks_set {A} P (m : M scripted A) :
  (∀ sw, sw_conn (m sw).2 = sw_conn sw) → frames (asks P) m.
Proof.
  intros Hm sw r sw' Hrun. specialize (Hm sw). rewrite Hrun in Hm.
  simpl in Hm. split; [congruence |].
  exists []. unfold sent. by rewrite Hm, (right_id_L [] (++)).
Qed.

(** X13: on a session that logs what it is asked, a method of the facade
    other than [connect] only ever adds to the log, and only calls of
    its own kind: every method may probe the prompt; only
    [go_enable_mode], the four (de)activation methods and
    [show_running_config] enter enable mode; each (de)activation
    method sends its one configuration line and nothing else is ever
    sent as configuration; the three listing commands are sent by
    [show_running_config], [get_cdp] and [get_lldp] alone; and only
    [disconnect] closes the session. *)
Theorem methods_send_only_their_own (o : op) sw :
  (∀ id_ pw secret, o ≠ OpConnect id_ pw secret) →
  ∃ more, sent (run_op o sw) = sent sw ++ more
          ∧ forallb (may_send o) more = true.
Proof.
  intros Ho.
  assert (asks (may_send o) sw (run_op o sw)) as [_ H]; [|exact H].
  destruct o as [id_ pw sec| | | | | | | | | | |]; cbn [run_op];
    [by destruct (Ho id_ pw sec) | apply frames_run ..].
  - unfold disconnect. apply asks_bind; [by apply asks_check_connection |].
    intros _.
    by apply (asks_call_conn _ (λ s, ((), conn_disconnect s)) CallDisconnect).
  - by apply asks_hostname.
  - unfold neighbors. apply asks_bind; [by apply asks_check_connection |].
    intros _. by apply asks_pure.
  - unfold go_enable_mode. apply asks_bind; [by apply asks_check_connection |].
    intros _. by apply (asks_call_conn _ (enable false) CallEnable).
  - by apply (asks_config_command _ _ _ (CallConfig ["cdp run"])).
  - by apply (asks_config_command _ _ _ (CallConfig ["lldp run"])).
  - by apply (asks_config_command _ _ _ (CallConfig ["no cdp run"])).
  - by apply (asks_config_command _ _ _ (CallConfig ["no lldp run"])).
  - by apply (asks_config_command _ _ _ (CallMultiline ["show running-config"])).
  - unfold get_cdp. apply asks_bind; [by apply asks_check_connection |].
    intros _.
    apply asks_bind;
      [by apply (asks_call_conn _ _ (CallMultiline ["show cdp neighbors detail"])) |].
    intros out. cbv zeta. destruct (existsb _ _); [by apply asks_pure |].
    apply asks_bind; [by apply asks_pure |]. intros es.
    apply asks_bind; [by apply asks_report_if_empty |]. intros _.
    apply asks_bind; [by apply asks_set | intros; by apply asks_pure].
  - unfold get_lldp. apply asks_bind; [by apply asks_pure |].
    intros [s|]; [|by apply asks_pure].
    apply asks_bind;
      [by apply (asks_call_conn _ _ (CallMultiline ["show lldp neighbors detail"])) |].
    intros out.
    apply asks_bind; [by apply asks_pure |]. intros detail.
    apply asks_bind; [by apply asks_report_if_empty |]. intros _.
    apply asks_bind;
      [by apply (asks_call_conn _ _ (CallMultiline ["show lldp neighbors"])) |].
    intros brief. cbv zeta.
    apply asks_bind; [by apply asks_pure |]. intros es.
    apply asks_bind; [by apply asks_set | intros; by apply asks_pure].
Qed.

End Traffic.

(** * Connecting and the host name *)

Section Connecting.
Context {S : Type} `{!RemoteSession S}.
Implicit Types (sw : CiscoSwitch S) (s : S).

(** X14: [connect] passes the password as the enable secret when no secret
    is given; it raises nothing but [ConnectionFailedError], and then
    leaves the object, an earlier session included, as it was; when it
    succeeds it replaces the session and nothing else, without closing
    an earlier session; and its outcome does not depend on whether the
    facade was connected before. *)
Theorem connect_replaces_session (id_ pw secret : string) sw :
  connect id_ pw "" sw = connect id_ pw pw sw
  ∧ (∀ e sw', connect id_ pw secret sw = (Raise e, sw') →
       e = ConnectionFailedError ∧ sw' = sw)
  ∧ (∀ sw', connect id_ pw secret sw = (Ok (), sw') →
       ∃ s, ConnectHandler
              (mkConnectArgs "custom_cisco_ios" (sw_ip sw) id_ pw 22
                 (if Py.nonempty secret then secret else pw)) = Some s
            ∧ sw' = upd_conn (Some s) sw)
  ∧ (∀ c, (connect id_ pw secret (upd_conn c sw)).1
          = (connect id_ pw secret sw).1).
Proof.
  rewrite !connect_outcome. split_and!.
  - simpl. by destruct (Py.nonempty pw).
  - intros e sw'. destruct (ConnectHandler _); [done |]. by intros [= <- <-].
  - intros sw'. destruct (ConnectHandler _) as [s|]; [|done].
    intros [= <-]. by exists s.
  - intros c. rewrite connect_outcome. simpl. by destruct (ConnectHandler _).
Qed.

(** X15: a prompt of at most one character gives the empty host name,
    which is stored but does not count as cached, so the next read asks
    the session again; and when the second prompt probe of a read gives
    nothing, the read raises [TypeError] and stores nothing. *)
Theorem hostname_short_prompt sw s p s1 :
  sw_conn sw = Some s → cached_hostname sw = None →
  find_prompt s = (Some p, s1) →
  (∀ p' s2, find_prompt s1 = (Some p', s2) → (String.length p' ≤ 1)%nat →
     hostname sw = (Ok "", upd_hostname (Some "") (upd_conn (Some s2) sw))
     ∧ cached_hostname (hostname sw).2 = None)
  ∧ (∀ s2, find_prompt s1 = (None, s2) →
       hostname sw = (Raise TypeError, upd_conn (Some s2) sw)).
Proof.
  intros Hc Hh Hp. split.
  - intros p' s2 Hp' Hlen.
    rewrite (hostname_fetch sw s p s1 p' s2) by done.
    assert (Py.drop_last p' = "") as ->.
    { unfold Py.drop_last. destruct p' as [|c [|d p']]; simpl in *; [done..|lia]. }
    done.
  - intros s2 Hp'. unfold hostname, mbind, M_bind, gets. rewrite Hh.
    rewrite (check_connection_ok _ _ _ _ Hc Hp).
    by rewrite (call_conn_Some find_prompt (upd_conn (Some s1) sw) s1 _ _
                  eq_refl Hp').
Qed.

(** X16: what the four (de)activation methods and [show_running_config]
    do with a session: they probe the prompt; when the probe gives
    nothing they raise [NotConnectedError] and ask no more; otherwise
    they enter enable mode without checking the state, send their one
    command line, and return the reply cut at line feeds.  The
    (de)activation methods send their line as configuration,
    [show_running_config] sends its line as a command. *)
Theorem config_methods_run sw s :
  sw_conn sw = Some s →
  let s1 := (find_prompt s).2 in
  let s2 := (enable false s1).2 in
  let run (send : list string → S → string * S) (line : string) :=
    match (find_prompt s).1 with
    | Some _ =>
        (Ok (Py.split Py.LF (send [line] s2).1),
         upd_conn (Some (send [line] s2).2) sw)
    | None => (Raise NotConnectedError, upd_conn (Some s1) sw)
    end in
  activate_cdp sw = run send_config_set "cdp run"
  ∧ activate_lldp sw = run send_config_set "lldp run"
  ∧ deactivate_cdp sw = run send_config_set "no cdp run"
  ∧ deactivate_lldp sw = run send_config_set "no lldp run"
  ∧ show_running_config sw = run send_multiline "show running-config".
Proof.
  intros Hc. cbv zeta.
  assert (∀ send line,
            config_command send line sw
            = match (find_prompt s).1 with
              | Some _ =>
                  (Ok (Py.split Py.LF
                         (send [line] (enable false (find_prompt s).2).2).1),
                   upd_conn
                     (Some (send [line] (enable false (find_prompt s).2).2).2)
                     sw)
              | None =>
                  (Raise NotConnectedError,
                   upd_conn (Some (find_prompt s).2) sw)
              end) as Hrun.
  { intros send line. unfold config_command, mbind, M_bind.
    destruct (find_prompt s) as [[p|] s1] eqn:Hprobe; cbn [fst snd].
    - rewrite (check_connection_ok _ _ _ _ Hc Hprobe).
      destruct (enable false s1) as [e s2] eqn:Henable.
      rewrite (call_conn_Some (enable false) (upd_conn (Some s1) sw) s1 _ _
                 eq_refl Henable).
      destruct (send [line] s2) as [out s3] eqn:Hsend.
      rewrite (call_conn_Some (send [line])
                 (upd_conn (Some s2) (upd_conn (Some s1) sw)) s2 _ _
                 eq_refl Hsend).
      cbn [fst snd]. rewrite Hsend. reflexivity.
    - by rewrite (check_connection_dead _ _ _ Hc Hprobe). }
  split_and!; apply Hrun.
Qed.

End Connecting.

(** * What the patterns let into an entry *)

Section Tokens.

Lemma token_plus c w :
  Py.notspace c = true → Py.all_chars Py.notspace w = true → token (String c w).
Proof. intros Hc Hw. split; [done |]. simpl. by rewrite Hc, Hw. Qed.

Lemma search_match_at r s m :
  search r s = Some m →
  ∃ pre rest, s = pre +:+ rest ∧ match_at r rest = Some m.
Proof.
  induction s as [|c s IH]; simpl.
  - destruct (match_at r "") eqn:H; [|done]. intros [= <-]. by exists "", "".
  - destruct (match_at r (String c s)) eqn:H.
    + intros [= <-]. by exists "", (String c s).
    + intros (pre & rest & -> & Hm)%IH. by exists (String c pre), rest.
Qed.

(** The lazy star stops at the first position where the rest of the
    pattern matches. *)
Lemma star_lazy_first {R} cls s (k : string → option R) x :
  star_lazy cls s k = Some x →
  ∃ w rest, s = w +:+ rest ∧ Py.all_chars cls w = true ∧ k rest = Some x
    ∧ ∀ w1 c w2, w = w1 +:+ String c w2 → k (String c w2 +:+ rest) = None.
Proof.
  revert x. induction s as [|c s IH]; intros x; simpl.
  - destruct (k "") eqn:Hk; [|done]. intros [= <-]. exists "", "".
    split_and!; try done. by intros [|??] ??.
  - destruct (k (String c s)) eqn:Hk.
    + intros [= <-]. exists "", (String c s).
      split_and!; try done. by intros [|??] ??.
    + destruct (cls c) eqn:Hc; [|done]. intros H.
      destruct (IH x H) as (w & rest & -> & Hw & Hk' & Hfirst).
      exists (String c w), rest. simpl. rewrite Hc, Hw.
      split_and!; try done.
      intros [|c1 w1] c2 w2; simpl.
      * by intros [= <- <-].
      * intros [= <- ->]. by eapply Hfirst.
Qed.

Lemma prefix_char a c t :
  String.prefix (String a "") (String c t) = bool_decide (a = c).
Proof.
  change (String.prefix (String a "") (String c t))
    with (if ascii_dec a c then String.prefix "" t else false).
  destruct (ascii_dec a c) as [->|Hne].
  - rewrite bool_decide_eq_true_2 by done. by destruct t.
  - by rewrite bool_decide_eq_false_2.
Qed.

Lemma contains_char_free a w :
  (∀ w1 c w2, w = w1 +:+ String c w2 → a ≠ c) →
  Py.contains (String a "") w = false.
Proof.
  induction w as [|c w IH]; intros Hfree; [done |].
  change (Py.contains (String a "") (String c w))
    with (String.prefix (String a "") (String c w) || Py.contains (String a "") w).
  rewrite prefix_char, bool_decide_eq_false_2 by (by apply (Hfree "" c w)).
  apply IH. intros w1 c' w2 ->. by apply (Hfree (String c w1) c' w2).
Qed.

Lemma contains_prefix needle s :
  String.prefix needle s = true → Py.contains needle s = true.
Proof.
  intros Hp.
  destruct s;
    [change (Py.contains needle "") with (String.prefix needle "" || false)
    |change (Py.contains needle (String a s))
       with (String.prefix needle (String a s) || Py.contains needle s)];
    by rewrite Hp.
Qed.

Lemma contains_infix needle pre rest :
  Py.contains needle (pre +:+ needle +:+ rest) = true.
Proof.
  induction pre as [|c pre IH].
  - change ("" +:+ needle +:+ rest) with (needle +:+ rest).
    apply contains_prefix, prefix_app.
  - change (Py.contains needle (String c pre +:+ needle +:+ rest))
      with (String.prefix needle (String c (pre +:+ needle +:+ rest))
            || Py.contains needle (pre +:+ needle +:+ rest)).
    rewrite IH. apply orb_true_r.
Qed.

Lemma contains_infix_r needle pre :
  Py.contains needle (pre +:+ needle) = true.
Proof. rewrite <-(sapp_nil_r needle) at 2. apply contains_infix. Qed.

End Tokens.

(** * Where the fields of an entry come from *)

Section Fields.

Ltac invert_matches :=
  repeat match goal with
  | H : matches (Seq _ _) _ _ |- _ => inversion H; subst; clear H
  | H : matches (Lit _) _ _ |- _ => inversion H; subst; clear H
  | H : matches (Group _ _) _ _ |- _ => inversion H; subst; clear H
  | H : matches (Plus _) _ _ |- _ => inversion H; subst; clear H
  | H : matches (LazyStar _) _ _ |- _ => inversion H; subst; clear H
  end.

Lemma field_of_sound key r block v :
  field_of key r block = Some v →
  ∃ pre w rest m, block = pre +:+ w +:+ rest ∧ matches r w m
                  ∧ v = from_option VStr VNone (group m key).
Proof.
  unfold field_of. destruct (search r block) as [m|] eqn:Hs; [|done].
  intros [= <-]. apply search_sound in Hs as (pre & w & rest & -> & Hm).
  by exists pre, w, rest, m.
Qed.

(** A field captured by [label(\S+)]: a token that follows its label
    in the block. *)
Lemma labelled_token key label block g :
  field_of key (Seq (Lit label) (Group key (Plus Py.notspace))) block
  = Some (VStr g) →
  token g ∧ Py.contains (label +:+ g) block = true.
Proof.
  intros (pre & w & rest & m & -> & Hm & Hv)%field_of_sound.
  invert_matches. simpl in Hv. rewrite String.eqb_refl in Hv.
  injection Hv as ->.
  split; [by apply token_plus | apply contains_infix].
Qed.

(** The interface of a CDP entry, [Interface: (\S+),]: the greedy token
    gives back what it takes for the comma that follows. *)
Lemma labelled_token_comma key label block g :
  field_of key (Seq (Lit label) (Seq (Group key (Plus Py.notspace)) (Lit ",")))
    block = Some (VStr g) →
  token g ∧ Py.contains (label +:+ g +:+ ",") block = true.
Proof.
  intros (pre & w & rest & m & -> & Hm & Hv)%field_of_sound.
  invert_matches. simpl in Hv. rewrite String.eqb_refl in Hv.
  injection Hv as ->.
  split; [by apply token_plus | apply contains_infix].
Qed.

(** An address text, [label(\d+\.\d+\.\d+\.\d+)]. *)
Lemma labelled_address key label block g :
  field_of key (Seq (Lit label) (Group key ipv4_text)) block = Some (VStr g) →
  Py.contains (label +:+ g) block = true.
Proof.
  intros (pre & w & rest & m & -> & Hm & Hv)%field_of_sound.
  invert_matches.
  match goal with
  | H : matches ipv4_text _ _ |- _ => apply ipv4_text_matches in H as [-> ?]
  end.
  simpl in Hv. rewrite String.eqb_refl in Hv. injection Hv as ->.
  apply contains_infix.
Qed.

(** The platform of a CDP entry, [Platform: (.*?),]: the lazy star stops
    at the first comma, so the captured text holds none, and no line
    feed either. *)
Lemma labelled_lazy key label block g :
  field_of key (Seq (Lit label) (Seq (Group key (LazyStar Py.dot)) (Lit ",")))
    block = Some (VStr g) →
  Py.all_chars Py.dot g = true ∧ Py.contains "," g = false
  ∧ Py.contains (label +:+ g +:+ ",") block = true.
Proof.
  unfold field_of.
  destruct (search _ block) as [m|] eqn:Hs; [|done].
  apply search_match_at in Hs as (pre & rest & -> & Hm).
  unfold match_at in Hm. cbn [match_here] in Hm.
  destruct (String.prefix label rest) eqn:Hlabel; [|done].
  apply prefix_split in Hlabel.
  revert Hlabel Hm. generalize (Py.drop (String.length label) rest).
  intros s1 -> Hm.
  apply star_lazy_first in Hm as (w & rest1 & -> & Hw & Hk & Hfirst).
  destruct (String.prefix "," rest1) eqn:Hcomma; [|done].
  injection Hk as <-. rewrite consumed_app.
  simpl. rewrite String.eqb_refl. intros [= <-].
  apply (prefix_split "," rest1) in Hcomma.
  split_and!; [done | |].
  - apply contains_char_free. intros w1 c w2 -> <-.
    specialize (Hfirst w1 ","%char w2 eq_refl).
    change (String "," w2 +:+ rest1) with (String "," (w2 +:+ rest1)) in Hfirst.
    by rewrite prefix_char, bool_decide_eq_true_2 in Hfirst.
  - rewrite Hcomma. generalize (Py.drop (String.length ",") rest1) as tail.
    intros tail.
    replace (pre +:+ label +:+ w +:+ "," +:+ tail)
      with (pre +:+ (label +:+ w +:+ ",") +:+ tail)
      by (by rewrite !sapp_assoc).
    apply contains_infix.
Qed.

(** The management address of a CDP block: the address text sits on the
    line after the heading. *)
Lemma management_address block g :
  field_of "management_ip"
    (Seq (Lit "Management address(es): ") (Seq (Lit Py.CRLF)
      (Seq (Lit "  IP address: ") (Group "management_ip" ipv4_text)))) block
  = Some (VStr g) →
  Py.contains ("Management address(es): " +:+ Py.CRLF +:+ "  IP address: " +:+ g)
    block = true.
Proof.
  intros (pre & w & rest & m & -> & Hm & Hv)%field_of_sound.
  invert_matches.
  match goal with
  | H : matches ipv4_text _ _ |- _ => apply ipv4_text_matches in H as [-> ?]
  end.
  simpl in Hv. injection Hv as ->.
  rewrite <-!sapp_assoc, !(sapp_assoc "Management address(es): ").
  rewrite !(sapp_assoc pre). apply contains_infix.
Qed.

Lemma contains_suffix needle pre s :
  Py.contains needle s = true → Py.contains needle (pre +:+ s) = true.
Proof.
  intros Hs. induction pre as [|c pre IH]; [done |].
  change (Py.contains needle (String c pre +:+ s))
    with (String.prefix needle (String c (pre +:+ s))
          || Py.contains needle (pre +:+ s)).
  rewrite IH. apply orb_true_r.
Qed.

(** The seven lookups of the [matched] dict of [get_cdp]. *)
Lemma cdp_matched_fields block :
  let matched := match_fields cdp_patterns block in
  (∀ g, matched !! "device_id" = Some (VStr g) →
     token g ∧ Py.contains ("Device ID: " +:+ g) block = true)
  ∧ (∀ g, matched !! "entry_ip" = Some (VStr g) →
       Py.contains ("IP address: " +:+ g) block = true)
  ∧ (∀ g, matched !! "platform" = Some (VStr g) →
       Py.all_chars Py.dot g = true ∧ Py.contains "," g = false
       ∧ Py.contains ("Platform: " +:+ g +:+ ",") block = true)
  ∧ (∀ g, matched !! "interface" = Some (VStr g) →
       token g ∧ Py.contains ("Interface: " +:+ g +:+ ",") block = true)
  ∧ (∀ g, matched !! "outgoing_port" = Some (VStr g) →
       token g ∧ Py.contains ("Port ID (outgoing port): " +:+ g) block = true)
  ∧ (∀ g, matched !! "duplex" = Some (VStr g) →
       token g ∧ Py.contains ("Duplex: " +:+ g) block = true)
  ∧ (∀ g, matched !! "management_ip" = Some (VStr g) →
       Py.contains
         ("Management address(es): " +:+ Py.CRLF +:+ "  IP address: " +:+ g)
         block = true).
Proof.
  cbv zeta. split_and!; intros g.
  - rewrite (match_fields_lookup block _ "device_id"
      (Seq (Lit "Device ID: ") (Group "device_id" (Plus Py.notspace))));
      [apply labelled_token | apply cdp_keys_NoDup | unfold cdp_patterns; set_solver].
  - rewrite (match_fields_lookup block _ "entry_ip"
      (Seq (Lit "IP address: ") (Group "entry_ip" ipv4_text)));
      [apply labelled_address | apply cdp_keys_NoDup | unfold cdp_patterns; set_solver].
  - rewrite (match_fields_lookup block _ "platform"
      (Seq (Lit "Platform: ") (Seq (Group "platform" (LazyStar Py.dot)) (Lit ","))));
      [apply labelled_lazy | apply cdp_keys_NoDup | unfold cdp_patterns; set_solver].
  - rewrite (match_fields_lookup block _ "interface"
      (Seq (Lit "Interface: ") (Seq (Group "interface" (Plus Py.notspace)) (Lit ","))));
      [apply labelled_token_comma | apply cdp_keys_NoDup
      | unfold cdp_patterns; set_solver].
  - rewrite (match_fields_lookup block _ "outgoing_port"
      (Seq (Lit "Port ID (outgoing port): ")
           (Group "outgoing_port" (Plus Py.notspace))));
      [apply labelled_token | apply cdp_keys_NoDup | unfold cdp_patterns; set_solver].
  - rewrite (match_fields_lookup block _ "duplex"
      (Seq (Lit "Duplex: ") (Group "duplex" (Plus Py.notspace))));
      [apply labelled_token | apply cdp_keys_NoDup | unfold cdp_patterns; set_solver].
  - rewrite (match_fields_lookup block _ "management_ip"
      (Seq (Lit "Management address(es): ") (Seq (Lit Py.CRLF)
        (Seq (Lit "  IP address: ") (Group "management_ip" ipv4_text)))));
      [apply management_address | apply cdp_keys_NoDup
      | unfold cdp_patterns; set_solver].
Qed.

(** The four lookups of the [matched] dict of [get_lldp]. *)
Lemma lldp_matched_fields block :
  let matched := match_fields lldp_patterns block in
  (∀ g, matched !! "chassis_id" = Some (VStr g) →
     token g ∧ Py.contains ("Chassis id: " +:+ g) block = true)
  ∧ (∀ g, matched !! "port_id" = Some (VStr g) →
       token g ∧ Py.contains ("Port id: " +:+ g) block = true)
  ∧ (∀ g, matched !! "system_name" = Some (VStr g) →
       token g ∧ Py.contains ("System Name: " +:+ g) block = true)
  ∧ (∀ g, matched !! "management_ip" = Some (VStr g) →
       Py.contains ("IP: " +:+ g) block = true).
Proof.
  cbv zeta. split_and!; intros g.
  - rewrite (match_fields_lookup block _ "chassis_id"
      (Seq (Lit "Chassis id: ") (Group "chassis_id" (Plus Py.notspace))));
      [apply labelled_token | apply lldp_keys_NoDup
      | unfold lldp_patterns; set_solver].
  - rewrite (match_fields_lookup block _ "port_id"
      (Seq (Lit "Port id: ") (Group "port_id" (Plus Py.notspace))));
      [apply labelled_token | apply lldp_keys_NoDup
      | unfold lldp_patterns; set_solver].
  - rewrite (match_fields_lookup block _ "system_name"
      (Seq (Lit "System Name: ") (Group "system_name" (Plus Py.notspace))));
      [apply labelled_token | apply lldp_keys_NoDup
      | unfold lldp_patterns; set_solver].
  - rewrite (match_fields_lookup block _ "management_ip"
      (Seq (Lit "IP: ") (Group "management_ip" ipv4_text)));
      [apply labelled_address | apply lldp_keys_NoDup
      | unfold lldp_patterns; set_solver].
Qed.

End Fields.

(** * The entries the parsers build *)

Section Entries.

Lemma cdp_addresses_inv (matched : gmap string value) e m :
  cdp_addresses matched = Ok (e, m) →
  (e = None ↔ m = None)
  ∧ (∀ a, e = Some a →
       ∃ t, matched !! "entry_ip" = Some (VStr t)
            ∧ Ipaddress.IPv4Address_new t = Ok a)
  ∧ (∀ a, m = Some a →
       ∃ key t, (key = "entry_ip" ∨ key = "management_ip")
                ∧ matched !! key = Some (VStr t)
                ∧ Ipaddress.IPv4Address_new t = Ok a).
Proof.
  unfold cdp_addresses.
  destruct (matched !! "entry_ip") as [[|t|]|] eqn:He;
    try (intros [= <- <-]; split_and!; [done | done | done]).
  destruct (Ipaddress.IPv4Address_new t) as [a|] eqn:Ha; simpl; [|done].
  destruct (matched !! "management_ip") as [[|t'|]|] eqn:Hm; simpl.
  - intros [= <- <-]. split_and!; [done | intros ? [= <-]; eauto |].
    intros ? [= <-]. exists "entry_ip", t. eauto.
  - destruct (Ipaddress.IPv4Address_new t') as [a'|] eqn:Ha'; simpl; [|done].
    intros [= <- <-]. split_and!; [done | intros ? [= <-]; eauto |].
    intros ? [= <-]. exists "management_ip", t'. eauto.
  - intros [= <- <-]. split_and!; [done | intros ? [= <-]; eauto |].
    intros ? [= <-]. exists "entry_ip", t. eauto.
  - intros [= <- <-]. split_and!; [done | intros ? [= <-]; eauto |].
    intros ? [= <-]. exists "entry_ip", t. eauto.
Qed.

Lemma contains_inv needle s :
  Py.contains needle s = true → ∃ pre rest, s = pre +:+ needle +:+ rest.
Proof.
  induction s as [|c s IH].
  - change (Py.contains needle "") with (String.prefix needle "" || false).
    rewrite orb_false_r. intros Hp%prefix_split. by exists "", (Py.drop (String.length needle) "").
  - change (Py.contains needle (String c s))
      with (String.prefix needle (String c s) || Py.contains needle s).
    intros [Hp%prefix_split|(pre & rest & ->)%IH]%orb_true_iff.
    + by exists "", (Py.drop (String.length needle) (String c s)).
    + by exists (String c pre), rest.
Qed.

(** An occurrence of a text is an occurrence of each of its ends. *)
Lemma contains_tail head needle s :
  Py.contains (head +:+ needle) s = true → Py.contains needle s = true.
Proof.
  intros (pre & rest & ->)%contains_inv.
  rewrite sapp_assoc, <-(sapp_assoc pre). apply contains_infix.
Qed.

Lemma management_occurrence block t :
  Py.contains ("Management address(es): " +:+ Py.CRLF +:+ "  IP address: " +:+ t)
    block = true →
  Py.contains ("IP address: " +:+ t) block = true.
Proof.
  apply (contains_tail ("Management address(es): " +:+ Py.CRLF +:+ "  ")).
Qed.

(** What an accepted CDP block gives: the shape of each field and the
    place in the block it was read from. *)
Lemma cdp_block_fields block e :
  cdp_block block = Ok (Some e) →
  cdp_entry_ok e
  ∧ Py.contains ("Device ID: " +:+ cdp_device_id e) block = true
  ∧ Py.contains ("Platform: " +:+ cdp_platform e +:+ ",") block = true
  ∧ Py.contains ("Interface: " +:+ cdp_interface e +:+ ",") block = true
  ∧ Py.contains ("Port ID (outgoing port): " +:+ cdp_outgoing_port e) block
    = true
  ∧ Py.contains ("Duplex: " +:+ cdp_duplex e) block = true
  ∧ (∀ a, cdp_entry_ip e = Some a ∨ cdp_management_ip e = Some a →
       ∃ t, Py.contains ("IP address: " +:+ t) block = true
            ∧ Ipaddress.IPv4Address_new t = Ok a).
Proof.
  intros (_ & [ea ma] & Ha & He)%cdp_block_accept_inv.
  apply cdp_entry_with_inv in He as (Hip & Hm & Hd & Hp & Hi & Ho & Hx).
  simpl in Hip, Hm.
  apply cdp_addresses_inv in Ha as (Hnone & Hentry & Hmgmt).
  destruct (cdp_matched_fields block)
    as (Fd & Fe & Fp & Fi & Fo & Fx & Fm).
  destruct (Fd _ Hd) as [? ?], (Fp _ Hp) as (? & ? & ?), (Fi _ Hi) as [? ?],
    (Fo _ Ho) as [? ?], (Fx _ Hx) as [? ?].
  split_and!; try done.
  - unfold cdp_entry_ok. rewrite Hip, Hm. by split_and!.
  - intros a [Ha|Ha].
    + rewrite Hip in Ha. destruct (Hentry a Ha) as (t & Ht & Hnew).
      exists t. split; [by apply Fe | done].
    + rewrite Hm in Ha.
      destruct (Hmgmt a Ha) as (key & t & [-> | ->] & Ht & Hnew);
        exists t; (split; [|done]).
      * by apply Fe.
      * by apply management_occurrence, Fm.
Qed.

(** X17: every text field of an entry that [get_cdp] builds from a block
    stands in that block right after its label, and each address of the
    entry is the value of an address text that follows [IP address: ]
    in the block. *)
Theorem cdp_entry_from_block (block : string) (e : CiscoCDP) :
  cdp_block block = Ok (Some e) →
  Py.contains ("Device ID: " +:+ cdp_device_id e) block = true
  ∧ Py.contains ("Platform: " +:+ cdp_platform e +:+ ",") block = true
  ∧ Py.contains ("Interface: " +:+ cdp_interface e +:+ ",") block = true
  ∧ Py.contains ("Port ID (outgoing port): " +:+ cdp_outgoing_port e) block
    = true
  ∧ Py.contains ("Duplex: " +:+ cdp_duplex e) block = true
  ∧ (∀ a, cdp_entry_ip e = Some a ∨ cdp_management_ip e = Some a →
       ∃ t, Py.contains ("IP address: " +:+ t) block = true
            ∧ Ipaddress.IPv4Address_new t = Ok a).
Proof. intros Hb. by apply cdp_block_fields in Hb as (_ & ?). Qed.

Lemma cdp_loop_Forall (P : CiscoCDP → Prop) blocks acc es :
  (∀ block e, cdp_block block = Ok (Some e) → P e) →
  Forall P acc → cdp_loop blocks acc = Ok es → Forall P es.
Proof.
  intros HP. revert acc. induction blocks as [|block blocks IH]; intros acc Hacc.
  { simpl. by intros [= <-]. }
  rewrite cdp_loop_cons.
  destruct (cdp_block block) as [[e|]|ex] eqn:Hb; [| |done].
  - apply IH. apply Forall_app. split; [done |].
    apply Forall_singleton. eauto.
  - by apply IH.
Qed.

(** A record of the detail loop of [get_lldp] with its fields' shape
    and origin. *)
Lemma lldp_block_fields block d :
  lldp_block block = Ok (Some d) →
  ∃ c p n g a,
    d !! "chassis_id" = Some (VStr c) ∧ d !! "port_id" = Some (VStr p)
    ∧ d !! "system_name" = Some (VStr n) ∧ d !! "management_ip" = Some (VIp a)
    ∧ d !! "interface" = None
    ∧ token c ∧ token p ∧ token n
    ∧ Ipaddress.IPv4Address_new g = Ok a
    ∧ Py.contains ("Chassis id: " +:+ c) block = true
    ∧ Py.contains ("Port id: " +:+ p) block = true
    ∧ Py.contains ("System Name: " +:+ n) block = true
    ∧ Py.contains ("IP: " +:+ g) block = true.
Proof.
  intros (c & p & n & g & a & Hc & Hp & Hn & Hg & Hi & Ha & ->)%lldp_block_accept_inv.
  destruct (lldp_matched_fields block) as (Fc & Fp & Fn & Fm).
  destruct (Fc _ Hc) as [? ?], (Fp _ Hp) as [? ?], (Fn _ Hn) as [? ?].
  exists c, p, n, g, a.
  rewrite lookup_insert_eq, !lookup_insert_ne by done.
  split_and!; try done. by apply Fm.
Qed.

(** X18: every record the detail loop of [get_lldp] keeps holds the three
    texts that follow their labels in the block, each without
    whitespace, the management address read from the text after
    [IP: ], and no interface. *)
Theorem lldp_record_from_block (block : string) (d : gmap string value) :
  lldp_block block = Ok (Some d) →
  ∃ chassis_id port_id system_name address a,
    d = <["management_ip" := VIp a]>
          (<["system_name" := VStr system_name]>
             (<["port_id" := VStr port_id]>
                (<["chassis_id" := VStr chassis_id]> ∅)))
    ∧ token chassis_id ∧ token port_id ∧ token system_name
    ∧ Ipaddress.IPv4Address_new address = Ok a
    ∧ Py.contains ("Chassis id: " +:+ chassis_id) block = true
    ∧ Py.contains ("Port id: " +:+ port_id) block = true
    ∧ Py.contains ("System Name: " +:+ system_name) block = true
    ∧ Py.contains ("IP: " +:+ address) block = true.
Proof.
  intros Hb.
  destruct (lldp_block_fields _ _ Hb)
    as (c & p & n & g & a & Hc & Hp & Hn & Hm & Hi & Hrest).
  exists c, p, n, g, a. split; [|done].
  apply lldp_block_accept_inv in Hb
    as (c' & p' & n' & g' & a' & Hc' & Hp' & Hn' & Hg' & Hi' & Ha' & ->).
  apply map_eq. intros key.
  destruct (decide (key = "management_ip")) as [->|Hk1].
  { by rewrite Hm, lookup_insert_eq. }
  destruct (decide (key = "system_name")) as [->|Hk2].
  { rewrite Hn, lookup_insert_ne by done. by rewrite lookup_insert_eq. }
  destruct (decide (key = "port_id")) as [->|Hk3].
  { rewrite Hp, !lookup_insert_ne by done. by rewrite lookup_insert_eq. }
  destruct (decide (key = "chassis_id")) as [->|Hk4].
  { rewrite Hc, !lookup_insert_ne by done. by rewrite lookup_insert_eq. }
  rewrite !lookup_insert_ne, lookup_empty by done.
  apply match_fields_lookup_notin. unfold lldp_patterns. set_solver.
Qed.

End Entries.

(** * The two block loops *)

Section Loops.

(** X19: the block loop of [get_cdp] works through the blocks in order:
    it returns exactly when every block is either skipped or accepted,
    and then the result is what was collected before followed by the
    accepted entries, in block order and at most one per block; it
    raises exactly the exception of the first block that raises, which
    discards the entries of the blocks before it. *)
Theorem cdp_loop_in_order (blocks : list string) (acc : list CiscoCDP) :
  (∀ es, cdp_loop blocks acc = Ok es ↔
     ∃ rs, Forall2 (λ block r, cdp_block block = Ok r) blocks rs
           ∧ es = acc ++ omap id rs)
  ∧ (∀ ex, cdp_loop blocks acc = Raise ex ↔
       ∃ before block after rs,
         blocks = before ++ block :: after
         ∧ Forall2 (λ block r, cdp_block block = Ok r) before rs
         ∧ cdp_block block = Raise ex).
Proof.
  revert acc. induction blocks as [|block blocks IH]; intros acc.
  { split.
    - intros es. simpl. split.
      + intros [= <-]. exists []. split; [constructor |].
        simpl. by rewrite (right_id_L [] (++)).
      + intros (rs & ->%Forall2_nil_inv_l & ->).
        simpl. by rewrite (right_id_L [] (++)).
    - intros ex. simpl. split; [done |].
      intros (before & b & after & rs & Heq & _). by destruct before. }
  rewrite cdp_loop_cons.
  destruct (cdp_block block) as [[e|]|ex0] eqn:Hb.
  - destruct (IH (acc ++ [e])) as [IHok IHraise]. split.
    + intros es. rewrite IHok. split.
      * intros (rs & Hrs & ->). exists (Some e :: rs).
        split; [by constructor |]. simpl. by rewrite <-(assoc_L (++)).
      * intros (rs & Hrs & ->).
        apply Forall2_cons_inv_l in Hrs as (r & rs' & Hr & Hrs & ->).
        rewrite Hb in Hr. injection Hr as <-.
        exists rs'. split; [done |]. simpl. by rewrite <-(assoc_L (++)).
    + intros ex. rewrite IHraise. split.
      * intros (before & b & after & rs & -> & Hrs & Hraise).
        exists (block :: before), b, after, (Some e :: rs).
        split_and!; [done | by constructor | done].
      * intros (before & b & after & rs & Heq & Hrs & Hraise).
        destruct before as [|b0 before]; simpl in Heq; simplify_eq;
          [congruence |].
        apply Forall2_cons_inv_l in Hrs as (r & rs' & Hr & Hrs & ->).
        by exists before, b, after, rs'.
  - destruct (IH acc) as [IHok IHraise]. split.
    + intros es. rewrite IHok. split.
      * intros (rs & Hrs & ->). exists (None :: rs).
        split; [by constructor | done].
      * intros (rs & Hrs & ->).
        apply Forall2_cons_inv_l in Hrs as (r & rs' & Hr & Hrs & ->).
        rewrite Hb in Hr. injection Hr as <-.
        exists rs'. by split.
    + intros ex. rewrite IHraise. split.
      * intros (before & b & after & rs & -> & Hrs & Hraise).
        exists (block :: before), b, after, (None :: rs).
        split_and!; [done | by constructor | done].
      * intros (before & b & after & rs & Heq & Hrs & Hraise).
        destruct before as [|b0 before]; simpl in Heq; simplify_eq;
          [congruence |].
        apply Forall2_cons_inv_l in Hrs as (r & rs' & Hr & Hrs & ->).
        by exists before, b, after, rs'.
  - split.
    + intros es. split; [done |].
      intros (rs & Hrs & _).
      apply Forall2_cons_inv_l in Hrs as (r & rs' & Hr & _). congruence.
    + intros ex. split.
      * intros [= <-]. exists [], block, blocks, [].
        split_and!; [done | constructor | done].
      * intros (before & b & after & rs & Heq & Hrs & Hraise).
        destruct before as [|b0 before]; simpl in Heq; simplify_eq.
        -- congruence.
        -- apply Forall2_cons_inv_l in Hrs as (r & rs' & Hr & _). congruence.
Qed.

(** X20: the detail loop of [get_lldp] works through its blocks the same
    way: records in block order, at most one per block, and the
    exception of the first block that raises. *)
Theorem lldp_loop_in_order (blocks : list string)
        (acc : list (gmap string value)) :
  (∀ ds, lldp_loop blocks acc = Ok ds ↔
     ∃ rs, Forall2 (λ block r, lldp_block block = Ok r) blocks rs
           ∧ ds = acc ++ omap id rs)
  ∧ (∀ ex, lldp_loop blocks acc = Raise ex ↔
       ∃ before block after rs,
         blocks = before ++ block :: after
         ∧ Forall2 (λ block r, lldp_block block = Ok r) before rs
         ∧ lldp_block block = Raise ex).
Proof.
  revert acc. induction blocks as [|block blocks IH]; intros acc.
  { split.
    - intros es. simpl. split.
      + intros [= <-]. exists []. split; [constructor |].
        simpl. by rewrite (right_id_L [] (++)).
      + intros (rs & ->%Forall2_nil_inv_l & ->).
        simpl. by rewrite (right_id_L [] (++)).
    - intros ex. simpl. split; [done |].
      intros (before & b & after & rs & Heq & _). by destruct before. }
  rewrite lldp_loop_cons.
  destruct (lldp_block block) as [[e|]|ex0] eqn:Hb.
  - destruct (IH (acc ++ [e])) as [IHok IHraise]. split.
    + intros es. rewrite IHok. split.
      * intros (rs & Hrs & ->). exists (Some e :: rs).
        split; [by constructor |]. simpl. by rewrite <-(assoc_L (++)).
      * intros (rs & Hrs & ->).
        apply Forall2_cons_inv_l in Hrs as (r & rs' & Hr & Hrs & ->).
        rewrite Hb in Hr. injection Hr as <-.
        exists rs'. split; [done |]. simpl. by rewrite <-(assoc_L (++)).
    + intros ex. rewrite IHraise. split.
      * intros (before & b & after & rs & -> & Hrs & Hraise).
        exists (block :: before), b, after, (Some e :: rs).
        split_and!; [done | by constructor | done].
      * intros (before & b & after & rs & Heq & Hrs & Hraise).
        destruct before as [|b0 before]; simpl in Heq; simplify_eq;
          [congruence |].
        apply Forall2_cons_inv_l in Hrs as (r & rs' & Hr & Hrs & ->).
        by exists before, b, after, rs'.
  - destruct (IH acc) as [IHok IHraise]. split.
    + intros es. rewrite IHok. split.
      * intros (rs & Hrs & ->). exists (None :: rs).
        split; [by constructor | done].
      * intros (rs & Hrs & ->).
        apply Forall2_cons_inv_l in Hrs as (r & rs' & Hr & Hrs & ->).
        rewrite Hb in Hr. injection Hr as <-.
        exists rs'. by split.
    + intros ex. rewrite IHraise. split.
      * intros (before & b & after & rs & -> & Hrs & Hraise).
        exists (block :: before), b, after, (None :: rs).
        split_and!; [done | by constructor | done].
      * intros (before & b & after & rs & Heq & Hrs & Hraise).
        destruct before as [|b0 before]; simpl in Heq; simplify_eq;
          [congruence |].
        apply Forall2_cons_inv_l in Hrs as (r & rs' & Hr & Hrs & ->).
        by exists before, b, after, rs'.
  - split.
    + intros es. split; [done |].
      intros (rs & Hrs & _).
      apply Forall2_cons_inv_l in Hrs as (r & rs' & Hr & _). congruence.
    + intros ex. split.
      * intros [= <-]. exists [], block, blocks, [].
        split_and!; [done | constructor | done].
      * intros (before & b & after & rs & Heq & Hrs & Hraise).
        destruct before as [|b0 before]; simpl in Heq; simplify_eq.
        -- congruence.
        -- apply Forall2_cons_inv_l in Hrs as (r & rs' & Hr & _). congruence.
Qed.

End Loops.

(** * The brief listing *)

Section Brief.

(** A greedy class repetition that can take a whole run of class
    characters, and after which the rest of the pattern matches, takes
    the whole run. *)
Lemma plus_greedy_run {R} cls c w rest (k : string → option R) x :
  cls c = true → Py.all_chars cls w = true →
  (∀ d t, rest = String d t → cls d = false) →
  k rest = Some x →
  plus_greedy cls (String c w +:+ rest) k = Some x.
Proof.
  intros Hc Hw Hrest Hk. revert c Hc.
  induction w as [|d w IH]; intros c Hc; simpl; rewrite Hc.
  - destruct rest as [|d t]; simpl; [done |].
    by rewrite (Hrest d t eq_refl).
  - simpl in Hw. apply andb_true_iff in Hw as [Hd Hw].
    specialize (IH Hw d Hd). simpl in IH. by rewrite IH.
Qed.

Lemma isspace_notspace c : Py.isspace c = true → Py.notspace c = false.
Proof. unfold Py.notspace. by intros ->. Qed.

Lemma notspace_isspace c : Py.notspace c = true → Py.isspace c = false.
Proof. unfold Py.notspace. by destruct (Py.isspace c). Qed.

Lemma token_inv s :
  token s →
  ∃ c w, s = String c w ∧ Py.notspace c = true
         ∧ Py.all_chars Py.notspace w = true.
Proof.
  intros [Hne Hall]. destruct s as [|c w]; [done |].
  simpl in Hall. apply andb_true_iff in Hall as [? ?]. by exists c, w.
Qed.

(** The pattern cannot start at a whitespace character. *)
Lemma brief_pattern_skips c s :
  Py.isspace c = true → match_at brief_pattern (String c s) = None.
Proof.
  intros Hc. unfold match_at, brief_pattern. cbn [match_here plus_greedy].
  by rewrite (isspace_notspace c Hc).
Qed.

Lemma brief_pattern_search_skips pre s :
  Py.all_chars Py.isspace pre = true →
  search brief_pattern (pre +:+ s) = search brief_pattern s.
Proof.
  induction pre as [|c pre IH]; [done |]. simpl.
  intros [Hc Hpre]%andb_true_iff.
  rewrite (brief_pattern_skips c _ Hc). by apply IH.
Qed.

Lemma search_here r s m : match_at r s = Some m → search r s = Some m.
Proof. intros Hm. destruct s; simpl; by rewrite Hm. Qed.

(** X21: on a line that starts, after optional whitespace, with two
    tokens separated by whitespace, the pattern of the brief listing
    captures exactly these two tokens, each in full; so the line maps
    the first token to the second. *)
Theorem brief_pattern_first_two_tokens (pre d ws i rest : string)
        (m : gmap string string) :
  Py.all_chars Py.isspace pre = true →
  token d → ws ≠ "" → Py.all_chars Py.isspace ws = true → token i →
  (∀ c t, rest = String c t → Py.isspace c = true) →
  search brief_pattern (pre +:+ d +:+ ws +:+ i +:+ rest)
  = Some [("1", d); ("2", i)]
  ∧ mapping_step m (pre +:+ d +:+ ws +:+ i +:+ rest) = <[d := i]> m.
Proof.
  intros Hpre (c1 & w1 & -> & Hc1 & Hw1)%token_inv Hne Hws
    (c3 & w3 & -> & Hc3 & Hw3)%token_inv Hrest.
  destruct ws as [|c2 w2]; [done |].
  simpl in Hws. apply andb_true_iff in Hws as [Hc2 Hw2].
  assert (search brief_pattern
            (pre +:+ String c1 w1 +:+ String c2 w2 +:+ String c3 w3 +:+ rest)
          = Some [("1", String c1 w1); ("2", String c3 w3)]) as Hs.
  { rewrite brief_pattern_search_skips by done.
    apply search_here. unfold match_at, brief_pattern. cbn [match_here].
    apply plus_greedy_run; [done | done | |].
    { intros ? ? [= <- _]. by apply isspace_notspace. }
    rewrite consumed_app.
    apply plus_greedy_run; [done | done | |].
    { intros ? ? [= <- _]. by apply notspace_isspace. }
    apply plus_greedy_run; [done | done | |].
    { intros c t Heq. apply isspace_notspace. by eapply Hrest. }
    by rewrite consumed_app. }
  split; [exact Hs |].
  unfold mapping_step. by rewrite Hs.
Qed.

(** X22: a later row of the brief listing overrides an earlier row for
    the same device: the mapping holds, for a device, the interface of
    the last row that names it. *)
Theorem local_intf_mapping_last_wins (rows rows' : list string)
        (line device_id local_intf : string) :
  (∀ m, mapping_step m line = <[device_id := local_intf]> m) →
  Forall (λ row, ∀ m, mapping_step m row !! device_id = m !! device_id) rows' →
  local_intf_mapping (rows ++ line :: rows') !! device_id = Some local_intf.
Proof.
  intros Hline Hlater. unfold local_intf_mapping.
  rewrite foldl_app. simpl. rewrite Hline.
  generalize (foldl mapping_step ∅ rows). intros m0.
  assert (∀ m : gmap string string,
            foldl mapping_step m rows' !! device_id = m !! device_id) as Hfold.
  { induction Hlater as [|row rows' Hrow _ IH]; intros m; [done |].
    simpl. by rewrite IH, Hrow. }
  by rewrite Hfold, lookup_insert_eq.
Qed.

(** Keys and values of the mapping are tokens. *)
Lemma brief_pattern_tokens line m :
  search brief_pattern line = Some m →
  ∃ device_id local_intf,
    groups m = [device_id; local_intf] ∧ token device_id ∧ token local_intf.
Proof.
  intros (pre & w & rest & _ & Hm)%search_sound. unfold brief_pattern in Hm.
  repeat match goal with
  | H : matches (Seq _ _) _ _ |- _ => inversion H; subst; clear H
  | H : matches (Group _ _) _ _ |- _ => inversion H; subst; clear H
  | H : matches (Plus _) _ _ |- _ => inversion H; subst; clear H
  end.
  simpl. eauto 10 using token_plus.
Qed.

Lemma local_intf_mapping_tokens rows name local_intf :
  local_intf_mapping rows !! name = Some local_intf →
  token name ∧ token local_intf.
Proof.
  unfold local_intf_mapping.
  assert (∀ acc : gmap string string,
            map_Forall (λ k v, token k ∧ token v) acc →
            map_Forall (λ k v, token k ∧ token v) (foldl mapping_step acc rows))
    as Hinv.
  { induction rows as [|line rows IH]; intros acc Hacc; [done |].
    simpl. apply IH. unfold mapping_step.
    destruct (search brief_pattern line) as [m|] eqn:Hs; [|done].
    destruct (brief_pattern_tokens _ _ Hs) as (d & i & -> & Hd & Hi).
    by apply map_Forall_insert_2. }
  intros Hl. by apply (Hinv ∅ (map_Forall_empty _) name local_intf).
Qed.

End Brief.

(** * What the facade stores *)

Section Stored.
Context {S : Type} `{!RemoteSession S}.
Implicit Types (sw : CiscoSwitch S) (s : S).

Lemma cdp_block_entry_ok block e :
  cdp_block block = Ok (Some e) → cdp_entry_ok e.
Proof. intros Hb. by apply cdp_block_fields in Hb as (? & _). Qed.

Lemma get_cdp_inv sw es sw' :
  get_cdp sw = (Ok es, sw') →
  ∃ out, cdp_loop (cdp_blocks (Py.split Py.LF out)) [] = Ok es.
Proof.
  unfold get_cdp, mbind, M_bind, lift.
  destruct (_check_connection sw) as [[[]|ex] sw1]; [|done].
  destruct (call_conn _ sw1) as [[out|ex] sw2]; [|done].
  destruct (existsb _ _); [done |].
  destruct (cdp_loop _ []) as [es'|ex] eqn:Hloop; [|done].
  destruct (report_if_empty es' sw2) as [[[]|ex] sw3]; [|done].
  intros [= <- _]. by exists out.
Qed.

Lemma get_cdp_entries_ok sw es sw' :
  get_cdp sw = (Ok es, sw') → Forall cdp_entry_ok es.
Proof.
  intros [out Hloop]%get_cdp_inv.
  eapply cdp_loop_Forall; [apply cdp_block_entry_ok | constructor | exact Hloop].
Qed.

(** A record of the detail loop whose three texts are tokens. *)
Lemma lldp_enriched_entry_ok (mapping : gmap string string) d e :
  map_Forall (λ k v, token k ∧ token v) mapping →
  (∃ block, lldp_block block = Ok (Some d)) →
  CiscoLLDP_new (enrich mapping d) = Ok e → lldp_entry_ok e.
Proof.
  intros Hmap [block Hb] Hnew.
  destruct (lldp_block_fields _ _ Hb)
    as (c & p & n & g & a & Hc & Hp & Hn & Hm & Hi & Tc & Tp & Tn & _).
  apply CiscoLLDP_new_inv in Hnew as (Hc' & Hp' & Hi' & Hn' & Hm').
  rewrite enrich_lookup_ne in Hc', Hp', Hn' by done.
  unfold Pydantic.ip_field in Hm'. rewrite enrich_lookup_ne in Hm' by done.
  rewrite Hm in Hm'. rewrite Hc in Hc'. rewrite Hp in Hp'. rewrite Hn in Hn'.
  injection Hc' as Hc'. injection Hp' as Hp'. injection Hn' as Hn'.
  injection Hm' as Hm'.
  unfold lldp_entry_ok. rewrite <-Hc', <-Hp', <-Hn', <-Hm'.
  split_and!; [done | done | | done | done].
  unfold enrich, dict_get, mapping_get in Hi'. rewrite Hn in Hi'. simpl in Hi'.
  destruct (mapping !! n) as [v|] eqn:Hv; simpl in Hi'.
  - destruct (Py.nonempty v).
    + rewrite lookup_insert_eq in Hi'. injection Hi' as <-.
      by apply (Hmap n v).
    + by rewrite Hi in Hi'.
  - by rewrite Hi in Hi'.
Qed.

Lemma get_lldp_entries_ok sw es sw' :
  get_lldp sw = (Ok es, sw') → Forall lldp_entry_ok es.
Proof.
  intros (out & brief & detail & Hloop & Hbuild & _)%get_lldp_inv.
  assert (Forall (λ d, ∃ block, lldp_block block = Ok (Some d)) detail) as Hd.
  { eapply lldp_loop_Forall; [| constructor | exact Hloop]. eauto. }
  apply build_lldp_Forall2, Forall2_fmap_l in Hbuild.
  eapply Forall2_Forall_r; [exact Hbuild |].
  eapply Forall_impl; [exact Hd |].
  intros d Hblock e He.
  eapply lldp_enriched_entry_ok; [| exact Hblock | exact He].
  intros k v Hkv. by eapply local_intf_mapping_tokens.
Qed.

Lemma run_op_stored (o : op) sw :
  Forall cdp_entry_ok (sw_cdp sw) → Forall lldp_entry_ok (sw_lldp sw) →
  Forall cdp_entry_ok (sw_cdp (run_op o sw))
  ∧ Forall lldp_entry_ok (sw_lldp (run_op o sw)).
Proof.
  intros Hcdp Hlldp.
  destruct (run_op_keeps o sw) as (_ & Hc & Hl & _).
  destruct (decide (o = OpGetCdp)) as [->|Hnc].
  { split; [|by rewrite Hl]. simpl.
    pose proof (get_cdp_stored sw) as Hs.
    destruct (get_cdp sw) as [[es|ex] sw'] eqn:Hrun; simpl in *.
    - rewrite Hs. by eapply get_cdp_entries_ok.
    - by rewrite Hs. }
  destruct (decide (o = OpGetLldp)) as [->|Hnl].
  { split; [by rewrite Hc |]. simpl.
    pose proof (get_lldp_stored sw) as Hs.
    destruct (get_lldp sw) as [[es|ex] sw'] eqn:Hrun; simpl in *.
    - rewrite Hs. by eapply get_lldp_entries_ok.
    - by rewrite Hs. }
  rewrite Hc, Hl by (by apply bool_decide_eq_true). done.
Qed.

(** X23: whatever sequence of calls a caller makes on a new facade, and
    whichever of them raise, every stored CDP entry has a device id,
    interface, outgoing port and duplex that are non-empty and free of
    whitespace, a platform without a comma or a line feed, and either
    both addresses or neither; every stored LLDP entry has a chassis
    id, port id, interface and system name that are non-empty and free
    of whitespace, and a management address. *)
Theorem stored_entries_wellformed (ops : list op) (ip : IPv4Address) :
  Forall cdp_entry_ok (sw_cdp (run_ops ops (CiscoSwitch_init ip)))
  ∧ Forall lldp_entry_ok (sw_lldp (run_ops ops (CiscoSwitch_init ip))).
Proof.
  assert (∀ sw, Forall cdp_entry_ok (sw_cdp sw) →
                Forall lldp_entry_ok (sw_lldp sw) →
                Forall cdp_entry_ok (sw_cdp (run_ops ops sw))
                ∧ Forall lldp_entry_ok (sw_lldp (run_ops ops sw))) as Hinv.
  { induction ops as [|o ops IH]; intros sw Hc Hl; [done |].
    simpl. destruct (run_op_stored o sw Hc Hl). by apply IH. }
  apply Hinv; constructor.
Qed.

End Stored.

(** * The message of an empty fetch *)

Section EmptyFetch.
Context {S : Type} `{!RemoteSession S}.
Implicit Types (sw : CiscoSwitch S) (s : S).

Lemma cached_hostname_stored sw h :
  cached_hostname sw = Some h → sw_hostname sw = Some h.
Proof.
  unfold cached_hostname. destruct (sw_hostname sw) as [h0|]; [|done].
  destruct (Py.nonempty h0); [|done]. by intros [= <-].
Qed.

Lemma hostname_Ok sw h sw' :
  hostname sw = (Ok h, sw') → sw_hostname sw' = Some h.
Proof.
  destruct (cached_hostname sw) as [h0|] eqn:Hh.
  { rewrite (hostname_cached _ _ Hh). intros [= <- <-].
    by apply cached_hostname_stored. }
  unfold hostname, mbind, M_bind, gets. rewrite Hh.
  destruct (_check_connection sw) as [[[]|e] sw1]; [|done].
  destruct (call_conn find_prompt sw1) as [[[p|]|e] sw2]; [|done..].
  by intros [= <- <-].
Qed.

Lemma report_if_empty_Ok {A} (l : list A) sw sw' :
  report_if_empty l sw = (Ok (), sw') →
  match l with
  | [] => is_Some (sw_hostname sw')
  | _ => sw' = sw
  end.
Proof.
  destruct l; simpl; [|by intros [= <-]].
  unfold mbind, M_bind.
  destruct (hostname sw) as [[h|e] sw1] eqn:Hrun; [|done].
  intros [= <-]. apply hostname_Ok in Hrun. by rewrite Hrun.
Qed.

Lemma build_lldp_length items es :
  build_lldp items = Ok es → length es = length items.
Proof.
  intros Hb%build_lldp_Forall2. symmetry. by eapply Forall2_length.
Qed.

(** X24: the message for an empty result has an effect of its own.  When
    [get_cdp] or [get_lldp] returns an empty list, the object holds a
    host name afterwards, read from the session if none was cached;
    when it returns entries, the stored host name is what it was. *)
Theorem empty_fetch_reads_hostname sw :
  (∀ sw', get_cdp sw = (Ok [], sw') → is_Some (sw_hostname sw'))
  ∧ (∀ es sw', es ≠ [] → get_cdp sw = (Ok es, sw') →
       sw_hostname sw' = sw_hostname sw)
  ∧ (∀ sw', get_lldp sw = (Ok [], sw') → is_Some (sw_hostname sw'))
  ∧ (∀ es sw', es ≠ [] → get_lldp sw = (Ok es, sw') →
       sw_hostname sw' = sw_hostname sw).
Proof.
  assert (∀ es sw', get_cdp sw = (Ok es, sw') →
            match es with
            | [] => is_Some (sw_hostname sw')
            | _ => sw_hostname sw' = sw_hostname sw
            end) as Hcdp.
  { intros es sw'. unfold get_cdp, mbind, M_bind, lift.
    destruct (_check_connection sw) as [[[]|e] sw1] eqn:Hchk; [|done].
    apply frames_check_connection in Hchk as (_ & _ & _ & Hn1 & _).
    destruct (call_conn _ sw1) as [[out|e] sw2] eqn:Hcall; [|done].
    apply frames_call_conn in Hcall as (_ & _ & _ & Hn2 & _).
    destruct (existsb _ _); [done |].
    destruct (cdp_loop _ []) as [es'|e]; [|done].
    destruct (report_if_empty es' sw2) as [[[]|e] sw3] eqn:Hrep; [|done].
    apply report_if_empty_Ok in Hrep. intros [= <- <-].
    destruct es'; [done |]. subst sw3. simpl. by rewrite Hn2, Hn1. }
  assert (∀ es sw', get_lldp sw = (Ok es, sw') →
            match es with
            | [] => is_Some (sw_hostname sw')
            | _ => sw_hostname sw' = sw_hostname sw
            end) as Hlldp.
  { intros es sw'. unfold get_lldp, mbind, M_bind, gets, lift.
    destruct (sw_conn sw) as [s|]; [|done].
    destruct (call_conn _ sw) as [[out|e] sw1] eqn:Hcall; [|done].
    apply frames_call_conn in Hcall as (_ & _ & _ & Hn1 & _).
    destruct (lldp_loop _ []) as [detail|e]; [|done].
    destruct (report_if_empty detail sw1) as [[[]|e] sw2] eqn:Hrep; [|done].
    apply report_if_empty_Ok in Hrep.
    destruct (call_conn _ sw2) as [[brief|e] sw3] eqn:Hcall; [|done].
    apply frames_call_conn in Hcall as (_ & _ & _ & Hn3 & _).
    destruct (build_lldp _) as [es'|e] eqn:Hbuild; [|done].
    apply build_lldp_length in Hbuild. rewrite length_fmap in Hbuild.
    intros [= <- <-]. simpl.
    destruct detail as [|d detail], es' as [|e' es']; simpl in Hbuild;
      try done.
    - by rewrite Hn3.
    - subst sw2. by rewrite Hn3, Hn1. }
  split_and!.
  - intros sw' Hrun. exact (Hcdp [] sw' Hrun).
  - intros es sw' Hne Hrun. specialize (Hcdp es sw' Hrun). by destruct es.
  - intros sw' Hrun. exact (Hlldp [] sw' Hrun).
  - intros es sw' Hne Hrun. specialize (Hlldp es sw' Hrun). by destruct es.
Qed.

End EmptyFetch.

(** * Further runs *)

Section MoreRuns.

(** [custom_cisco_ios_dispatch] on a base mapping of two entries. *)
Lemma custom_cisco_ios_dispatch_witness :
  Connection.ConnectHandler 0%nat sample_netmiko_base
    (Some (Some "custom_cisco_ios")) = Connection.Instantiates 0%nat
  ∧ Connection.ssh_dispatcher 0%nat sample_netmiko_base "cisco_ios"
    = Some 1%nat
  ∧ Connection.ssh_dispatcher 0%nat sample_netmiko_base "custom_cisco_ios_ssh"
    = Some 0%nat.
Proof.
  assert (NoDup sample_netmiko_base.*1) as Hnd
    by (by apply (bool_decide_unpack _)).
  destruct (custom_cisco_ios_dispatch 0%nat sample_netmiko_base Hnd)
    as (_ & Hconnect & Hplain & Hssh).
  split_and!.
  - exact Hconnect.
  - apply Hplain.
    + apply list_elem_of_here.
    + discriminate.
    + intros b _ Heq. symmetry in Heq. apply sapp_suffix in Heq.
      vm_compute in Heq. discriminate Heq.
  - apply Hssh. by apply (bool_decide_unpack _).
Defined.

(** The dispatcher and the platform list of the same base mapping, and
    the message for an unknown telnet device type. *)
Example class_mapper_run :
  Connection.ssh_dispatcher 0%nat sample_netmiko_base
    <$> ["cisco_ios_ssh"; "cisco_ios_telnet_ssh"; "custom_cisco_ios"; "nokia_sros"]
  = [Some 1%nat; Some 2%nat; Some 0%nat; None]
  ∧ Connection.platforms 0%nat sample_netmiko_base
    = [ "cisco_ios"; "cisco_ios_ssh"; "cisco_ios_telnet";
        "cisco_ios_telnet_ssh"; "custom_cisco_ios"; "custom_cisco_ios_ssh" ]
  ∧ Connection.ConnectHandler 0%nat sample_netmiko_base
      (Some (Some "cisco_xr_telnet"))
    = Connection.unsupported
        (Py.LF +:+ "cisco_ios_telnet" +:+ Py.LF +:+ "cisco_ios_telnet_ssh").
Proof. split_and!; vm_compute; reflexivity. Qed.

(** [hostname_cached_forever] on a facade that holds a host name, through
    a fetch, a disconnect and a read. *)
Lemma hostname_cached_forever_witness :
  cached_hostname (run_ops [OpGetCdp; OpDisconnect; OpHostname] named_switch)
  = Some "Switch"
  ∧ (hostname (run_ops [OpGetCdp; OpDisconnect; OpHostname] named_switch)).1
    = Ok "Switch".
Proof.
  destruct (hostname_cached_forever [OpGetCdp; OpDisconnect; OpHostname]
              named_switch "Switch" eq_refl) as [Hcached Hread].
  split; [exact Hcached | by rewrite Hread].
Defined.

(** [never_connected_unchanged] on a new facade. *)
Lemma never_connected_unchanged_witness :
  run_ops [OpGetCdp; OpGetLldp; OpHostname; OpNeighbors; OpDisconnect]
    (CiscoSwitch_init (mkIPv4 3232235777) : CiscoSwitch scripted)
  = CiscoSwitch_init (mkIPv4 3232235777).
Proof.
  apply never_connected_unchanged; [reflexivity |].
  repeat constructor; discriminate.
Defined.

(** [methods_raise_only] on a device with CDP switched off. *)
Lemma methods_raise_only_witness :
  op_raised OpGetCdp (connected cdp_disabled_session) = Some CDPNotEnabledError
  ∧ may_raise true OpGetCdp CDPNotEnabledError = true.
Proof.
  assert (op_raised OpGetCdp (connected cdp_disabled_session)
          = Some CDPNotEnabledError) as Hraised by (vm_compute; reflexivity).
  split; [exact Hraised |].
  exact (methods_raise_only OpGetCdp (connected cdp_disabled_session)
           CDPNotEnabledError Hraised).
Defined.

(** [session_never_dropped] through a disconnect and a fetch. *)
Lemma session_never_dropped_witness :
  is_Some (sw_conn (run_ops [OpDisconnect; OpGetCdp] (connected cdp_session)))
  ∧ op_raised OpGetLldp
      (run_ops [OpDisconnect; OpGetCdp] (connected cdp_session))
    ≠ Some AssertionError.
Proof.
  destruct (session_never_dropped [OpDisconnect; OpGetCdp]
              (connected cdp_session)) as [Hs Hnever]; [by eexists |].
  split; [exact Hs | apply Hnever].
Defined.

(** [methods_send_only_their_own] on [activate_cdp]. *)
Lemma methods_send_only_their_own_witness :
  ∃ more,
    sent (run_op OpActivateCdp (connected cdp_session))
    = sent (connected cdp_session) ++ more
    ∧ forallb (may_send OpActivateCdp) more = true.
Proof.
  apply methods_send_only_their_own. intros id_ pw secret. discriminate.
Defined.

(** What [get_cdp] asks a device that lists no neighbour: the prompt
    probe, the listing, and the two probes of the [hostname] read for
    the message. *)
Example get_cdp_traffic :
  sent (run_op OpGetCdp (connected (sample_session (Some "Switch#") "" "" "")))
  = [ CallFindPrompt; CallMultiline ["show cdp neighbors detail"];
      CallFindPrompt; CallFindPrompt ].
Proof. vm_compute. reflexivity. Qed.

(** [hostname_short_prompt] on a prompt of one character. *)
Lemma hostname_short_prompt_witness :
  (hostname (connected short_prompt_session)).1 = Ok ""
  ∧ sw_hostname (hostname (connected short_prompt_session)).2 = Some ""
  ∧ cached_hostname (hostname (connected short_prompt_session)).2 = None.
Proof.
  set (s1 := s_logged CallFindPrompt short_prompt_session).
  assert (find_prompt short_prompt_session = (Some "#", s1)) as Hp
    by reflexivity.
  assert (find_prompt s1 = (Some "#", s_logged CallFindPrompt s1)) as Hp'
    by reflexivity.
  destruct (hostname_short_prompt (connected short_prompt_session)
              short_prompt_session "#" s1 eq_refl eq_refl Hp) as [Hshort _].
  destruct (Hshort "#" _ Hp') as [Hrun Hcached]; [simpl; lia |].
  split_and!; [by rewrite Hrun | by rewrite Hrun | exact Hcached].
Defined.

(** [config_methods_run] on a scripted session. *)
Lemma config_methods_run_witness :
  (activate_cdp (connected cdp_session)).1 = Ok [""]
  ∧ sent (activate_cdp (connected cdp_session)).2
    = [CallFindPrompt; CallEnable; CallConfig ["cdp run"]]
  ∧ sent (show_running_config (connected cdp_session)).2
    = [CallFindPrompt; CallEnable; CallMultiline ["show running-config"]].
Proof.
  destruct (config_methods_run (connected cdp_session) cdp_session eq_refl)
    as (Hcdp & _ & _ & _ & Hshow).
  rewrite Hcdp, Hshow. split_and!; vm_compute; reflexivity.
Defined.

(** [cdp_entry_from_block] on the sample block. *)
Lemma cdp_entry_from_block_witness :
  Py.contains ("Device ID: " +:+ cdp_device_id sample_cdp_entry)
    sample_cdp_block = true
  ∧ Py.contains ("Platform: " +:+ cdp_platform sample_cdp_entry +:+ ",")
      sample_cdp_block = true
  ∧ ∃ t, Py.contains ("IP address: " +:+ t) sample_cdp_block = true
         ∧ Ipaddress.IPv4Address_new t = Ok (mkIPv4 167772169).
Proof.
  assert (cdp_block sample_cdp_block = Ok (Some sample_cdp_entry)) as Hb
    by (vm_compute; reflexivity).
  destruct (cdp_entry_from_block sample_cdp_block sample_cdp_entry Hb)
    as (Hd & Hp & _ & _ & _ & Hip).
  split_and!; [exact Hd | exact Hp |].
  apply Hip. by right.
Defined.

(** [lldp_record_from_block] on the sample block. *)
Lemma lldp_record_from_block_witness :
  ∃ chassis_id port_id system_name address a,
    sample_lldp_record "R1"
    = <["management_ip" := VIp a]>
        (<["system_name" := VStr system_name]>
           (<["port_id" := VStr port_id]>
              (<["chassis_id" := VStr chassis_id]> ∅)))
    ∧ token chassis_id ∧ token port_id ∧ token system_name
    ∧ Ipaddress.IPv4Address_new address = Ok a
    ∧ Py.contains ("Chassis id: " +:+ chassis_id) sample_lldp_block = true
    ∧ Py.contains ("Port id: " +:+ port_id) sample_lldp_block = true
    ∧ Py.contains ("System Name: " +:+ system_name) sample_lldp_block = true
    ∧ Py.contains ("IP: " +:+ address) sample_lldp_block = true.
Proof.
  assert (lldp_block sample_lldp_block = Ok (Some (sample_lldp_record "R1")))
    as Hb by (vm_compute; reflexivity).
  exact (lldp_record_from_block sample_lldp_block (sample_lldp_record "R1") Hb).
Defined.

(** [brief_pattern_first_two_tokens] on a row with leading whitespace
    and further columns. *)
Lemma brief_pattern_first_two_tokens_witness :
  search brief_pattern sample_brief_row = Some [("1", "R1"); ("2", "Gi0/1")]
  ∧ mapping_step ∅ sample_brief_row = <["R1" := "Gi0/1"]> ∅.
Proof.
  apply (brief_pattern_first_two_tokens "  " "R1" "    " "Gi0/1" " 120 R Gi0/2" ∅).
  - reflexivity.
  - split; [discriminate | reflexivity].
  - discriminate.
  - reflexivity.
  - split; [discriminate | reflexivity].
  - intros c t [= <- _]. reflexivity.
Defined.

(** [local_intf_mapping_last_wins] on two rows for one device. *)
Lemma local_intf_mapping_last_wins_witness :
  local_intf_mapping ["R1 Gi0/1"; "R1 Gi0/9"; "R2 Gi0/2"] !! "R1" = Some "Gi0/9".
Proof.
  assert (search brief_pattern "R1 Gi0/9" = Some [("1", "R1"); ("2", "Gi0/9")])
    as H1 by (vm_compute; reflexivity).
  assert (search brief_pattern "R2 Gi0/2" = Some [("1", "R2"); ("2", "Gi0/2")])
    as H2 by (vm_compute; reflexivity).
  apply (local_intf_mapping_last_wins ["R1 Gi0/1"] ["R2 Gi0/2"] "R1 Gi0/9").
  - intros m. unfold mapping_step. by rewrite H1.
  - constructor; [|constructor]. intros m. unfold mapping_step. rewrite H2.
    simpl. by rewrite lookup_insert_ne.
Defined.

(** The stored entries after a run of fetches on the two sample
    devices. *)
Example stored_entries_run :
  sw_cdp (run_ops [OpGetCdp; OpGetLldp] (connected cdp_session))
  = [sample_cdp_entry]
  ∧ sw_lldp (run_ops [OpGetCdp; OpGetLldp] (connected (lldp_session "R1")))
    = [sample_lldp_entry].
Proof. split; vm_compute; reflexivity. Qed.

End MoreRuns.
